(** * Verification of the MCP capability extractor

    Shallow embedding of [src/mcp_scraper/tool_extractor_fixed.py]
    (class [EnhancedToolExtractor]) and proofs about it.

    Modelling conventions.
    - Python [str] values are lists of 8-bit characters ([text]); the character
      classes [\w], [\s], [\d], [str.lower] and [str.strip] are those of the
      ASCII range.
    - Python's [re] module is embedded as a pattern compiler ([Re.compile],
      reading the very pattern strings of the source) and a backtracking
      matcher ([Re.exec]) with leftmost, greedy/lazy, first-alternative
      semantics.
    - The confidence scorer is embedded twice: on IEEE 754 binary64 numbers
      as Python computes it ([Binary64]: the score that is returned and
      printed), and on the rationals that its decimal constants denote
      ([Q], for the statements in exact arithmetic).
    - [int(s)] raises above 4300 digits, the default limit of CPython 3.11.
    - The GitHub API and the clock are embedded as an explicit world state
      threaded through the traversal; the state counts the calls of
      [repo.get_contents], not the requests that PyGithub sends on its
      own. *)

From Stdlib Require Import String Ascii Bool Arith NArith ZArith QArith Qminmax Qround Lia Lqa List DecimalString.
From Stdlib Require Floats Uint63.
Import ListNotations.
Close Scope Q_scope.
Close Scope Z_scope.
Close Scope N_scope.
Open Scope string_scope.
Open Scope list_scope.
Open Scope nat_scope.

(** ** Python strings *)

Definition text := list ascii.

Definition text_of_string (s : string) : text := list_ascii_of_string s.
Coercion text_of_string : string >-> text.

Module PyStr.

Definition code (c : ascii) : N := N_of_ascii c.

Definition in_range (lo hi : N) (c : ascii) : bool :=
  (N.leb lo (code c) && N.leb (code c) hi)%bool.

Definition is_digit (c : ascii) : bool := in_range 48 57 c.
Definition is_upper (c : ascii) : bool := in_range 65 90 c.
Definition is_lower (c : ascii) : bool := in_range 97 122 c.

(** [\w] : letters, digits and the underscore. *)
Definition is_word (c : ascii) : bool :=
  (is_digit c || is_upper c || is_lower c || N.eqb (code c) 95)%bool.

(** [str.isspace] / [\s] : TAB, LF, VT, FF, CR, FS, GS, RS, US and space. *)
Definition is_space (c : ascii) : bool :=
  (in_range 9 13 c || in_range 28 31 c || N.eqb (code c) 32)%bool.

Definition lower_char (c : ascii) : ascii :=
  if is_upper c then ascii_of_N (code c + 32) else c.

Definition upper_char (c : ascii) : ascii :=
  if is_lower c then ascii_of_N (code c - 32) else c.

(** [s.lower()] *)
Definition lower (s : text) : text := map lower_char s.

Definition eqb_char (a b : ascii) : bool := Ascii.eqb a b.

Fixpoint eqb (a b : text) : bool :=
  match a, b with
  | [], [] => true
  | x :: a', y :: b' => (eqb_char x y && eqb a' b')%bool
  | _, _ => false
  end.

(** [s.startswith(p)] *)
Fixpoint startswith (s p : text) {struct p} : bool :=
  match p, s with
  | [], _ => true
  | y :: p', x :: s' => (eqb_char x y && startswith s' p')%bool
  | _ :: _, [] => false
  end.

(** [s.endswith(p)] *)
Definition endswith (s p : text) : bool := startswith (rev s) (rev p).

(** [p in s] *)
Fixpoint contains (s p : text) : bool :=
  (startswith s p ||
   match s with
   | [] => false
   | _ :: s' => contains s' p
   end)%bool.

Fixpoint lstrip_by (f : ascii -> bool) (s : text) : text :=
  match s with
  | [] => []
  | c :: s' => if f c then lstrip_by f s' else s
  end.

Definition rstrip_by (f : ascii -> bool) (s : text) : text :=
  rev (lstrip_by f (rev s)).

Definition strip_by (f : ascii -> bool) (s : text) : text :=
  rstrip_by f (lstrip_by f s).

(** [s.strip()] *)
Definition strip (s : text) : text := strip_by is_space s.

Definition mem_char (cs : text) (c : ascii) : bool :=
  existsb (eqb_char c) cs.

(** [s.strip(chars)] *)
Definition strip_chars (cs : text) (s : text) : text := strip_by (mem_char cs) s.

(** [' '.join(s.split())] : runs of whitespace become one space, and the
    ends are trimmed. *)
Fixpoint words_aux (s : text) (cur : text) (acc : list text) : list text :=
  match s with
  | [] => rev (match cur with [] => acc | _ => rev cur :: acc end)
  | c :: s' =>
      if is_space c
      then words_aux s' [] (match cur with [] => acc | _ => rev cur :: acc end)
      else words_aux s' (c :: cur) acc
  end.

Definition split_ws (s : text) : list text := words_aux s [] [].

Fixpoint join (sep : text) (l : list text) : text :=
  match l with
  | [] => []
  | [x] => x
  | x :: l' => x ++ sep ++ join sep l'
  end.

(** [s.split(sep, 1)] for a one-character separator that occurs in [s]:
    the text before the first separator and the text after it. *)
Fixpoint split1 (sep : ascii) (s : text) : option (text * text) :=
  match s with
  | [] => None
  | c :: s' =>
      if eqb_char c sep then Some ([], s')
      else match split1 sep s' with
           | Some (a, b) => Some (c :: a, b)
           | None => None
           end
  end.

(** [s.rfind(c)] as the position counted from the left, if any. *)
Fixpoint rfind_char (c : ascii) (s : text) (pos : nat) (found : option nat) : option nat :=
  match s with
  | [] => found
  | x :: s' => rfind_char c s' (S pos) (if eqb_char x c then Some pos else found)
  end.

(** Truthiness of a Python string. *)
Definition nonempty (s : text) : bool :=
  match s with [] => false | _ => true end.

End PyStr.

(** ** Python's [re] module *)

Module Re.
Import PyStr.

(** *** Abstract syntax *)

(** A member of a bracketed character set. *)
Inductive citem : Type :=
| CChar (c : ascii)
| CRange (lo hi : ascii)
| CWord | CSpace | CDigit
| CNotWord | CNotSpace | CNotDigit.

Inductive regex : Type :=
| Eps
| Chr (c : ascii)                       (* a literal character *)
| AnyChar                               (* [.] under DOTALL *)
| NotNewline                            (* [.] without DOTALL *)
| Cls (neg : bool) (items : list citem) (* [[...]], [[^...]], [\w], [\s], [\d] *)
| Seq (a b : regex)
| Alt (a b : regex)
| Star (greedy : bool) (a : regex)
| Group (n : nat) (a : regex)           (* capturing group number [n] *)
| Look (a : regex)                      (* [(?=...)] *)
| Bol                                   (* [^] *)
| Eol.                                  (* [$] *)

Definition newline : ascii := ascii_of_N 10.

Definition citem_mem (i : citem) (c : ascii) : bool :=
  match i with
  | CChar x => eqb_char c x
  | CRange lo hi => in_range (code lo) (code hi) c
  | CWord => is_word c
  | CSpace => is_space c
  | CDigit => is_digit c
  | CNotWord => negb (is_word c)
  | CNotSpace => negb (is_space c)
  | CNotDigit => negb (is_digit c)
  end.

Definition items_mem (items : list citem) (c : ascii) : bool :=
  existsb (fun i => citem_mem i c) items.

(** Membership in a set; under IGNORECASE a character belongs to a set when
    one of its case variants does. *)
Definition items_mem_ci (icase : bool) (items : list citem) (c : ascii) : bool :=
  (items_mem items c ||
   (icase && (items_mem items (lower_char c) || items_mem items (upper_char c))))%bool.

Definition chr_mem_ci (icase : bool) (x c : ascii) : bool :=
  (eqb_char c x || (icase && eqb_char (lower_char c) (lower_char x)))%bool.

(** Does the single character [c] match the one-character pattern [r]? *)
Definition char_test (icase : bool) (r : regex) (c : ascii) : bool :=
  match r with
  | Chr x => chr_mem_ci icase x c
  | AnyChar => true
  | NotNewline => negb (eqb_char c newline)
  | Cls neg items => xorb neg (items_mem_ci icase items c)
  | _ => false
  end.

(** *** The backtracking matcher *)

(** Captured groups: the latest binding of a group number comes first. *)
Definition caps := list (nat * text).

Fixpoint cap_lookup (n : nat) (c : caps) : option text :=
  match c with
  | [] => None
  | (k, v) :: c' => if Nat.eqb k n then Some v else cap_lookup n c'
  end.

Definition cont := text -> caps -> option (text * caps).

Definition orelse {A} (x : option A) (y : option A) : option A :=
  match x with Some _ => x | None => y end.

(** Repetition.  Each iteration has to consume input, so [length s]
    iterations are the most there can be. *)
Fixpoint star_loop (body : text -> caps -> cont -> option (text * caps))
    (greedy : bool) (fuel : nat) (s : text) (c : caps) (k : cont)
    : option (text * caps) :=
  match fuel with
  | O => k s c
  | S fuel' =>
      let again :=
        body s c (fun s' c' =>
          if Nat.ltb (length s') (length s)
          then star_loop body greedy fuel' s' c' k
          else None) in
      if greedy then orelse again (k s c) else orelse (k s c) again
  end.

Section Matcher.

(** [icase]: the IGNORECASE flag; [total]: the length of the subject. *)
Variable icase : bool.
Variable total : nat.

(** [exec r s c k]: match [r] at the front of [s] (a suffix of the subject)
    and continue with [k] on what is left; [None] makes the matcher
    backtrack into the latest choice. *)
Fixpoint exec (r : regex) (s : text) (c : caps) (k : cont) {struct r}
    : option (text * caps) :=
  match r with
  | Eps => k s c
  | Chr _ | AnyChar | NotNewline | Cls _ _ =>
      match s with
      | x :: s' => if char_test icase r x then k s' c else None
      | [] => None
      end
  | Seq a b => exec a s c (fun s' c' => exec b s' c' k)
  | Alt a b => orelse (exec a s c k) (exec b s c k)
  | Star g a => star_loop (exec a) g (length s) s c k
  | Group n a =>
      exec a s c (fun s' c' =>
        k s' ((n, firstn (length s - length s') s) :: c'))
  | Look a =>
      match exec a s c (fun s' c' => Some (s', c')) with
      | Some (_, c') => k s c'
      | None => None
      end
  | Bol => if Nat.eqb (length s) total then k s c else None
  | Eol =>
      match s with
      | [] => k s c
      | [x] => if eqb_char x newline then k s c else None
      | _ => None
      end
  end.

Definition exec_at (r : regex) (s : text) : option (text * caps) :=
  exec r s [] (fun s' c' => Some (s', c')).

End Matcher.

(** *** Compiled patterns and match objects *)

Record pattern : Type := mkPattern {
  p_ast : regex;
  p_groups : nat;       (* number of capturing groups *)
  p_icase : bool
}.

Record rmatch : Type := mkMatch {
  m_start : nat;
  m_end : nat;
  m_whole : text;       (* group(0) *)
  m_caps : caps
}.

(** [m.group(n)] for [n >= 1]; [None] when the group took no part. *)
Definition group (m : rmatch) (n : nat) : option text := cap_lookup n (m_caps m).

(** The first match that starts in [s], which begins at offset [pos] of the
    subject; start positions are tried from left to right. *)
Fixpoint search_from (p : pattern) (total : nat) (pos : nat) (s : text) : option rmatch :=
  match exec_at (p_icase p) total (p_ast p) s with
  | Some (rest, c) =>
      let len := length s - length rest in
      Some (mkMatch pos (pos + len) (firstn len s) c)
  | None =>
      match s with
      | [] => None
      | _ :: s' => search_from p total (S pos) s'
      end
  end.

(** [re.search(p, s)] *)
Definition search (p : pattern) (s : text) : option rmatch :=
  search_from p (length s) 0 s.

(** All matches from left to right, none overlapping another; after an empty
    match the scan moves on by one character. *)
Fixpoint finditer_from (p : pattern) (total : nat) (fuel : nat) (pos : nat) (s : text)
    : list rmatch :=
  match fuel with
  | O => []
  | S fuel' =>
      match search_from p total pos s with
      | None => []
      | Some m =>
          let next := if Nat.ltb (m_start m) (m_end m) then m_end m else S (m_end m) in
          if Nat.ltb total next then [m]
          else m :: finditer_from p total fuel' next (skipn (next - pos) s)
      end
  end.

Definition finditer (p : pattern) (s : text) : list rmatch :=
  finditer_from p (length s) (S (length s)) 0 s.

Definition group_or_empty (m : rmatch) (n : nat) : text :=
  match group m n with Some t => t | None => [] end.

(** [re.findall(p, s)]: per match the texts of groups 1..n (the empty string
    for a group that took no part), or the whole match when the pattern has
    no group. *)
Definition findall (p : pattern) (s : text) : list (list text) :=
  map (fun m =>
         match p_groups p with
         | O => [m_whole m]
         | n => map (group_or_empty m) (seq 1 n)
         end)
      (finditer p s).

(** [re.sub(p, repl, s)] for a replacement text without group references. *)
Fixpoint sub_from (ms : list rmatch) (repl : text) (pos : nat) (s : text) : text :=
  match ms with
  | [] => s
  | m :: ms' =>
      firstn (m_start m - pos) s ++ repl ++
      sub_from ms' repl (m_end m) (skipn (m_end m - pos) s)
  end.

Definition sub (p : pattern) (repl : text) (s : text) : text :=
  sub_from (finditer p s) repl 0 s.

(** *** The pattern compiler

    [compile] reads a pattern in Python's syntax, one character at a time.
    It covers literals, [.], the escapes [\s \S \w \W \d \D \n \t \r \f \v \a]
    and escaped punctuation, bracketed sets with ranges and negation, the
    groups [(...)], [(?:...)] and [(?=...)], alternation, the quantifiers
    [* + ?] with their lazy forms, and the anchors.  A pattern that Python
    rejects with [re.error] yields [BadPattern]; syntax beyond this subset
    (counted repetition, backreferences, named groups, word boundaries,
    possessive quantifiers, inline flags) yields [OutOfSubset]. *)

Inductive cresult (A : Type) : Type :=
| Compiled (a : A)
| BadPattern        (* Python raises re.error *)
| OutOfSubset.      (* not covered by this embedding *)

Arguments Compiled {A} a.
Arguments BadPattern {A}.
Arguments OutOfSubset {A}.

Definition cbind {A B} (x : cresult A) (f : A -> cresult B) : cresult B :=
  match x with
  | Compiled a => f a
  | BadPattern => BadPattern
  | OutOfSubset => OutOfSubset
  end.

Record flags : Type := mkFlags { DOTALL : bool; IGNORECASE : bool }.

Inductive quant : Type :=
| QOne | QStar (g : bool) | QPlus (g : bool) | QOpt (g : bool).

Definition item := (regex * quant)%type.

Definition item_regex (it : item) : regex :=
  match it with
  | (r, QOne) => r
  | (r, QStar g) => Star g r
  | (r, QPlus g) => Seq r (Star g r)
  | (r, QOpt true) => Alt r Eps
  | (r, QOpt false) => Alt Eps r
  end.

Definition mk_seq (items : list item) : regex :=
  fold_right (fun it acc => Seq (item_regex it) acc) Eps items.

Fixpoint mk_alt (first : regex) (others : list regex) : regex :=
  match others with
  | [] => first
  | b :: others' => Alt first (mk_alt b others')
  end.

Inductive gkind : Type := GTop | GCap (n : nat) | GNon | GLook.

(** One nesting level under construction: the alternatives finished so far
    and the items of the current alternative, both latest first. *)
Record frame : Type := mkFrame {
  fr_kind : gkind;
  fr_alts : list regex;
  fr_seq : list item
}.

Inductive ctok : Type := TChar (c : ascii) | TDash | TItem (i : citem).

Inductive pmode : Type :=
| MNormal
| MEscape                                         (* after a backslash *)
| MParen                                          (* after "(" *)
| MParenQ                                         (* after "(?" *)
| MClassOpen                                      (* after "[" *)
| MClass (neg first : bool) (raw : list ctok)     (* inside a set *)
| MClassEsc (neg : bool) (raw : list ctok).       (* after a backslash in a set *)

(** What a quantifier would apply to. *)
Inductive last : Type := LAtom | LQuant | LLazy | LAssert.

(** Progress through what may turn out to be a counted repetition
    [{m}], [{m,}], [{,n}], [{m,n}]. *)
Inductive brace : Type := BNone | BLo (digits : nat) | BHi.

Record pstate : Type := mkPstate {
  ps_cur : frame;
  ps_stack : list frame;
  ps_mode : pmode;
  ps_last : last;
  ps_brace : brace;
  ps_ngroups : nat
}.

Definition ps_init : pstate :=
  mkPstate (mkFrame GTop [] []) [] MNormal LAtom BNone 0.

Definition frame_regex (f : frame) : regex :=
  match rev (mk_seq (rev (fr_seq f)) :: fr_alts f) with
  | [] => Eps
  | a :: others => mk_alt a others
  end.

Definition push_item (it : item) (l : last) (b : brace) (st : pstate) : pstate :=
  let f := ps_cur st in
  mkPstate (mkFrame (fr_kind f) (fr_alts f) (it :: fr_seq f))
           (ps_stack st) MNormal l b (ps_ngroups st).

Definition push_atom (r : regex) (st : pstate) : pstate :=
  push_item (r, QOne) LAtom BNone st.

Definition set_mode (m : pmode) (st : pstate) : pstate :=
  mkPstate (ps_cur st) (ps_stack st) m (ps_last st) BNone (ps_ngroups st).

Definition open_group (k : gkind) (n : nat) (st : pstate) : pstate :=
  mkPstate (mkFrame k [] []) (ps_cur st :: ps_stack st) MNormal LAtom BNone n.

Definition close_group (st : pstate) : cresult pstate :=
  match ps_stack st with
  | [] => BadPattern                                  (* unbalanced parenthesis *)
  | parent :: stack' =>
      let inner := frame_regex (ps_cur st) in
      let (atom, l) :=
        match fr_kind (ps_cur st) with
        | GCap n => (Group n inner, LAtom)
        | GLook => (Look inner, LAssert)
        | _ => (inner, LAtom)
        end in
      Compiled (mkPstate
        (mkFrame (fr_kind parent) (fr_alts parent) ((atom, QOne) :: fr_seq parent))
        stack' MNormal l BNone (ps_ngroups st))
  end.

Definition new_alternative (st : pstate) : pstate :=
  let f := ps_cur st in
  mkPstate (mkFrame (fr_kind f) (mk_seq (rev (fr_seq f)) :: fr_alts f) [])
           (ps_stack st) MNormal LAtom BNone (ps_ngroups st).

Definition quantify (c : ascii) (st : pstate) : cresult pstate :=
  let f := ps_cur st in
  match fr_seq f with
  | [] => BadPattern                                  (* nothing to repeat *)
  | (r, q) :: rest =>
      let put q' l :=
        Compiled (mkPstate (mkFrame (fr_kind f) (fr_alts f) ((r, q') :: rest))
                           (ps_stack st) MNormal l BNone (ps_ngroups st)) in
      match ps_last st with
      | LAtom =>
          if eqb_char c "*" then put (QStar true) LQuant
          else if eqb_char c "+" then put (QPlus true) LQuant
          else put (QOpt true) LQuant
      | LQuant =>
          if eqb_char c "?" then
            match q with
            | QStar _ => put (QStar false) LLazy
            | QPlus _ => put (QPlus false) LLazy
            | QOpt _ => put (QOpt false) LLazy
            | QOne => BadPattern
            end
          else if eqb_char c "+" then OutOfSubset     (* possessive *)
          else BadPattern                             (* multiple repeat *)
      | LLazy => BadPattern                           (* multiple repeat *)
      | LAssert => OutOfSubset
      end
  end.

Definition is_letter (c : ascii) : bool := (is_upper c || is_lower c)%bool.

Definition one_of (cs : string) (c : ascii) : bool := mem_char cs c.

(** The class escapes shared by both positions. *)
Definition category (c : ascii) : option citem :=
  if eqb_char c "s" then Some CSpace
  else if eqb_char c "S" then Some CNotSpace
  else if eqb_char c "w" then Some CWord
  else if eqb_char c "W" then Some CNotWord
  else if eqb_char c "d" then Some CDigit
  else if eqb_char c "D" then Some CNotDigit
  else None.

Definition control (c : ascii) : option ascii :=
  if eqb_char c "n" then Some (ascii_of_N 10)
  else if eqb_char c "t" then Some (ascii_of_N 9)
  else if eqb_char c "r" then Some (ascii_of_N 13)
  else if eqb_char c "f" then Some (ascii_of_N 12)
  else if eqb_char c "v" then Some (ascii_of_N 11)
  else if eqb_char c "a" then Some (ascii_of_N 7)
  else None.

(** The character after a backslash, outside a set. *)
Definition escape_atom (c : ascii) : cresult regex :=
  match category c with
  | Some i => Compiled (Cls false [i])
  | None =>
      match control c with
      | Some x => Compiled (Chr x)
      | None =>
          if (is_digit c || one_of "bBAZxuUN" c)%bool then OutOfSubset
          else if is_letter c then BadPattern         (* bad escape *)
          else Compiled (Chr c)
      end
  end.

(** The character after a backslash, inside a set. *)
Definition escape_ctok (c : ascii) : cresult ctok :=
  match category c with
  | Some i => Compiled (TItem i)
  | None =>
      match control c with
      | Some x => Compiled (TChar x)
      | None =>
          if (is_digit c || one_of "bBAZxuUN" c)%bool then OutOfSubset
          else if is_letter c then BadPattern
          else Compiled (TChar c)
      end
  end.

(** The members of a set from its tokens: [a-b] is a range, a dash at
    either end stands for itself. *)
Fixpoint class_items (l : list ctok) : cresult (list citem) :=
  match l with
  | [] => Compiled []
  | TChar a :: TDash :: TChar b :: r =>
      if N.leb (code a) (code b)
      then cbind (class_items r) (fun xs => Compiled (CRange a b :: xs))
      else BadPattern                                 (* bad character range *)
  | TChar a :: TDash :: TItem _ :: _ => BadPattern
  | TChar a :: TDash :: TDash :: _ => OutOfSubset
  | TChar a :: r => cbind (class_items r) (fun xs => Compiled (CChar a :: xs))
  | TItem i :: TDash :: _ :: _ => OutOfSubset
  | TItem i :: r => cbind (class_items r) (fun xs => Compiled (i :: xs))
  | TDash :: TDash :: _ => OutOfSubset
  | TDash :: r => cbind (class_items r) (fun xs => Compiled (CChar "-" :: xs))
  end.

Section Compiler.

Variable fl : flags.

(** A character read in normal position, the brace bookkeeping done. *)
Definition step_plain (st : pstate) (c : ascii) : cresult pstate :=
  if eqb_char c "\" then Compiled (set_mode MEscape st)
  else if eqb_char c "." then
    Compiled (push_atom (if DOTALL fl then AnyChar else NotNewline) st)
  else if eqb_char c "[" then Compiled (set_mode MClassOpen st)
  else if eqb_char c "(" then Compiled (set_mode MParen st)
  else if eqb_char c ")" then close_group st
  else if eqb_char c "|" then Compiled (new_alternative st)
  else if one_of "*+?" c then quantify c st
  else if eqb_char c "^" then Compiled (push_item (Bol, QOne) LAssert BNone st)
  else if eqb_char c "$" then Compiled (push_item (Eol, QOne) LAssert BNone st)
  else if eqb_char c "{" then Compiled (push_item (Chr c, QOne) LAtom (BLo 0) st)
  else Compiled (push_atom (Chr c) st).

(** A brace is a literal unless it opens a well-formed counted repetition. *)
Definition step_normal (st : pstate) (c : ascii) : cresult pstate :=
  match ps_brace st with
  | BNone => step_plain st c
  | BLo n =>
      if is_digit c then Compiled (push_item (Chr c, QOne) LAtom (BLo (S n)) st)
      else if eqb_char c "," then Compiled (push_item (Chr c, QOne) LAtom BHi st)
      else if eqb_char c "}" then
        match n with
        | O => Compiled (push_atom (Chr c) st)
        | S _ => OutOfSubset
        end
      else step_plain st c
  | BHi =>
      if is_digit c then Compiled (push_item (Chr c, QOne) LAtom BHi st)
      else if eqb_char c "}" then OutOfSubset
      else step_plain st c
  end.

Definition close_class (neg : bool) (raw : list ctok) (st : pstate) : cresult pstate :=
  cbind (class_items (rev raw)) (fun xs => Compiled (push_atom (Cls neg xs) st)).

Definition step_class (neg first : bool) (raw : list ctok) (st : pstate) (c : ascii)
    : cresult pstate :=
  if eqb_char c "]" then
    if first then Compiled (set_mode (MClass neg false (TChar c :: raw)) st)
    else close_class neg raw st
  else if eqb_char c "\" then Compiled (set_mode (MClassEsc neg raw) st)
  else if eqb_char c "-" then Compiled (set_mode (MClass neg false (TDash :: raw)) st)
  else Compiled (set_mode (MClass neg false (TChar c :: raw)) st).

Definition step (st : pstate) (c : ascii) : cresult pstate :=
  match ps_mode st with
  | MNormal => step_normal st c
  | MEscape => cbind (escape_atom c) (fun r => Compiled (push_atom r st))
  | MParen =>
      if eqb_char c "?" then Compiled (set_mode MParenQ st)
      else step_normal (open_group (GCap (S (ps_ngroups st))) (S (ps_ngroups st)) st) c
  | MParenQ =>
      if eqb_char c ":" then Compiled (open_group GNon (ps_ngroups st) st)
      else if eqb_char c "=" then Compiled (open_group GLook (ps_ngroups st) st)
      else OutOfSubset
  | MClassOpen =>
      if eqb_char c "^" then Compiled (set_mode (MClass true true []) st)
      else step_class false true [] st c
  | MClass neg first raw => step_class neg first raw st c
  | MClassEsc neg raw =>
      cbind (escape_ctok c) (fun t => Compiled (set_mode (MClass neg false (t :: raw)) st))
  end.

Fixpoint run (st : pstate) (pat : text) : cresult pstate :=
  match pat with
  | [] => Compiled st
  | c :: pat' => cbind (step st c) (fun st' => run st' pat')
  end.

Definition finish (st : pstate) : cresult pattern :=
  match ps_mode st, ps_stack st with
  | MNormal, [] =>
      Compiled (mkPattern (frame_regex (ps_cur st)) (ps_ngroups st) (IGNORECASE fl))
  | _, _ => BadPattern       (* unterminated group, set or escape *)
  end.

(** [re.compile(pat, flags)] *)
Definition compile (pat : text) : cresult pattern :=
  cbind (run ps_init pat) finish.

End Compiler.

Definition no_flags : flags := mkFlags false false.
Definition re_DOTALL : flags := mkFlags true false.
Definition re_DOTALL_IGNORECASE : flags := mkFlags true true.

(** [re.escape(s)]: a backslash before every character that can be special. *)
Definition special (c : ascii) : bool :=
  (one_of "()[]{}?*+-|^$\.&~# " c || in_range 9 13 c)%bool.

Definition escape (s : text) : text :=
  flat_map (fun c => if special c then ["\"%char; c] else [c]) s.

End Re.

(** ** Exceptions and results *)

Inductive exn : Type :=
| ReError                        (* re.error: the pattern does not compile *)
| TypeError                      (* a [None] where a string is required *)
| RateLimitExceededException     (* github: HTTP 403 / 429 *)
| GithubException                (* github: any other API error *)
| OtherException.                (* anything else, e.g. a network failure *)

(** The outcome of a call: a value, a raised exception, or [Stuck] when a
    pattern built at run time leaves the embedded subset of [re]. *)
Inductive res (A : Type) : Type :=
| Ret (a : A)
| Raise (e : exn)
| Stuck.

Arguments Ret {A} a.
Arguments Raise {A} e.
Arguments Stuck {A}.

Definition bind {A B} (x : res A) (f : A -> res B) : res B :=
  match x with
  | Ret a => f a
  | Raise e => Raise e
  | Stuck => Stuck
  end.

Declare Scope res_scope.
Delimit Scope res_scope with res.
Notation "x <- c ;; k" := (bind c (fun x => k))
  (at level 61, c at next level, right associativity) : res_scope.
Open Scope res_scope.

Definition DQ : string := String (ascii_of_N 34) EmptyString.   (* the double quote *)
Definition LF : string := String (ascii_of_N 10) EmptyString.   (* the line feed *)

Definition re_compile (fl : Re.flags) (pat : text) : res Re.pattern :=
  match Re.compile fl pat with
  | Re.Compiled p => Ret p
  | Re.BadPattern => Raise ReError
  | Re.OutOfSubset => Stuck
  end.

Definition re_search (fl : Re.flags) (pat s : text) : res (option Re.rmatch) :=
  p <- re_compile fl pat ;; Ret (Re.search p s).

Definition re_findall (fl : Re.flags) (pat s : text) : res (list (list text)) :=
  p <- re_compile fl pat ;; Ret (Re.findall p s).

Definition re_sub (pat repl s : text) : res text :=
  p <- re_compile Re.no_flags pat ;; Ret (Re.sub p repl s).

(** Fields of one [findall] tuple. *)
Definition fld (i : nat) (g : list text) : text := nth i g [].

(** [str(n)] *)
Definition str_of_nat (n : nat) : text :=
  DecimalString.NilEmpty.string_of_uint (Nat.to_uint n).

(** The number that a text of decimal digits denotes. *)
Definition int_of_digits (s : text) : nat :=
  fold_left (fun acc c => 10 * acc + (N.to_nat (PyStr.code c) - 48)) s 0.

(** [sys.get_int_max_str_digits()] as CPython sets it. *)
Definition int_max_str_digits : nat := 4300.

(** [int(s)] for a text of decimal digits.  CPython refuses a text of more
    than 4300 digits, leading zeros included, with [ValueError]: an
    exception that no handler of the extractor tells apart from any other,
    hence [OtherException]. *)
Definition py_int (s : text) : res nat :=
  if Nat.ltb int_max_str_digits (length s) then Raise OtherException
  else Ret (int_of_digits s).

(** ** Data model ([models.py]) *)

Record ToolParameter : Type := mkParam {
  param_name : text;
  param_type : text;
  param_description : option text;
  param_required : bool
}.

Record MCPTool : Type := mkTool {
  tool_name : text;
  tool_description : option text;
  tool_parameters : list ToolParameter
}.

Record MCPPrompt : Type := mkPrompt {
  prompt_name : text;
  prompt_description : option text;
  prompt_arguments : list ToolParameter
}.

Record MCPResource : Type := mkResource {
  resource_name : text;
  resource_description : option text;
  resource_uri : option text;
  resource_mime_type : option text
}.

Inductive ServerType : Type := REFERENCE | THIRD_PARTY.

Record MCPServer : Type := mkServer {
  name : text;
  github_url : text;
  server_type : ServerType;
  tools : list MCPTool;
  prompts : list MCPPrompt;
  resources : list MCPResource;
  error_message : option text;
  extraction_log : option (list text)
}.

Definition parsed := (list MCPTool * list MCPPrompt * list MCPResource)%type.

(** [description.strip() if description else None] *)
Definition strip_or_none (description : text) : option text :=
  if PyStr.nonempty description then Some (PyStr.strip description) else None.

(** [description if description else None] *)
Definition text_or_none (description : text) : option text :=
  if PyStr.nonempty description then Some description else None.

(** A string literal of the source.  The character [~] stands for the double
    quote, which a literal of this file cannot hold; no pattern or text of
    the source contains a tilde. *)
Definition raw (s : string) : text :=
  map (fun c => if PyStr.eqb_char c "~" then ascii_of_N 34 else c)
      (list_ascii_of_string s).

(** ** The extractor ([tool_extractor_fixed.py]) *)

Module EnhancedToolExtractor.
Import PyStr.

Definition max_retries : nat := 3.

Fixpoint concat_mapM {A B} (f : A -> res (list B)) (l : list A) : res (list B) :=
  match l with
  | [] => Ret []
  | x :: l' => ys <- f x ;; zs <- concat_mapM f l' ;; Ret (ys ++ zs)
  end.

(** [m.group(n)] used as a string. *)
Definition group_text (m : Re.rmatch) (n : nat) : res text :=
  match Re.group m n with
  | Some t => Ret t
  | None => Raise TypeError
  end.

(** *** Python sources *)

Definition fastmcp_pattern : text :=
  raw "@mcp\.tool\(\)\s*(?:async\s+)?def\s+(\w+)\s*\([^)]*\):\s*(?:\n\s*~~~([^~]*?)~~~)?".
Definition server_tool_pattern : text :=
  raw "@server\.tool\s*(?:\([^)]*\))?\s*(?:async\s+)?def\s+(\w+)\s*\([^)]*\):\s*(?:\n\s*~~~([^~]*?)~~~)?".
Definition tool_pattern : text :=
  raw "@tool\s*(?:\([^)]*\))?\s*(?:async\s+)?def\s+(\w+)\s*\([^)]*\):\s*(?:\n\s*~~~([^~]*?)~~~)?".
Definition add_tool_pattern : text :=
  raw "server\.add_tool\s*\(\s*[~\']([^~\']+)[~\']".

Definition decorated_tool (g : list text) : MCPTool :=
  mkTool (fld 0 g) (strip_or_none (fld 1 g)) [].

Definition named_tool (n : text) : MCPTool := mkTool n None [].

Definition _parse_python_content (content : text) : res parsed :=
  fastmcp_matches <- re_findall Re.re_DOTALL fastmcp_pattern content ;;
  server_tool_matches <- re_findall Re.re_DOTALL server_tool_pattern content ;;
  tool_matches <- re_findall Re.re_DOTALL tool_pattern content ;;
  add_tool_matches <- re_findall Re.no_flags add_tool_pattern content ;;
  Ret (map decorated_tool fastmcp_matches
       ++ map decorated_tool server_tool_matches
       ++ map decorated_tool tool_matches
       ++ map (fun g => named_tool (fld 0 g)) add_tool_matches,
       [], []).

(** *** Go sources *)

Definition const_pattern : text :=
  raw "const\s+(\w+Tool)\s*=\s*[~\']([^~\']+)[~\']".
Definition direct_add_pattern : text :=
  raw "s\.AddTool\s*\(\s*[~\']([^~\']+)[~\']".
Definition go_struct_pattern : text :=
  raw "type\s+\w*Tool\w*\s+struct\s*{[^}]*Name\s*:\s*[~\']([^~\']+)[~\'][^}]*}".

Definition _parse_go_content (content : text) : res parsed :=
  const_matches <- re_findall Re.no_flags const_pattern content ;;
  tools1 <- concat_mapM (fun g =>
      let const_name := fld 0 g in
      let tool_name := fld 1 g in
      let add_tool_pattern := raw "s\.AddTool\s*\(\s*\w*\.?" ++ Re.escape const_name in
      found <- re_search Re.no_flags add_tool_pattern content ;;
      Ret (match found with
           | Some _ => [named_tool tool_name]
           | None => []
           end)) const_matches ;;
  direct_matches <- re_findall Re.no_flags direct_add_pattern content ;;
  struct_matches <- re_findall Re.re_DOTALL go_struct_pattern content ;;
  Ret (tools1
       ++ map (fun g => named_tool (fld 0 g)) direct_matches
       ++ map (fun g => named_tool (fld 0 g)) struct_matches,
       [], []).

(** *** Name resolution *)

Definition quotes : text := raw "~'".

Definition _extract_name_value (content name_expr : text) : res (option text) :=
  let name_expr := strip name_expr in
  if (startswith name_expr (raw "~") || startswith name_expr (raw "'"))%bool then
    Ret (Some (strip_chars quotes name_expr))
  else
    match split1 "." name_expr with
    | Some (enum_name, value_name) =>
        let enum_pattern := raw "enum\s+" ++ enum_name ++ raw "\s*{([^}]+)}" in
        enum_match <- re_search Re.re_DOTALL enum_pattern content ;;
        let fallback := Ret (Some (lower value_name)) in
        match enum_match with
        | Some em =>
            enum_content <- group_text em 1 ;;
            let value_pattern := value_name ++ raw "\s*=\s*[~\']([^~\']+)[~\']" in
            value_match <- re_search Re.no_flags value_pattern enum_content ;;
            match value_match with
            | Some vm => Ret (Re.group vm 1)
            | None => fallback
            end
        | None => fallback
        end
    | None => Ret (Some name_expr)
    end.

(** Truthiness of an optional string: [None] and [''] are false. *)
Definition truthy (o : option text) : bool :=
  match o with
  | Some t => nonempty t
  | None => false
  end.

(** *** Parameters *)

Definition schema_pattern : text := raw "inputSchema:\s*([^,}}]+)".

Definition _extract_tool_parameters (tools_content name_expr : text)
    : res (list ToolParameter) :=
  let tool_obj_pattern :=
    raw "{[^{}]*name:\s*" ++ Re.escape name_expr ++ raw "[^{}]*}" in
  tool_match <- re_search Re.re_DOTALL tool_obj_pattern tools_content ;;
  match tool_match with
  | Some tm =>
      schema_match <- re_search Re.re_DOTALL schema_pattern (Re.m_whole tm) ;;
      Ret (match schema_match with
           | Some _ =>
               [mkParam (raw "input") (raw "object")
                        (Some (raw "Tool input parameters")) true]
           | None => []
           end)
  | None => Ret []
  end.

Definition properties_pattern : text := raw "properties:\s*{([^{}]+)}".
Definition param_pattern : text :=
  raw "(\w+):\s*{[^{}]*type:\s*[~\']([^~\']+)[~\'][^{}]*}".

Definition _extract_input_schema_parameters (tools_content tool_name : text)
    : res (list ToolParameter) :=
  let tool_pattern :=
    raw "{[^{}]*name:\s*[~\']?" ++ Re.escape tool_name ++ raw "[~\']?[^{}]*}" in
  tool_match <- re_search Re.re_DOTALL tool_pattern tools_content ;;
  match tool_match with
  | Some tm =>
      properties_match <- re_search Re.re_DOTALL properties_pattern (Re.m_whole tm) ;;
      match properties_match with
      | Some pm =>
          properties_content <- group_text pm 1 ;;
          param_matches <- re_findall Re.no_flags param_pattern properties_content ;;
          Ret (map (fun g => mkParam (fld 0 g) (fld 1 g) None true) param_matches)
      | None => Ret []
      end
  | None => Ret []
  end.

Definition args_pattern : text := raw "arguments:\s*\[(.*?)\]".
Definition arg_pattern : text :=
  raw "{{[^{{}}]*name:\s*[~\']([^~\']+)[~\'][^{{}}]*description:\s*[~\']([^~\']*)[~\'][^{{}}]*required:\s*(true|false)".

Definition _extract_prompt_arguments (prompts_content name_expr : text)
    : res (list ToolParameter) :=
  let prompt_obj_pattern :=
    raw "{[^{}]*name:\s*" ++ Re.escape name_expr ++ raw "[^{}]*}" in
  prompt_match <- re_search Re.re_DOTALL prompt_obj_pattern prompts_content ;;
  match prompt_match with
  | Some pm =>
      args_match <- re_search Re.re_DOTALL args_pattern (Re.m_whole pm) ;;
      match args_match with
      | Some am =>
          args_content <- group_text am 1 ;;
          arg_matches <- re_findall Re.re_DOTALL arg_pattern args_content ;;
          Ret (map (fun g =>
                 mkParam (fld 0 g) (raw "string") (text_or_none (fld 1 g))
                         (eqb (lower (fld 2 g)) (raw "true")))
               arg_matches)
      | None => Ret []
      end
  | None => Ret []
  end.

(** *** TypeScript and JavaScript sources: tools *)

Definition const_tools_pattern : text :=
  raw "server\.setRequestHandler\(ListToolsRequestSchema.*?const\s+tools:\s*Tool\[\]\s*=\s*\[(.*?)\].*?return\s*{\s*tools\s*}".
Definition ts_tool_pattern : text :=
  raw "{\s*name:\s*([^,\s]+)[^{}]*description:\s*[~\']([^~\']*)[~\']".
Definition tools_in_handler_pattern : text :=
  raw "server\.setRequestHandler\(ListToolsRequestSchema.*?return\s*{.*?tools:\s*\[".
Definition handler_tool_obj_pattern : text :=
  raw "{\s*name:\s*[~\']([^~\']+)[~\'].*?description:\s*([^}]+?)(?=\s*,\s*inputSchema|\s*})".
Definition const_ref_pattern : text :=
  raw "async\s*\(\s*\)\s*=>\s*\(\s*{\s*tools:\s*\[([A-Z_]+)\]".
Definition tools_array_pattern : text :=
  raw "const\s+TOOLS\s*:\s*Tool\[\]\s*=\s*\[(.*?)\]".
Definition tool_obj_pattern : text :=
  raw "{\s*name:\s*[~\']([^~\']+)[~\'].*?description:\s*[~\']([^~\']*)[~\']".
Definition export_tools_pattern : text :=
  raw "export\s+const\s+(\w+)\s*=\s*{\s*name:\s*[~\']([^~\']+)[~\'].*?description:\s*[~\']([^~\']*)[~\']".

(** The [while] loop that looks for the bracket closing the tools array:
    [s] is [content[i:]]; the result is the final [(i, bracket_count)]. *)
Fixpoint bracket_scan (s : text) (i bracket_count : nat) : nat * nat :=
  match s with
  | [] => (i, bracket_count)
  | c :: s' =>
      if Nat.ltb 0 bracket_count then
        if eqb_char c "[" then bracket_scan s' (S i) (S bracket_count)
        else if eqb_char c "]" then bracket_scan s' (S i) (bracket_count - 1)
        else bracket_scan s' (S i) bracket_count
      else (i, bracket_count)
  end.

(** [content[a:b]] *)
Definition slice (s : text) (a b : nat) : text := firstn (b - a) (skipn a s).

(** Pattern 1: a handler with [const tools: Tool[] = [...]]. *)
Definition tools_pattern1 (content : text) : res (list MCPTool) :=
  const_match <- re_search Re.re_DOTALL const_tools_pattern content ;;
  match const_match with
  | Some cm =>
      tools_array <- group_text cm 1 ;;
      tool_matches <- re_findall Re.re_DOTALL ts_tool_pattern tools_array ;;
      concat_mapM (fun g =>
          let name_expr := fld 0 g in
          let description := fld 1 g in
          tool_name <- _extract_name_value content name_expr ;;
          match tool_name with
          | Some n =>
              if nonempty n then
                parameters <- _extract_tool_parameters tools_array name_expr ;;
                Ret [mkTool n (strip_or_none description) parameters]
              else Ret []
          | None => Ret []
          end) tool_matches
  | None => Ret []
  end.

(** The clean-up of a description in pattern 2. *)
Definition clean_description (description : text) : res text :=
  if nonempty description then
    d1 <- re_sub (raw "\s*\+\s*") (raw " ") description ;;
    d2 <- re_sub (raw "[~\']") [] d1 ;;
    Ret (join (raw " ") (split_ws d2))
  else Ret description.

(** Pattern 2: tools listed in the handler's return statement. *)
Definition tools_pattern2 (content : text) : res (list MCPTool) :=
  handler_match <- re_search Re.re_DOTALL tools_in_handler_pattern content ;;
  match handler_match with
  | Some hm =>
      let handler_start := Re.m_end hm in
      let '(i, bracket_count) := bracket_scan (skipn handler_start content) handler_start 1 in
      if Nat.eqb bracket_count 0 then
        let tools_section := slice content handler_start (i - 1) in
        tool_defs <- re_findall Re.re_DOTALL handler_tool_obj_pattern tools_section ;;
        concat_mapM (fun g =>
            let name := fld 0 g in
            description <- clean_description (fld 1 g) ;;
            parameters <- _extract_input_schema_parameters tools_section name ;;
            Ret [mkTool (strip name) (strip_or_none description) parameters])
          tool_defs
      else Ret []
  | None => Ret []
  end.

(** Pattern 3: a single tool constant returned by an arrow function. *)
Definition tools_pattern3 (content : text) : res (list MCPTool) :=
  const_ref_match <- re_search Re.re_DOTALL const_ref_pattern content ;;
  match const_ref_match with
  | Some rm =>
      const_name <- group_text rm 1 ;;
      let const_def_pattern :=
        raw "const\s+" ++ const_name
        ++ raw ":\s*Tool\s*=\s*{\s*name:\s*[~\']([^~\']+)[~\'].*?description:\s*`([^`]*)`" in
      const_def_match <- re_search Re.re_DOTALL const_def_pattern content ;;
      match const_def_match with
      | Some dm =>
          name <- group_text dm 1 ;;
          d <- group_text dm 2 ;;
          let description := strip d in
          Ret [mkTool (strip name) (text_or_none description) []]
      | None => Ret []
      end
  | None => Ret []
  end.

(** Pattern 4: a [TOOLS] constant array. *)
Definition tools_pattern4 (content : text) : res (list MCPTool) :=
  tools_array_match <- re_search Re.re_DOTALL tools_array_pattern content ;;
  match tools_array_match with
  | Some am =>
      tools_content <- group_text am 1 ;;
      tool_objs <- re_findall Re.re_DOTALL tool_obj_pattern tools_content ;;
      Ret (map (fun g => mkTool (strip (fld 0 g)) (strip_or_none (fld 1 g)) []) tool_objs)
  | None => Ret []
  end.

(** Pattern 5: exported tool objects. *)
Definition tools_pattern5 (content : text) : res (list MCPTool) :=
  export_matches <- re_findall Re.re_DOTALL export_tools_pattern content ;;
  Ret (map (fun g => mkTool (strip (fld 1 g)) (strip_or_none (fld 2 g)) []) export_matches).

Definition _extract_mcp_tools (content : text) : res (list MCPTool) :=
  t1 <- tools_pattern1 content ;;
  t2 <- tools_pattern2 content ;;
  t3 <- tools_pattern3 content ;;
  t4 <- tools_pattern4 content ;;
  t5 <- tools_pattern5 content ;;
  Ret (t1 ++ t2 ++ t3 ++ t4 ++ t5).

(** *** TypeScript and JavaScript sources: prompts and resources *)

Definition prompts_pattern : text :=
  raw "server\.setRequestHandler\(ListPromptsRequestSchema.*?prompts:\s*\[(.*?)\]".
Definition prompt_pattern : text :=
  raw "{\s*name:\s*([^,\s]+)[^{}]*?description:\s*[~\']([^~\']*?)[~\']".

Definition _extract_mcp_prompts (content : text) : res (list MCPPrompt) :=
  prompts_match <- re_search Re.re_DOTALL prompts_pattern content ;;
  match prompts_match with
  | Some pm =>
      prompts_array <- group_text pm 1 ;;
      prompt_matches <- re_findall Re.re_DOTALL prompt_pattern prompts_array ;;
      concat_mapM (fun g =>
          let name_expr := fld 0 g in
          let description := fld 1 g in
          prompt_name <- _extract_name_value content name_expr ;;
          match prompt_name with
          | Some n =>
              if nonempty n then
                arguments <- _extract_prompt_arguments prompts_array name_expr ;;
                Ret [mkPrompt n (strip_or_none description) arguments]
              else Ret []
          | None => Ret []
          end) prompt_matches
  | None => Ret []
  end.

Definition resources_pattern : text :=
  raw "const\s+ALL_RESOURCES.*?Array\.from\(\{\s*length:\s*(\d+)".
Definition template_pattern : text := raw "resourceTemplates:\s*\[(.*?)\]".
Definition uri_pattern : text := raw "uriTemplate:\s*[~\']([^~\']+)[~\']".
Definition name_pattern : text := raw "name:\s*[~\']([^~\']+)[~\']".
Definition desc_pattern : text := raw "description:\s*[~\']([^~\']*)[~\']".

(** The entry made for index [i] of [range(count)]. *)
Definition static_resource (i : nat) : MCPResource :=
  mkResource (raw "Resource " ++ str_of_nat (i + 1))
             (Some (raw "Test resource " ++ str_of_nat (i + 1)))
             (Some (raw "test://static/resource/" ++ str_of_nat (i + 1)))
             (Some (if Nat.eqb (i mod 2) 0 then raw "text/plain"
                    else raw "application/octet-stream")).

(** The loop over [range(count)] is run to its end whatever the count: the
    time and the memory it takes are not part of the model. *)
Definition _extract_mcp_resources (content : text) : res (list MCPResource) :=
  resources_match <- re_search Re.no_flags resources_pattern content ;;
  r1 <- match resources_match with
        | Some rm =>
            digits <- group_text rm 1 ;;
            count <- py_int digits ;;
            Ret (map static_resource (seq 0 count))
        | None => Ret []
        end ;;
  template_match <- re_search Re.re_DOTALL template_pattern content ;;
  r2 <- match template_match with
        | Some tm =>
            templates_content <- group_text tm 1 ;;
            uri_match <- re_search Re.no_flags uri_pattern templates_content ;;
            name_match <- re_search Re.no_flags name_pattern templates_content ;;
            desc_match <- re_search Re.no_flags desc_pattern templates_content ;;
            match uri_match, name_match with
            | Some um, Some nm =>
                n <- group_text nm 1 ;;
                u <- group_text um 1 ;;
                Ret [mkResource n
                       (match desc_match with
                        | Some dm => Re.group dm 1
                        | None => None
                        end)
                       (Some u) None]
            | _, _ => Ret []
            end
        | None => Ret []
        end ;;
  Ret (r1 ++ r2).

Definition _parse_typescript_content (content : text) : res parsed :=
  ts <- _extract_mcp_tools content ;;
  ps <- _extract_mcp_prompts content ;;
  rs <- _extract_mcp_resources content ;;
  Ret (ts, ps, rs).

(** *** Rust, C# and Java sources *)

Definition rust_struct_pattern : text :=
  raw "#\[derive\([^)]*\)]\s*(?:pub\s+)?struct\s+(\w+)\s*{[^}]*name:\s*String[^}]*}".
Definition fn_pattern : text :=
  raw "#\[mcp::(tool|prompt)\]\s*(?:pub\s+)?(?:async\s+)?fn\s+(\w+)".

Definition _parse_rust_content (content : text) : res parsed :=
  struct_matches <- re_findall Re.re_DOTALL rust_struct_pattern content ;;
  tools1 <- concat_mapM (fun g =>
      let struct_name := fld 0 g in
      let impl_pattern := raw "impl.*" ++ struct_name ++ raw ".*{.*?fn\s+(\w+)" in
      impl_matches <- re_findall Re.re_DOTALL impl_pattern content ;;
      Ret (map (fun h =>
             mkTool (fld 0 h)
                    (Some (raw "Tool from " ++ struct_name ++ raw " struct")) [])
           impl_matches)) struct_matches ;;
  fn_matches <- re_findall Re.no_flags fn_pattern content ;;
  Ret (tools1
       ++ flat_map (fun g =>
            if eqb (fld 0 g) (raw "tool") then [named_tool (fld 1 g)] else [])
          fn_matches,
       flat_map (fun g =>
            if eqb (fld 0 g) (raw "tool") then []
            else if eqb (fld 0 g) (raw "prompt") then [mkPrompt (fld 1 g) None []]
            else [])
          fn_matches,
       []).

Definition cs_tool_pattern : text :=
  raw "\[Tool(?:\([^)]*\))?\]\s*(?:public\s+)?(?:async\s+)?(?:Task<?[^>]*>?\s+)?(\w+)\s*\(".
Definition cs_mcp_tool_pattern : text :=
  raw "\[McpTool(?:\([^)]*\))?\]\s*(?:public\s+)?(?:async\s+)?(?:Task<?[^>]*>?\s+)?(\w+)\s*\(".

Definition _parse_csharp_content (content : text) : res parsed :=
  tool_matches <- re_findall Re.no_flags cs_tool_pattern content ;;
  mcp_tool_matches <- re_findall Re.no_flags cs_mcp_tool_pattern content ;;
  Ret (map (fun g => named_tool (fld 0 g)) tool_matches
       ++ map (fun g => named_tool (fld 0 g)) mcp_tool_matches,
       [], []).

Definition java_tool_pattern : text :=
  raw "@Tool(?:\([^)]*\))?\s*(?:public\s+)?(?:static\s+)?[\w<>\[\]]+\s+(\w+)\s*\(".
Definition java_mcp_tool_pattern : text :=
  raw "@McpTool(?:\([^)]*\))?\s*(?:public\s+)?(?:static\s+)?[\w<>\[\]]+\s+(\w+)\s*\(".

Definition _parse_java_content (content : text) : res parsed :=
  tool_matches <- re_findall Re.no_flags java_tool_pattern content ;;
  mcp_tool_matches <- re_findall Re.no_flags java_mcp_tool_pattern content ;;
  Ret (map (fun g => named_tool (fld 0 g)) tool_matches
       ++ map (fun g => named_tool (fld 0 g)) mcp_tool_matches,
       [], []).

(** *** The README fallback miner *)

Definition tool_sections_pattern : text := raw "##?\s*Tools?\s*\n(.*?)(?=\n##|$)".

Definition tool_patterns : list text :=
  [ raw "[-*+]\s*`?([\w_]+)`?[:\s-]+([^\n]+)";    (* - tool_name: description *)
    raw "\d+\.\s*`?([\w_]+)`?[:\s-]+([^\n]+)";    (* 1. tool_name: description *)
    raw "`([\w_]+)`[:\s-]+([^\n]+)" ].            (* `tool_name`: description *)

Definition generic_names : list text :=
  [raw "tool"; raw "tools"; raw "function"; raw "method"].

(** [len(name) > 2 and not name.lower() in [...]] *)
Definition keep_candidate (name : text) : bool :=
  (Nat.ltb 2 (length name) && negb (existsb (eqb (lower name)) generic_names))%bool.

Definition mined_tools (matches : list (list text)) : list MCPTool :=
  flat_map (fun g =>
      let name := fld 0 g in
      let description := fld 1 g in
      if keep_candidate name then [mkTool name (Some (strip description)) []] else [])
    matches.

Definition _extract_tools_from_markdown (content : text) : res (list MCPTool) :=
  tool_sections <- re_findall Re.re_DOTALL_IGNORECASE tool_sections_pattern content ;;
  concat_mapM (fun sec =>
      let section := fld 0 sec in
      concat_mapM (fun pattern =>
          matches <- re_findall Re.no_flags pattern section ;;
          Ret (mined_tools matches))
        tool_patterns)
    tool_sections.

(** *** File and directory filters *)

Definition relevant_extensions : list text :=
  [ raw ".py"; raw ".ts"; raw ".js"; raw ".go"; raw ".rs"; raw ".cs"; raw ".csx";
    raw ".java"; raw ".tsx"; raw ".jsx"; raw ".mjs"; raw ".cjs" ].

Definition skip_patterns : list text :=
  [ raw "test"; raw "spec"; raw "__test__"; raw ".test."; raw ".spec.";
    raw "build"; raw "dist"; raw "node_modules"; raw ".git";
    raw "webpack"; raw "babel"; raw "eslint"; raw "prettier" ].

Definition _is_relevant_file (filename : text) : bool :=
  let filename_lower := lower filename in
  if negb (existsb (fun ext => endswith filename_lower ext) relevant_extensions)
  then false
  else if existsb (fun pattern => contains filename_lower pattern) skip_patterns
  then false
  else true.

Definition skip_dirs : list text :=
  [ raw "node_modules"; raw ".git"; raw "build"; raw "dist"; raw "__pycache__";
    raw ".pytest_cache"; raw "coverage"; raw ".nyc_output"; raw "target";
    raw "bin"; raw "obj"; raw "vendor"; raw ".vscode"; raw ".idea" ].

Definition _should_skip_directory (dirname : text) : bool :=
  existsb (eqb (lower dirname)) skip_dirs.

(** *** The confidence score

    Python computes on binary floating-point numbers.  The function is
    embedded on the rationals that its decimal constants denote, for the
    statements in exact arithmetic, and in [Binary64] below on binary64
    numbers, as Python runs it. *)

Definition nonempty_result (server : MCPServer) : bool :=
  match tools server, prompts server, resources server with
  | [], [], [] => false
  | _, _, _ => true
  end.

(** [sum(1 for tool in server.tools if tool.description)] *)
Definition tools_with_descriptions (server : MCPServer) : nat :=
  length (filter (fun tool => truthy (tool_description tool)) (tools server)).

Definition Qnat (n : nat) : Q := inject_Z (Z.of_nat n).

(** The value of [confidence] before the penalty for extraction errors. *)
Definition confidence_sum (server : MCPServer) (files_processed : nat) : Q :=
  let confidence := 0%Q in
  let confidence :=
    if nonempty_result server then (confidence + 0.5)%Q else confidence in
  let tool_count := length (tools server) in
  let confidence :=
    if Nat.ltb 0 tool_count
    then (confidence + Qmin 0.3 (Qnat tool_count * 0.1))%Q else confidence in
  let confidence :=
    if Nat.ltb 0 tool_count
    then let description_ratio :=
           (Qnat (tools_with_descriptions server) / Qnat tool_count)%Q in
         (confidence + description_ratio * 0.2)%Q
    else confidence in
  if Nat.ltb 1 files_processed
  then (confidence + Qmin 0.1 (Qnat files_processed * 0.02))%Q else confidence.

Definition _calculate_extraction_confidence (server : MCPServer) (files_processed : nat) : Q :=
  let confidence := confidence_sum server files_processed in
  let confidence :=
    if truthy (error_message server) then (confidence * 0.7)%Q else confidence in
  Qmin 1 confidence.

(** *** The confidence score on binary64 numbers

    The same function on IEEE 754 binary64 numbers with round-to-nearest, the
    arithmetic of Python's [float]; counts are taken to be below 2^53. *)

Module Binary64.
Import PrimFloat.
#[local] Set Warnings "-inexact-float".

(** [float(n)] *)
Definition float_of_nat (n : nat) : float := of_uint63 (Uint63.of_Z (Z.of_nat n)).

(** [min(a, b)]: the second argument only when it is smaller. *)
Definition fmin (a b : float) : float := if ltb b a then b else a.

Definition _calculate_extraction_confidence (server : MCPServer) (files_processed : nat)
    : float :=
  let confidence := 0.0%float in
  let confidence :=
    if nonempty_result server then (confidence + 0.5)%float else confidence in
  let tool_count := length (tools server) in
  let confidence :=
    if Nat.ltb 0 tool_count
    then (confidence + fmin 0.3 (float_of_nat tool_count * 0.1))%float
    else confidence in
  let tools_with_descriptions := tools_with_descriptions server in
  let confidence :=
    if Nat.ltb 0 tool_count
    then let description_ratio :=
           (float_of_nat tools_with_descriptions / float_of_nat tool_count)%float in
         (confidence + description_ratio * 0.2)%float
    else confidence in
  let confidence :=
    if Nat.ltb 1 files_processed
    then (confidence + fmin 0.1 (float_of_nat files_processed * 0.02))%float
    else confidence in
  let confidence :=
    if truthy (error_message server) then (confidence * 0.7)%float else confidence in
  fmin 1.0 confidence.

(** The rational that a binary64 number is; the score is always a number
    (between 0 and 1), so the other cases do not arise. *)
Definition exact_value (x : float) : Q :=
  match FloatOps.Prim2SF x with
  | SpecFloat.S754_finite s m e =>
      let magnitude :=
        match e with
        | Zneg k => Qmake (Zpos m) (Pos.shiftl 1 (Npos k))
        | _ => inject_Z (Zpos m * 2 ^ e)
        end in
      if s then Qopp magnitude else magnitude
  | _ => 0%Q
  end.

End Binary64.

(** [f"{x:.2f}"] for a non-negative number [x] of exact value [q]: the
    nearest number with two decimals, a tie going to the even one. *)
Definition format_2f (q : Q) : text :=
  let scaled := (q * 100)%Q in
  let fl := Qfloor scaled in
  let frac := (scaled - inject_Z fl)%Q in
  let n :=
    match Qcompare frac 0.5 with
    | Lt => fl
    | Gt => (fl + 1)%Z
    | Eq => if Z.even fl then fl else (fl + 1)%Z
    end in
  let cents := Z.to_nat (n mod 100) in
  str_of_nat (Z.to_nat (n / 100)) ++ raw "."
  ++ (if Nat.ltb cents 10 then raw "0" else []) ++ str_of_nat cents.

(** *** URLs and file names *)

Fixpoint take_until (stop : ascii -> bool) (s : text) : text * text :=
  match s with
  | [] => ([], [])
  | c :: s' =>
      if stop c then ([], s)
      else let (a, b) := take_until stop s' in (c :: a, b)
  end.

(** [urllib.parse.urlsplit(url)]: scheme, network location and path.

    The characters stripped from the left are the C0 controls and the
    space; tab, line feed and carriage return are removed everywhere.  A
    scheme is the text before the first colon when it starts with a letter
    and holds letters, digits, [+], [-] and [.] only.  A network location
    follows [//] and ends before the first [/], [?] or [#].  [urlsplit]
    raises [ValueError] for some network locations (an unmatched bracket,
    characters that normalise to a delimiter); [_parse_github_url] turns
    every exception into [None], which is also its result for any location
    other than [github.com], so this embedding does not tell these cases
    apart. *)
Definition c0_control_or_space (c : ascii) : bool := N.leb (code c) 32.

Definition unsafe_url_byte (c : ascii) : bool :=
  (N.eqb (code c) 9 || N.eqb (code c) 10 || N.eqb (code c) 13)%bool.

Definition scheme_char (c : ascii) : bool :=
  (is_lower c || is_upper c || is_digit c || Re.one_of "+-." c)%bool.

Definition urlsplit (url : text) : text * text * text :=
  let url := lstrip_by c0_control_or_space url in
  let url := filter (fun c => negb (unsafe_url_byte c)) url in
  let (before, rest) := take_until (fun c => eqb_char c ":") url in
  let (scheme, url) :=
    match before, rest with
    | first :: _, _ :: after =>
        if ((is_upper first || is_lower first) && forallb scheme_char before)%bool
        then (lower before, after)
        else ([], url)
    | _, _ => ([], url)
    end in
  let (netloc, url) :=
    if startswith url (raw "//") then take_until (Re.one_of "/?#") (skipn 2 url)
    else ([], url) in
  let url := fst (take_until (fun c => eqb_char c "#") url) in
  let url := fst (take_until (fun c => eqb_char c "?") url) in
  (scheme, netloc, url).

(** The schemes whose last path segment may carry parameters; the first
    is the empty scheme. *)
Definition uses_params : list text :=
  [ []; raw "ftp"; raw "hdl"; raw "prospero"; raw "http"; raw "imap"; raw "https";
    raw "shttp"; raw "rtsp"; raw "rtspu"; raw "sip"; raw "sips"; raw "mms"; raw "sftp";
    raw "tel" ].

(** The path that [_splitparams(url)] keeps: the parameters that follow the
    first semicolon of the last segment are cut off. *)
Definition _splitparams (url : text) : text :=
  match rfind_char "/" url 0 None with
  | Some i =>
      firstn i url ++ fst (take_until (fun c => eqb_char c ";") (skipn i url))
  | None => fst (take_until (fun c => eqb_char c ";") url)
  end.

(** [urllib.parse.urlparse(url)]: the pair [(netloc, path)]. *)
Definition urlparse (url : text) : text * text :=
  let '(scheme, netloc, url) := urlsplit url in
  let path :=
    if (existsb (eqb scheme) uses_params && existsb (fun c => eqb_char c ";") url)%bool
    then _splitparams url else url in
  (netloc, path).

(** [s.split('/')] *)
Fixpoint split_slash (s : text) (cur : text) : list text :=
  match s with
  | [] => [rev cur]
  | c :: s' =>
      if eqb_char c "/" then rev cur :: split_slash s' []
      else split_slash s' (c :: cur)
  end.

Definition _parse_github_url (url : text) : option (text * text * option text) :=
  let (netloc, path) := urlparse url in
  if negb (eqb netloc (raw "github.com")) then None
  else
    let path_parts := split_slash (strip_chars (raw "/") path) [] in
    if Nat.ltb (length path_parts) 2 then None
    else
      let owner := nth 0 path_parts [] in
      let repo_name := nth 1 path_parts [] in
      let subpath :=
        if (Nat.ltb 4 (length path_parts) && eqb (nth 2 path_parts []) (raw "tree"))%bool
        then Some (join (raw "/") (skipn 4 path_parts))
        else None in
      Some (owner, repo_name, subpath).

(** [Path(name).suffix] for a file name without directory part: the text from
    the last dot on, unless that dot comes first or last. *)
Definition suffix (name : text) : text :=
  match rfind_char "." name 0 None with
  | Some i =>
      if (Nat.ltb 0 i && Nat.ltb i (length name - 1))%bool then skipn i name else []
  | None => []
  end.

(** The parser chosen by the extension; other extensions yield nothing. *)
Definition parse_by_extension (file_extension content : text) : res parsed :=
  if eqb file_extension (raw ".py") then _parse_python_content content
  else if existsb (eqb file_extension) [raw ".js"; raw ".ts"] then
    _parse_typescript_content content
  else if eqb file_extension (raw ".go") then _parse_go_content content
  else if eqb file_extension (raw ".rs") then _parse_rust_content content
  else if existsb (eqb file_extension) [raw ".cs"; raw ".csx"] then
    _parse_csharp_content content
  else if eqb file_extension (raw ".java") then _parse_java_content content
  else Ret ([], [], []).

(** *** The world: GitHub, the clock and the console *)

Record stats : Type := mkStats {
  total_files_processed : nat;
  successful_extractions : nat;
  failed_extractions : nat;
  rate_limit_hits : nat
}.

(** A file of the repository as [_get_all_files_recursive] records it. *)
Record file_info : Type := mkFile {
  fi_name : text;
  fi_path : text;
  fi_content : text;
  fi_size : nat
}.

(** An entry of a directory listing; [c_decoded] is the outcome of
    [content.decoded_content.decode('utf-8')].  An entry of a listing comes
    without its content, and PyGithub fetches it by a further request when
    [decoded_content] is read: that request and its failure are part of
    this outcome, and no counter of the world records it. *)
Record content_file : Type := mkContent {
  c_name : text;
  c_path : text;
  c_type : text;
  c_decoded : res text;
  c_size : nat
}.

(** What [repo.get_contents(path)] answers. *)
Inductive response : Type :=
| Listing (contents : list content_file)
| Single (content : content_file)
| Fails (e : exn).

(** The observable state: the number of [repo.get_contents] calls made
    (these calls only: a read of [decoded_content] is not counted), the
    durations passed to [time.sleep] and the lines printed (both oldest
    first), the counters of the extractor, the list [files] that the
    running [_get_all_files_recursive] fills, and a ghost counter of the
    entries into [_extract_from_readme_fallback]. *)
Record world : Type := mkWorld {
  api_calls : nat;
  sleeps : list Q;
  stdout : list text;
  extraction_stats : stats;
  files : list file_info;
  fallback_runs : nat
}.

Definition M (A : Type) : Type := world -> res A * world.

Definition mret {A} (a : A) : M A := fun w => (Ret a, w).

Definition mbind {A B} (c : M A) (f : A -> M B) : M B :=
  fun w =>
    match c w with
    | (Ret a, w') => f a w'
    | (Raise e, w') => (Raise e, w')
    | (Stuck, w') => (Stuck, w')
    end.

Notation "x <~ c ;; k" := (mbind c (fun x => k))
  (at level 61, c at next level, right associativity).
Notation "c ;;; k" := (mbind c (fun _ => k))
  (at level 61, right associativity).

Definition lift {A} (r : res A) : M A := fun w => (r, w).

(** [try: c except Exception as e: h e] *)
Definition try_except {A} (c : M A) (h : exn -> M A) : M A :=
  fun w =>
    match c w with
    | (Raise e, w') => h e w'
    | other => other
    end.

Definition modify (f : world -> world) : M unit := fun w => (Ret tt, f w).

Definition sleep (seconds : Q) : M unit :=
  modify (fun w => mkWorld (api_calls w) (sleeps w ++ [seconds]) (stdout w)
                           (extraction_stats w) (files w) (fallback_runs w)).

Definition print (line : text) : M unit :=
  modify (fun w => mkWorld (api_calls w) (sleeps w) (stdout w ++ [line])
                           (extraction_stats w) (files w) (fallback_runs w)).

Definition update_stats (f : stats -> stats) : M unit :=
  modify (fun w => mkWorld (api_calls w) (sleeps w) (stdout w)
                           (f (extraction_stats w)) (files w) (fallback_runs w)).

Definition set_files (l : list file_info) : M unit :=
  modify (fun w => mkWorld (api_calls w) (sleeps w) (stdout w)
                           (extraction_stats w) l (fallback_runs w)).

Definition enter_fallback : M unit :=
  modify (fun w => mkWorld (api_calls w) (sleeps w) (stdout w)
                           (extraction_stats w) (files w) (S (fallback_runs w))).

Definition get_files : M (list file_info) := fun w => (Ret (files w), w).

Definition rate_limit_delay : Q := 1.

Section World.

(** [str(e)] *)
Variable str_exn : exn -> text.
(** The outcome of [self.github.get_repo(full_name)]. *)
Variable get_repo : text -> res unit.
(** The answer to the [n]-th call of [repo.get_contents], made for [path]. *)
Variable respond : nat -> text -> response.

Definition get_contents (path : text) : M (list content_file + content_file) :=
  fun w =>
    let w' := mkWorld (S (api_calls w)) (sleeps w) (stdout w)
                      (extraction_stats w) (files w) (fallback_runs w) in
    match respond (api_calls w) path with
    | Listing l => (Ret (inl l), w')
    | Single c => (Ret (inr c), w')
    | Fails e => (Raise e, w')
    end.

(** *** Repository traversal *)

Definition read_file (content : content_file) : M unit :=
  try_except
    (sleep (rate_limit_delay / 2) ;;;
     file_content <~ lift (c_decoded content) ;;
     fs <~ get_files ;;
     set_files (fs ++ [mkFile (c_name content) (c_path content) file_content
                              (c_size content)]) ;;;
     update_stats (fun s => mkStats (S (total_files_processed s))
                     (successful_extractions s) (failed_extractions s)
                     (rate_limit_hits s)))
    (fun e =>
     print (raw "Error reading file " ++ c_path content ++ raw ": " ++ str_exn e) ;;;
     update_stats (fun s => mkStats (total_files_processed s)
                     (successful_extractions s) (S (failed_extractions s))
                     (rate_limit_hits s))).

(** The loop over the entries of one listing; [descend] is the recursive
    call for a subdirectory. *)
Fixpoint visit_contents (descend : text -> M unit) (contents : list content_file)
    : M unit :=
  match contents with
  | [] => mret tt
  | content :: rest =>
      (if (eqb (c_type content) (raw "file") && _is_relevant_file (c_name content))%bool
       then read_file content
       else if (eqb (c_type content) (raw "dir")
                && negb (_should_skip_directory (c_name content)))%bool
       then descend (c_path content)
       else mret tt) ;;;
      visit_contents descend rest
  end.

(** [for retry in range(self.max_retries): try: attempt ... break] with its
    two handlers; [todo] counts the iterations that are left. *)
Fixpoint retry_loop (todo retry : nat) (path : text) (attempt : M unit) : M unit :=
  match todo with
  | O => mret tt
  | S todo' =>
      fun w =>
        match attempt w with
        | (Raise RateLimitExceededException, w') =>
            (update_stats (fun s => mkStats (total_files_processed s)
                             (successful_extractions s) (failed_extractions s)
                             (S (rate_limit_hits s))) ;;;
             if Nat.ltb retry (max_retries - 1) then
               let wait_time := 2 ^ retry * 60 in
               print (raw "Rate limit hit, waiting " ++ str_of_nat wait_time
                      ++ raw " seconds...") ;;;
               sleep (Qnat wait_time) ;;;
               retry_loop todo' (S retry) path attempt
             else
               print (raw "Max retries exceeded for path " ++ path)) w'
        | (Raise GithubException, w') =>
            (if Nat.ltb retry (max_retries - 1) then
               sleep (Qnat (2 ^ retry)) ;;;
               retry_loop todo' (S retry) path attempt
             else
               print (raw "Error accessing path " ++ path ++ raw ": "
                      ++ str_exn GithubException)) w'
        | other => other
        end
  end.

(** [_traverse_directory(path, current_depth)], indexed by the number
    [remaining = max_depth + 1 - current_depth] of levels it may still
    enter: none when [current_depth > max_depth]. *)
Fixpoint _traverse_directory (remaining : nat) (path : text) : M unit :=
  match remaining with
  | O => mret tt
  | S remaining' =>
      retry_loop max_retries 0 path
        (sleep rate_limit_delay ;;;
         contents <~ get_contents path ;;
         let contents :=
           match contents with
           | inl l => l
           | inr c => [c]
           end in
         visit_contents (_traverse_directory remaining') contents)
  end.

Definition max_depth : nat := 3.

Definition _get_all_files_recursive (base_path : option text) : M (list file_info) :=
  set_files [] ;;;
  let start_path := if truthy base_path then
                      match base_path with Some p => p | None => [] end
                    else [] in
  _traverse_directory (S max_depth) start_path ;;;
  get_files.

(** *** The README fallback *)

Definition readme_files : list text :=
  [raw "README.md"; raw "readme.md"; raw "README.rst"; raw "README.txt"; raw "README"].

(** One request for a README file; a listing has no [decoded_content]. *)
Definition fetch_text (file_path : text) : M text :=
  file_content <~ get_contents file_path ;;
  match file_content with
  | inr c => lift (c_decoded c)
  | inl _ => lift (Raise OtherException)
  end.

Fixpoint readme_loop (subpath : option text) (names : list text) : M (option text) :=
  match names with
  | [] => mret None
  | filename :: rest =>
      let file_path :=
        match subpath with
        | Some sp => if nonempty sp then sp ++ raw "/" ++ filename else filename
        | None => filename
        end in
      fun w =>
        match fetch_text file_path w with
        | (Ret t, w') => (Ret (Some t), w')
        | (Raise GithubException, w') => readme_loop subpath rest w'
        | (Raise RateLimitExceededException, w') => readme_loop subpath rest w'
        | (Raise e, w') => (Raise e, w')
        | (Stuck, w') => (Stuck, w')
        end
  end.

Definition _get_readme_content (subpath : option text) : M (option text) :=
  readme_loop subpath readme_files.

Definition with_tools (server : MCPServer) (ts : list MCPTool) : MCPServer :=
  mkServer (name server) (github_url server) (server_type server)
           ts (prompts server) (resources server)
           (error_message server) (extraction_log server).

Definition with_log (server : MCPServer) (log : option (list text)) : MCPServer :=
  mkServer (name server) (github_url server) (server_type server)
           (tools server) (prompts server) (resources server)
           (error_message server) log.

Definition with_error (server : MCPServer) (msg : option text) : MCPServer :=
  mkServer (name server) (github_url server) (server_type server)
           (tools server) (prompts server) (resources server)
           msg (extraction_log server).

(** [server.extraction_log or []] *)
Definition log_or_empty (server : MCPServer) : list text :=
  match extraction_log server with
  | Some l => l
  | None => []
  end.

Definition _extract_from_readme_fallback (server : MCPServer) (subpath : option text)
    : M MCPServer :=
  enter_fallback ;;;
  try_except
    (readme_content <~ _get_readme_content subpath ;;
     match readme_content with
     | Some content =>
         if nonempty content then
           ts <~ lift (_extract_tools_from_markdown content) ;;
           let server := with_tools server (tools server ++ ts) in
           mret (match ts with
                 | [] => server
                 | _ => with_log server
                          (Some (log_or_empty server
                                 ++ [raw "Extracted " ++ str_of_nat (length ts)
                                     ++ raw " tools from README fallback"]))
                 end)
         else mret server
     | None => mret server
     end)
    (fun e =>
     print (raw "Error in README fallback extraction: " ++ str_exn e) ;;;
     mret server).

(** *** Extraction from a GitHub repository *)

(** The state of the loop over the files: the server, the local list
    [extraction_log] and the counter [files_processed]. *)
Record accum : Type := mkAccum {
  acc_server : MCPServer;
  acc_log : list text;
  acc_files_processed : nat
}.

Definition extend (server : MCPServer) (p : parsed) : MCPServer :=
  let '(ts, ps, rs) := p in
  mkServer (name server) (github_url server) (server_type server)
           (tools server ++ ts) (prompts server ++ ps) (resources server ++ rs)
           (error_message server) (extraction_log server).

Definition found_any (p : parsed) : bool :=
  match p with
  | ([], [], []) => false
  | _ => true
  end.

Definition extracted_line (path : text) (p : parsed) : text :=
  let '(ts, ps, rs) := p in
  raw "Extracted from " ++ path ++ raw ": "
  ++ str_of_nat (length ts) ++ raw " tools, "
  ++ str_of_nat (length ps) ++ raw " prompts, "
  ++ str_of_nat (length rs) ++ raw " resources".

(** The body of [for file_info in all_files]. *)
Definition process_file (file_info : file_info) (a : accum) : res accum :=
  if _is_relevant_file (fi_name file_info) then
    let file_content := fi_content file_info in
    let file_extension := suffix (fi_name file_info) in
    match parse_by_extension file_extension file_content with
    | Ret p =>
        let log := if found_any p
                   then acc_log a ++ [extracted_line (fi_path file_info) p]
                   else acc_log a in
        Ret (mkAccum (extend (acc_server a) p) log (S (acc_files_processed a)))
    | Raise e =>
        Ret (mkAccum (acc_server a)
               (acc_log a ++ [raw "Error parsing " ++ fi_path file_info
                              ++ raw ": " ++ str_exn e])
               (acc_files_processed a))
    | Stuck => Stuck
    end
  else Ret a.

Fixpoint process_files (all_files : list file_info) (a : accum) : res accum :=
  match all_files with
  | [] => Ret a
  | file_info :: rest => a' <- process_file file_info a ;; process_files rest a'
  end.

(** The line is formatted from the binary64 score that Python holds. *)
Definition confidence_line (confidence_score : PrimFloat.float) : text :=
  raw "Extraction confidence score: "
  ++ format_2f (Binary64.exact_value confidence_score) ++ raw "/1.0".

(** After the loop.  The list assigned to [server.extraction_log] is the
    very list the confidence line is appended to afterwards, so the server
    sees that line too. *)
Definition finish_extraction (a : accum) (subpath : option text) : M MCPServer :=
  let server := acc_server a in
  let server := match acc_log a with
                | [] => server
                | _ => with_log server (Some (acc_log a))
                end in
  let confidence_score :=
    Binary64._calculate_extraction_confidence server (acc_files_processed a) in
  let extraction_log := acc_log a ++ [confidence_line confidence_score] in
  let server := match acc_log a with
                | [] => server
                | _ => with_log server (Some extraction_log)
                end in
  if negb (nonempty_result server)
  then _extract_from_readme_fallback server subpath
  else mret server.

Definition _extract_from_github_repo (server : MCPServer) : M MCPServer :=
  try_except
    (match _parse_github_url (github_url server) with
     | None => mret server
     | Some (owner, repo_name, subpath) =>
         lift (get_repo (owner ++ raw "/" ++ repo_name)) ;;;
         all_files <~ _get_all_files_recursive subpath ;;
         a <~ lift (process_files all_files (mkAccum server [] 0)) ;;
         finish_extraction a subpath
     end)
    (fun e =>
     mret (if truthy (error_message server) then server
           else with_error server
                  (Some (raw "Error extracting from GitHub: " ++ str_exn e)))).

End World.

(** *** Reference servers in the local checkout *)

(** [self.extraction_stats] as [__init__] sets it. *)
Definition initial_stats : stats := mkStats 0 0 0 0.

(** [get_extraction_stats]: a copy of the counters. *)
Definition get_extraction_stats : M stats := fun w => (Ret (extraction_stats w), w).

(** [server.server_type.value] *)
Definition value (t : ServerType) : text :=
  match t with
  | REFERENCE => raw "reference"
  | THIRD_PARTY => raw "third_party"
  end.

(** [pathlib] on a POSIX system keeps a path as a root and its components,
    dropping empty components and single dots.  The root is [//] for exactly
    two leading slashes and [/] for one or for more than two. *)
Definition path_root (s : text) : text :=
  if startswith s (raw "///") then raw "/"
  else if startswith s (raw "//") then raw "//"
  else if startswith s (raw "/") then raw "/"
  else [].

Definition path_parts (s : text) : list text :=
  filter (fun x => (nonempty x && negb (eqb x (raw ".")))%bool) (split_slash s []).

(** [str(path)] *)
Definition str_path (root : text) (parts : list text) : text :=
  match root, parts with
  | [], [] => raw "."
  | _, _ => root ++ join (raw "/") parts
  end.

(** [str(Path(a) / b)]: an absolute [b] replaces [a]. *)
Definition path_div (a b : text) : text :=
  if startswith b (raw "/") then str_path (path_root b) (path_parts b)
  else str_path (path_root a) (path_parts a ++ path_parts b).

Section LocalFiles.

(** [str(e)] *)
Variable str_exn : exn -> text.
(** The outcome of [self.github.get_repo(full_name)]. *)
Variable get_repo : text -> res unit.
(** The answer to the [n]-th call of [repo.get_contents], made for [path]. *)
Variable respond : nat -> text -> response.
(** [path.exists()] *)
Variable path_exists : text -> res bool.
(** [list(path.glob(pattern))], each path as its string. *)
Variable glob : text -> text -> res (list text).
(** [path.read_text(encoding='utf-8')] *)
Variable read_text : text -> res text.

Definition _parse_typescript_file (file_path : text) : res parsed :=
  match (content <- read_text file_path ;; _parse_typescript_content content) with
  | Raise _ => Ret ([], [], [])
  | other => other
  end.

(** [for ts_file in ts_files + js_files] *)
Fixpoint parse_reference_files (ts_files : list text) (server : MCPServer)
    : M MCPServer :=
  match ts_files with
  | [] => mret server
  | ts_file :: rest =>
      server <~ try_except
                  (p <~ lift (_parse_typescript_file ts_file) ;;
                   mret (extend server p))
                  (fun e =>
                   print (raw "Error parsing TypeScript file " ++ ts_file
                          ++ raw ": " ++ str_exn e) ;;;
                   mret server) ;;
      parse_reference_files rest server
  end.

Definition _extract_from_reference_server (server : MCPServer) : M MCPServer :=
  let server_name := name server in
  let server_path := path_div (raw "mcp_servers_repo/src") server_name in
  found <~ lift (path_exists server_path) ;;
  if negb found then
    mret (with_error server
            (Some (raw "Reference server directory not found: " ++ server_path)))
  else
    ts_files <~ lift (glob server_path (raw "**/*.ts")) ;;
    js_files <~ lift (glob server_path (raw "**/*.js")) ;;
    parse_reference_files (ts_files ++ js_files) server.

(** The handler sees the server as the failed branch left it.  Neither
    branch has changed it by then: an exception can leave
    [_extract_from_reference_server] only from [exists] or [glob], before
    the first assignment, and [_extract_from_github_repo] handles every
    exception itself. *)
Definition extract_tools_from_server (server : MCPServer) : M MCPServer :=
  try_except
    (if eqb (value (server_type server)) (raw "reference")
     then _extract_from_reference_server server
     else _extract_from_github_repo str_exn get_repo respond server)
    (fun e =>
     mret (if truthy (error_message server) then server
           else with_error server
                  (Some (raw "Error extracting tools: " ++ str_exn e)))).

End LocalFiles.

End EnhancedToolExtractor.

(** ** The registry scraper ([scraper.py])

    The caller of the extractor: class [MCPRegistryScraper]. *)

Module MCPRegistryScraper.
Import PyStr EnhancedToolExtractor.

(** The fields of [RepositoryStats] that the scraper reads. *)
Record RepositoryStats : Type := mkRepoStats {
  language : option text;
  topics : list text
}.

(** A server as the scraper handles it: the fields the extractor works on
    ([core]) and the further fields of the same [MCPServer] object that the
    scraper reads or writes. *)
Record ServerEntry : Type := mkEntry {
  core : MCPServer;
  description : option text;
  is_accessible : bool;
  repository_stats : option RepositoryStats;
  categories : list text;
  tags : list text
}.

Record ScrapingResults : Type := mkResults {
  total_servers : nat;
  successful_scrapes : nat;
  failed_scrapes : nat;
  reference_servers : nat;
  third_party_servers : nat;
  servers : list ServerEntry;
  errors : list text
}.

(** [category_keywords], in the order of the dictionary. *)
Definition category_keywords : list (text * list text) :=
  [ (raw "database", [raw "database"; raw "db"; raw "sql"; raw "postgres"; raw "mysql";
                      raw "mongodb"; raw "sqlite"]);
    (raw "web", [raw "web"; raw "http"; raw "api"; raw "fetch"; raw "browser";
                 raw "scraping"]);
    (raw "filesystem", [raw "file"; raw "filesystem"; raw "directory"; raw "path"]);
    (raw "git", [raw "git"; raw "github"; raw "version control"; raw "repository"]);
    (raw "ai", [raw "ai"; raw "llm"; raw "openai"; raw "anthropic"; raw "model";
                raw "chat"]);
    (raw "data", [raw "data"; raw "csv"; raw "json"; raw "xml"; raw "excel"]);
    (raw "cloud", [raw "aws"; raw "azure"; raw "gcp"; raw "cloud"; raw "s3";
                   raw "lambda"]);
    (raw "development", [raw "dev"; raw "development"; raw "build"; raw "test";
                         raw "ci/cd"]);
    (raw "communication", [raw "slack"; raw "discord"; raw "email"; raw "notification"]);
    (raw "productivity", [raw "calendar"; raw "todo"; raw "task"; raw "note"]);
    (raw "time", [raw "time"; raw "date"; raw "timezone"; raw "schedule"]);
    (raw "memory", [raw "memory"; raw "cache"; raw "storage"; raw "knowledge"]) ].

Definition text_eq_dec : forall a b : text, {a = b} + {a <> b} :=
  list_eq_dec ascii_dec.

(** [list(s)] for a set [s] built by adding the elements of [l] one by one:
    every element once.  Python fixes no order; the order here is kept from
    [l], and no statement below depends on it. *)
Definition list_of_set (l : list text) : list text := nodup text_eq_dec l.

(** [f"{server.name} {server.description or ''}".lower()] *)
Definition category_text (server : ServerEntry) : text :=
  lower (name (core server) ++ raw " "
         ++ match description server with Some d => d | None => [] end).

Definition _categorize_server (server : ServerEntry) : ServerEntry :=
  let text := category_text server in
  let categories :=
    flat_map (fun '(category, keywords) =>
                if existsb (fun keyword => contains text keyword) keywords
                then [category] else [])
             category_keywords in
  let tags :=
    match repository_stats server with
    | Some stats =>
        match topics stats with
        | [] => []
        | _ => topics stats
        end
    | None => []
    end in
  let tags :=
    match repository_stats server with
    | Some stats =>
        if truthy (language stats)
        then tags ++ [lower (match language stats with Some l => l | None => [] end)]
        else tags
    | None => tags
    end in
  mkEntry (core server) (description server) (is_accessible server)
          (repository_stats server) (list_of_set categories) (list_of_set tags).

(** [servers[:n]] *)
Definition slice_to {A} (l : list A) (n : Z) : list A :=
  if (n <? 0)%Z then firstn (length l - Z.to_nat (- n)) l else firstn (Z.to_nat n) l.

(** The state of the loop over the servers: the two counters, [errors], and
    the servers handled so far as the loop left them. *)
Record progress : Type := mkProgress {
  successful : nat;
  failed : nat;
  errs : list text;
  handled : list ServerEntry
}.

Definition with_core (server : ServerEntry) (c : MCPServer) : ServerEntry :=
  mkEntry c (description server) (is_accessible server)
          (repository_stats server) (categories server) (tags server).

Section Scraper.

Variable str_exn : exn -> text.
Variable get_repo : text -> res unit.
Variable respond : nat -> text -> response.
Variable path_exists : text -> res bool.
Variable glob : text -> text -> res (list text).
Variable read_text : text -> res text.
(** [self.parser.parse_registry()] *)
Variable parse_registry : res (list ServerEntry).
(** [self.crawler.enhance_server(server)] for the server at position [i] of
    the list.  [GitHubCrawler.enhance_server] handles every exception in
    its body and returns the object it was given on every path. *)
Variable enhance_server : nat -> ServerEntry -> ServerEntry.

(** [self.extractor.extract_tools_from_server(server)] *)
Definition extract (server : ServerEntry) : M ServerEntry :=
  c <~ extract_tools_from_server str_exn get_repo respond path_exists glob read_text
         (core server) ;;
  mret (with_core server c).

(** The body of [for server in tqdm(servers, ...)].  In the handler,
    [server] is the object as the calls before the failing one left it. *)
Definition scrape_one (enhance_metadata extract_tools : bool) (i : nat)
    (server : ServerEntry) (p : progress) : M progress :=
  let server := if enhance_metadata then enhance_server i server else server in
  try_except
    (server <~ (if extract_tools then extract server else mret server) ;;
     let server := _categorize_server server in
     if (is_accessible server && negb (truthy (error_message (core server))))%bool
     then mret (mkProgress (S (successful p)) (failed p) (errs p)
                           (handled p ++ [server]))
     else
       mret (mkProgress (successful p) (S (failed p))
               (if truthy (error_message (core server))
                then errs p ++ [name (core server) ++ raw ": "
                                ++ match error_message (core server) with
                                   | Some m => m
                                   | None => raw "None"
                                   end]
                else errs p)
               (handled p ++ [server])))
    (fun e =>
     let error_msg := name (core server) ++ raw ": " ++ str_exn e in
     mret (mkProgress (successful p) (S (failed p)) (errs p ++ [error_msg])
             (handled p
              ++ [mkEntry (with_error (core server) (Some (str_exn e)))
                          (description server) false (repository_stats server)
                          (categories server) (tags server)]))).

Fixpoint scrape_loop (enhance_metadata extract_tools : bool) (i : nat)
    (servers : list ServerEntry) (p : progress) : M progress :=
  match servers with
  | [] => mret p
  | server :: rest =>
      p <~ scrape_one enhance_metadata extract_tools i server p ;;
      scrape_loop enhance_metadata extract_tools (S i) rest p
  end.

Definition is_type (t : text) (s : ServerEntry) : bool :=
  eqb (value (server_type (core s))) t.

Definition scrape_all (enhance_metadata extract_tools : bool) (max_servers : option Z)
    : M ScrapingResults :=
  print (raw "🔍 Parsing MCP server registry...") ;;;
  servers <~ lift parse_registry ;;
  let servers :=
    match max_servers with
    | Some n => if (n =? 0)%Z then servers else slice_to servers n
    | None => servers
    end in
  print (raw "📋 Found " ++ str_of_nat (length servers) ++ raw " servers in registry") ;;;
  p <~ scrape_loop enhance_metadata extract_tools 0 servers (mkProgress 0 0 [] []) ;;
  let servers := handled p in
  let reference_servers := length (filter (is_type (raw "reference")) servers) in
  let third_party_servers := length (filter (is_type (raw "third_party")) servers) in
  let results :=
    mkResults (length servers) (successful p) (failed p)
              reference_servers third_party_servers servers (errs p) in
  print (raw "✅ Scraping completed: " ++ str_of_nat (successful p)
         ++ raw " successful, " ++ str_of_nat (failed p) ++ raw " failed") ;;;
  mret results.

End Scraper.

End MCPRegistryScraper.

(** ** Auxiliary definitions for the proofs *)

(** Static checks on a compiled pattern. *)
Module ReCheck.
Import PyStr Re.

(** All 256 characters. *)
Definition all_ascii : list ascii := map ascii_of_nat (seq 0 256).

(** Every character that the one-character patterns of [r] accept satisfies [f]. *)
Fixpoint leaves_ok (icase : bool) (f : ascii -> bool) (r : regex) : bool :=
  match r with
  | Chr _ | AnyChar | NotNewline | Cls _ _ =>
      forallb (fun c => implb (char_test icase r c) (f c)) all_ascii
  | Seq a b | Alt a b => (leaves_ok icase f a && leaves_ok icase f b)%bool
  | Star _ a | Group _ a => leaves_ok icase f a
  | Eps | Look _ | Bol | Eol => true
  end.

(** A lower bound on the length of a match. *)
Fixpoint min_len (r : regex) : nat :=
  match r with
  | Chr _ | AnyChar | NotNewline | Cls _ _ => 1
  | Seq a b => min_len a + min_len b
  | Alt a b => Nat.min (min_len a) (min_len b)
  | Group _ a => min_len a
  | Eps | Star _ _ | Look _ | Bol | Eol => 0
  end.

(** Every group numbered [k] captures a non-empty text of [f]-characters. *)
Fixpoint groups_ok (icase : bool) (k : nat) (f : ascii -> bool) (r : regex) : bool :=
  match r with
  | Seq a b | Alt a b => (groups_ok icase k f a && groups_ok icase k f b)%bool
  | Star _ a | Look a => groups_ok icase k f a
  | Group n a =>
      (groups_ok icase k f a
       && (negb (Nat.eqb n k) || (leaves_ok icase f a && Nat.leb 1 (min_len a))))%bool
  | _ => true
  end.

(** Group [k] takes part in every match. *)
Fixpoint defines (k : nat) (r : regex) : bool :=
  match r with
  | Seq a b => (defines k a || defines k b)%bool
  | Alt a b => (defines k a && defines k b)%bool
  | Group n a => (Nat.eqb n k || defines k a)%bool
  | Look a => defines k a
  | _ => false
  end.

Definition check (p : pattern) (k : nat) (f : ascii -> bool) : bool :=
  (groups_ok (p_icase p) k f (p_ast p) && defines k (p_ast p)
   && Nat.leb 1 k && Nat.leb k (p_groups p))%bool.

(** A non-empty text of [f]-characters. *)
Definition good (f : ascii -> bool) (t : text) : Prop :=
  t <> [] /\ forallb f t = true.

Definition caps_ok (k : nat) (f : ascii -> bool) (c : caps) : Prop :=
  forall t, cap_lookup k c = Some t -> good f t.

Definition bound (k : nat) (c : caps) : Prop := cap_lookup k c <> None.

End ReCheck.


Module ScoreModel.
Import EnhancedToolExtractor.
Local Open Scope Q_scope.

(** The score as a function of the five quantities it depends on. *)
Definition sum_of (nonempty : bool) (tool_count described files_processed : nat) : Q :=
  let confidence := 0 in
  let confidence := if nonempty then confidence + 0.5 else confidence in
  let confidence :=
    if Nat.ltb 0 tool_count
    then confidence + Qmin 0.3 (Qnat tool_count * 0.1) else confidence in
  let confidence :=
    if Nat.ltb 0 tool_count
    then confidence + Qnat described / Qnat tool_count * 0.2 else confidence in
  if Nat.ltb 1 files_processed
  then confidence + Qmin 0.1 (Qnat files_processed * 0.02) else confidence.

Definition score_of (nonempty : bool) (tool_count described files_processed : nat)
    (error : bool) : Q :=
  Qmin 1 (if error then sum_of nonempty tool_count described files_processed * 0.7
          else sum_of nonempty tool_count described files_processed).

(** Three tools that carry a description. *)
Definition described_tool (n : string) : MCPTool :=
  mkTool (raw n) (Some (raw "does something")) [].

Definition three_tools : list MCPTool :=
  [described_tool "alpha"; described_tool "beta"; described_tool "gamma"].

Definition server_with (ts : list MCPTool) (err : option text) : MCPServer :=
  mkServer (raw "demo") (raw "https://github.com/acme/demo") THIRD_PARTY
           ts [] [] err None.

End ScoreModel.

(** Predicates on extracted names. *)
Module NameModel.
Import PyStr Re ReCheck EnhancedToolExtractor.

(** [compile] succeeds and the result passes [check]. *)
Definition pattern_ok (fl : flags) (pat : text) (k : nat) (f : ascii -> bool) : bool :=
  match compile fl pat with
  | Compiled p => check p k f
  | _ => false
  end.

Definition not_quote (c : ascii) : bool := negb (mem_char quotes c).

(** A non-empty text of word characters. *)
Definition identifier (n : text) : Prop := good is_word n.

(** A non-empty text without quotation marks. *)
Definition literal_text (n : text) : Prop := good not_quote n.

End NameModel.


(** Sample inputs. *)
Module Samples.
Import EnhancedToolExtractor ScoreModel.

(** A TypeScript handler whose tool name is a call expression. *)
Definition ts_call_name : text := raw
"server.setRequestHandler(ListToolsRequestSchema, async () => {
  const tools: Tool[] = [
    { name: String(ToolName.ECHO), description: ~Echo~ },
  ];
  return { tools };
});".

(** An enum in which the name of one member ends with the name of a later one. *)
Definition ts_overlapping_enum : text :=
  raw "enum ToolName { GET_ECHO = ~get_echo~, ECHO = ~echo~ }".

(** A Python file without any tool declaration. *)
Definition plain_python_file : file_info :=
  mkFile (raw "server.py") (raw "src/server.py") (raw "x = 1") 5.

Definition empty_server : MCPServer := server_with [] None.

(** A Python file that registers a tool under a blank name. *)
Definition py_blank_name : text := raw "server.add_tool(~ ~, handler)".

(** A Python file with one decorated tool. *)
Definition py_decorated : text := raw
"@mcp.tool()
def hello(x):
    return x".

(** The same server registered with a URL outside GitHub. *)
Definition gitlab_server : MCPServer :=
  mkServer (raw "demo") (raw "https://gitlab.com/acme/demo") THIRD_PARTY
           [] [] [] None None.

(** A world for runs: [str(e)] per exception class, a repository lookup that
    succeeds and one that fails, and a repository whose root lists the
    directory [lib] and the file [main.py]; every request for [lib] is
    rate-limited and every other path is missing. *)
Definition str_exn_demo (e : exn) : text :=
  match e with
  | ReError => raw "re.error"
  | TypeError => raw "TypeError"
  | RateLimitExceededException => raw "403 rate limit exceeded"
  | GithubException => raw "404 not found"
  | OtherException => raw "error"
  end.

Definition get_repo_ok (full_name : text) : res unit := Ret tt.

Definition get_repo_missing (full_name : text) : res unit := Raise GithubException.

Definition respond_demo (n : nat) (path : text) : response :=
  if PyStr.eqb path [] then
    Listing [mkContent (raw "lib") (raw "lib") (raw "dir") (Raise OtherException) 0;
             mkContent (raw "main.py") (raw "main.py") (raw "file")
                       (Ret (raw "x = 1")) 5]
  else if PyStr.eqb path (raw "lib") then Fails RateLimitExceededException
  else Fails GithubException.

Definition world0 : world := mkWorld 0 [] [] (mkStats 0 0 0 0) [] 0.

End Samples.

(** * Properties *)

(** ** Facts about Python strings *)

Module PyStrFacts.
Import PyStr.

Lemma eqb_char_eq (a b : ascii) : eqb_char a b = true <-> a = b.
Proof. unfold eqb_char. apply Ascii.eqb_eq. Qed.

Lemma eqb_eq (a b : text) : eqb a b = true <-> a = b.
Proof.
  revert b. induction a as [|x a IH]; intros [|y b]; simpl; split;
    try discriminate; try reflexivity.
  - rewrite andb_true_iff, eqb_char_eq, IH. intros [-> ->]. reflexivity.
  - intros H. injection H as -> ->. rewrite andb_true_iff, eqb_char_eq, IH. auto.
Qed.

Lemma startswith_spec (s p : text) :
  startswith s p = true <-> exists r, s = p ++ r.
Proof.
  revert s. induction p as [|y p IH]; intros s; simpl.
  - split; [intros _; exists s; reflexivity | reflexivity].
  - destruct s as [|x s].
    + split; [discriminate | intros [r H]; discriminate].
    + rewrite andb_true_iff, eqb_char_eq, IH. split.
      * intros [-> [r ->]]. exists r. reflexivity.
      * intros [r H]. injection H as -> ->. split; [reflexivity | exists r; reflexivity].
Qed.

Lemma endswith_spec (s p : text) :
  endswith s p = true <-> exists pre, s = pre ++ p.
Proof.
  unfold endswith. rewrite startswith_spec. split.
  - intros [r H]. exists (rev r).
    rewrite <- (rev_involutive s), H, rev_app_distr, rev_involutive. reflexivity.
  - intros [pre ->]. exists (rev pre). apply rev_app_distr.
Qed.

Lemma contains_spec (s p : text) :
  contains s p = true <-> exists a b, s = a ++ p ++ b.
Proof.
  induction s as [|x s IH].
  - simpl. rewrite orb_false_r, startswith_spec. split.
    + intros [r H]. exists [], r. exact H.
    + intros [a [b H]]. destruct a; [exists b; exact H | discriminate].
  - cbn [contains]. rewrite orb_true_iff, startswith_spec, IH. split.
    + intros [[r H] | [a [b H]]].
      * exists [], r. exact H.
      * exists (x :: a), b. rewrite H. reflexivity.
    + intros [[|y a] [b H]].
      * left. exists b. exact H.
      * right. injection H as -> ->. exists a, b. reflexivity.
Qed.

End PyStrFacts.

(** ** Soundness of the matcher *)

Module ReFacts.
Import PyStr Re ReCheck.

Lemma all_ascii_complete (c : ascii) : In c all_ascii.
Proof.
  unfold all_ascii. rewrite <- (ascii_nat_embedding c).
  apply in_map. apply in_seq. pose proof (nat_ascii_bounded c). lia.
Qed.

Section Sound.
Variable icase : bool.
Variable total : nat.
Variable k : nat.
Variable f : ascii -> bool.

Lemma leaf_ok (r : regex) (x : ascii) :
  forallb (fun c => implb (char_test icase r c) (f c)) all_ascii = true ->
  char_test icase r x = true -> f x = true.
Proof.
  intros H T. rewrite forallb_forall in H. specialize (H x (all_ascii_complete x)).
  rewrite T in H. exact H.
Qed.

(** What a successful run of [exec r] guarantees about the text it
    consumed and the groups it bound. *)
Definition run_ok (r : regex) : Prop :=
  forall s c k0 res,
    groups_ok icase k f r = true -> caps_ok k f c ->
    exec icase total r s c k0 = Some res ->
    exists pre s' c',
      s = pre ++ s'
      /\ (leaves_ok icase f r = true -> forallb f pre = true)
      /\ min_len r <= length pre
      /\ caps_ok k f c'
      /\ (bound k c \/ defines k r = true -> bound k c')
      /\ k0 s' c' = Some res.

Lemma orelse_inv {A} (x y : option A) (r : A) :
  orelse x y = Some r -> x = Some r \/ (x = None /\ y = Some r).
Proof. destruct x; simpl; intros H; [left; exact H | right; split; [reflexivity | exact H]]. Qed.

Ltac split6 := split; [|split; [|split; [|split; [|split]]]].
Ltac split5 := split; [|split; [|split; [|split]]].

Lemma run_ok_leaf (r : regex) :
  (forall s c k0, exec icase total r s c k0 =
     match s with
     | x :: s' => if char_test icase r x then k0 s' c else None
     | [] => None
     end) ->
  leaves_ok icase f r = forallb (fun c => implb (char_test icase r c) (f c)) all_ascii ->
  min_len r = 1 -> defines k r = false ->
  run_ok r.
Proof.
  intros E L M D s c k0 res _ Hc H. rewrite E in H.
  destruct s as [|x s]; [discriminate|].
  destruct (char_test icase r x) eqn:T; [|discriminate].
  exists [x], s, c. split6.
  - reflexivity.
  - intros Hl. rewrite L in Hl. simpl. rewrite (leaf_ok r x Hl T). reflexivity.
  - rewrite M. simpl. lia.
  - exact Hc.
  - intros [B|B]; [exact B | rewrite D in B; discriminate].
  - exact H.
Qed.

Lemma run_ok_empty (r : regex) :
  (forall s c k0 res, exec icase total r s c k0 = Some res -> k0 s c = Some res) ->
  min_len r = 0 -> defines k r = false ->
  run_ok r.
Proof.
  intros E M D s c k0 res _ Hc H. apply E in H.
  exists [], s, c. split6.
  - reflexivity.
  - reflexivity.
  - rewrite M. simpl. lia.
  - exact Hc.
  - intros [B|B]; [exact B | rewrite D in B; discriminate].
  - exact H.
Qed.

Lemma star_ok (g : bool) (a : regex) :
  run_ok a ->
  forall fuel s c k0 res,
    groups_ok icase k f a = true -> caps_ok k f c ->
    star_loop (exec icase total a) g fuel s c k0 = Some res ->
    exists pre s' c',
      s = pre ++ s'
      /\ (leaves_ok icase f a = true -> forallb f pre = true)
      /\ caps_ok k f c'
      /\ (bound k c -> bound k c')
      /\ k0 s' c' = Some res.
Proof.
  intros IH fuel. induction fuel as [|fuel IHf]; intros s c k0 res G Hc H.
  - simpl in H. exists [], s, c. split5; auto.
  - cbn [star_loop] in H.
    assert (Stop : k0 s c = Some res ->
                   exists pre s' c', s = pre ++ s'
                     /\ (leaves_ok icase f a = true -> forallb f pre = true)
                     /\ caps_ok k f c' /\ (bound k c -> bound k c')
                     /\ k0 s' c' = Some res).
    { intros E. exists [], s, c. split5; auto. }
    assert (Again : exec icase total a s c
                      (fun s' c' => if Nat.ltb (length s') (length s)
                                    then star_loop (exec icase total a) g fuel s' c' k0
                                    else None) = Some res ->
                    exists pre s' c', s = pre ++ s'
                      /\ (leaves_ok icase f a = true -> forallb f pre = true)
                      /\ caps_ok k f c' /\ (bound k c -> bound k c')
                      /\ k0 s' c' = Some res).
    { intros E. destruct (IH _ _ _ _ G Hc E) as [p1 [s1 [c1 [Es [L1 [_ [C1 [B1 K1]]]]]]]].
      destruct (Nat.ltb (length s1) (length s)); [|discriminate].
      destruct (IHf _ _ _ _ G C1 K1) as [p2 [s2 [c2 [Es2 [L2 [C2 [B2 K2]]]]]]].
      exists (p1 ++ p2), s2, c2. split5.
      - rewrite Es, Es2, app_assoc. reflexivity.
      - intros Hl. rewrite forallb_app, (L1 Hl), (L2 Hl). reflexivity.
      - exact C2.
      - intros B. apply B2, B1. left. exact B.
      - exact K2. }
    destruct g; apply orelse_inv in H; destruct H as [H|[_ H]]; auto.
Qed.

Lemma firstn_prefix (pre s' : text) :
  firstn (length (pre ++ s') - length s') (pre ++ s') = pre.
Proof.
  rewrite length_app, Nat.add_sub. rewrite firstn_app, Nat.sub_diag, firstn_all.
  simpl. apply app_nil_r.
Qed.

Theorem exec_sound (r : regex) : run_ok r.
Proof.
  induction r as [ |x| | |neg items|a IHa b IHb|a IHa b IHb|g a IHa|n a IHa|a IHa| | ].
  - apply run_ok_empty; auto.
  - apply run_ok_leaf; auto.
  - apply run_ok_leaf; auto.
  - apply run_ok_leaf; auto.
  - apply run_ok_leaf; auto.
  - (* Seq *)
    intros s c k0 res G Hc H. cbn [groups_ok] in G. apply andb_true_iff in G.
    destruct G as [Ga Gb]. cbn [exec] in H.
    destruct (IHa _ _ _ _ Ga Hc H) as [p1 [s1 [c1 [E1 [L1 [M1 [C1 [B1 K1]]]]]]]].
    destruct (IHb _ _ _ _ Gb C1 K1) as [p2 [s2 [c2 [E2 [L2 [M2 [C2 [B2 K2]]]]]]]].
    exists (p1 ++ p2), s2, c2. split6.
    + rewrite E1, E2, app_assoc. reflexivity.
    + cbn [leaves_ok]. rewrite andb_true_iff. intros [La Lb].
      rewrite forallb_app, (L1 La), (L2 Lb). reflexivity.
    + cbn [min_len]. rewrite length_app. lia.
    + exact C2.
    + cbn [defines]. rewrite orb_true_iff. intros [B|[B|B]]; apply B2; auto.
    + exact K2.
  - (* Alt *)
    intros s c k0 res G Hc H. cbn [groups_ok] in G. apply andb_true_iff in G.
    destruct G as [Ga Gb]. cbn [exec] in H.
    apply orelse_inv in H. destruct H as [E|[_ H]].
    + destruct (IHa _ _ _ _ Ga Hc E) as [p1 [s1 [c1 [E1 [L1 [M1 [C1 [B1 K1]]]]]]]].
      exists p1, s1, c1. split6; auto.
      * cbn [leaves_ok]. rewrite andb_true_iff. intros [La _]. auto.
      * cbn [min_len]. lia.
      * cbn [defines]. rewrite andb_true_iff. intros [B|[B _]]; apply B1; auto.
    + destruct (IHb _ _ _ _ Gb Hc H) as [p1 [s1 [c1 [E1 [L1 [M1 [C1 [B1 K1]]]]]]]].
      exists p1, s1, c1. split6; auto.
      * cbn [leaves_ok]. rewrite andb_true_iff. intros [_ Lb]. auto.
      * cbn [min_len]. lia.
      * cbn [defines]. rewrite andb_true_iff. intros [B|[_ B]]; apply B1; auto.
  - (* Star *)
    intros s c k0 res G Hc H. cbn [groups_ok] in G. cbn [exec] in H.
    destruct (star_ok g a IHa _ _ _ _ _ G Hc H) as [p1 [s1 [c1 [E1 [L1 [C1 [B1 K1]]]]]]].
    exists p1, s1, c1. split6; auto.
    + cbn [min_len]. lia.
    + cbn [defines]. intros [B|B]; [auto | discriminate].
  - (* Group *)
    intros s c k0 res G Hc H. cbn [groups_ok] in G. apply andb_true_iff in G.
    destruct G as [Ga Gn]. cbn [exec] in H.
    destruct (IHa _ _ _ _ Ga Hc H) as [p1 [s1 [c1 [E1 [L1 [M1 [C1 [B1 K1]]]]]]]].
    rewrite E1, firstn_prefix in K1.
    exists p1, s1, ((n, p1) :: c1). split6; auto.
    + intros t Ht. cbn [cap_lookup] in Ht. destruct (Nat.eqb n k) eqn:En.
      * injection Ht as <-. cbn [negb orb] in Gn. apply andb_true_iff in Gn.
        destruct Gn as [Gl Gm]. apply Nat.leb_le in Gm. split.
        -- intros ->. simpl in M1. lia.
        -- auto.
      * apply C1. exact Ht.
    + cbn [defines]. unfold bound. cbn [cap_lookup].
      destruct (Nat.eqb n k); [intros _; discriminate|].
      cbn [orb]. exact B1.
  - (* Look *)
    intros s c k0 res G Hc H. cbn [groups_ok] in G. cbn [exec] in H.
    destruct (exec icase total a s c (fun s' c' => Some (s', c'))) as [[s1 c1]|] eqn:E;
      [|discriminate].
    destruct (IHa _ _ _ _ G Hc E) as [p2 [s2 [c2 [E2 [L2 [M2 [C2 [B2 K2]]]]]]]].
    injection K2 as -> ->.
    exists [], s, c1. split6; auto; try (cbn [min_len]; simpl; lia).
  - apply run_ok_empty; auto. intros s c k0 res H. cbn [exec] in H.
    destruct (Nat.eqb (length s) total); [exact H | discriminate].
  - apply run_ok_empty; auto. intros s c k0 res H. cbn [exec] in H.
    destruct s as [|x [|y s]]; try exact H; try discriminate.
    destruct (eqb_char x newline); [exact H | discriminate].
Qed.

End Sound.
Section Matches.
Variable p : pattern.
Variable k : nat.
Variable f : ascii -> bool.
Hypothesis Hcheck : check p k f = true.

(** Group [k] of the match is bound to a non-empty text of [f]-characters. *)
Definition match_ok (m : rmatch) : Prop :=
  exists t, group m k = Some t /\ good f t.

Lemma check_parts :
  groups_ok (p_icase p) k f (p_ast p) = true /\ defines k (p_ast p) = true
  /\ 1 <= k /\ k <= p_groups p.
Proof.
  unfold check in Hcheck. rewrite !andb_true_iff, !Nat.leb_le in Hcheck. tauto.
Qed.

Lemma exec_at_ok (total : nat) (s rest : text) (c : caps) :
  exec_at (p_icase p) total (p_ast p) s = Some (rest, c) ->
  exists t, cap_lookup k c = Some t /\ good f t.
Proof.
  intros H. destruct check_parts as [G [D _]]. unfold exec_at in H.
  assert (C0 : caps_ok k f []) by (intros t Ht; discriminate).
  destruct (exec_sound (p_icase p) total k f (p_ast p) _ _ _ _ G C0 H)
    as [pre [s' [c' [_ [_ [_ [C [B K]]]]]]]].
  injection K as _ <-.
  assert (Bc : bound k c') by (apply B; right; exact D).
  unfold bound in Bc. destruct (cap_lookup k c') as [t|] eqn:E; [|congruence].
  exists t. split; [reflexivity | apply C; exact E].
Qed.

Lemma search_from_ok (total : nat) (s : text) :
  forall pos m, search_from p total pos s = Some m -> match_ok m.
Proof.
  induction s as [|x s IH]; intros pos m H; cbn [search_from] in H;
    destruct (exec_at (p_icase p) total (p_ast p) _) as [[rest c]|] eqn:E.
  - injection H as <-. exact (exec_at_ok _ _ _ _ E).
  - discriminate.
  - injection H as <-. exact (exec_at_ok _ _ _ _ E).
  - exact (IH _ _ H).
Qed.

Lemma search_ok (s : text) (m : rmatch) : search p s = Some m -> match_ok m.
Proof. apply search_from_ok. Qed.

Lemma finditer_from_ok (total fuel : nat) :
  forall pos s m, In m (finditer_from p total fuel pos s) -> match_ok m.
Proof.
  induction fuel as [|fuel IH]; intros pos s m H; cbn [finditer_from] in H.
  - destruct H.
  - destruct (search_from p total pos s) as [m0|] eqn:E; [|destruct H].
    pose proof (search_from_ok _ _ _ _ E) as M0.
    destruct (Nat.ltb total _).
    + destruct H as [<-|[]]. exact M0.
    + destruct H as [<-|H]; [exact M0 | exact (IH _ _ _ H)].
Qed.

Lemma fld_groups (m : rmatch) (n : nat) :
  1 <= k -> k <= n -> fld (k - 1) (map (group_or_empty m) (seq 1 n)) = group_or_empty m k.
Proof.
  intros H1 Hn. unfold fld.
  rewrite (nth_indep _ [] (group_or_empty m 0)) by (rewrite length_map, length_seq; lia).
  rewrite map_nth, seq_nth by lia. f_equal. lia.
Qed.

(** Field [k - 1] of every tuple that [findall] returns is a non-empty text
    of [f]-characters. *)
Theorem findall_ok (s : text) (g : list text) :
  In g (findall p s) -> good f (fld (k - 1) g).
Proof.
  unfold findall, finditer. rewrite in_map_iff. intros [m [<- Hm]].
  destruct check_parts as [_ [_ [H1 Hn]]].
  destruct (finditer_from_ok _ _ _ _ _ Hm) as [t [Ht Hg]].
  destruct (p_groups p) as [|n] eqn:E; [lia|].
  rewrite fld_groups by lia. unfold group_or_empty. rewrite Ht. exact Hg.
Qed.

End Matches.

End ReFacts.

(** ** The file filter *)

Section FileFilter.
Import PyStr PyStrFacts EnhancedToolExtractor.

Lemma existsb_endswith (s : text) (exts : list text) :
  existsb (fun ext => endswith s ext) exts = true <->
  exists ext, In ext exts /\ exists pre, s = pre ++ ext.
Proof.
  rewrite existsb_exists. split; intros [ext [Hin H]]; exists ext; split;
    try assumption; apply endswith_spec; exact H.
Qed.

Lemma existsb_contains (s : text) (pats : list text) :
  existsb (fun pattern => contains s pattern) pats = false <->
  forall pattern, In pattern pats -> ~ exists a b, s = a ++ pattern ++ b.
Proof.
  split.
  - intros H pattern Hin Hsub.
    assert (E : existsb (fun q => contains s q) pats = true).
    { apply existsb_exists. exists pattern. split; [exact Hin|].
      apply contains_spec. exact Hsub. }
    rewrite H in E. discriminate.
  - intros H. destruct (existsb _ pats) eqn:E; [|reflexivity].
    apply existsb_exists in E. destruct E as [q [Hin Hq]].
    exfalso. apply (H q Hin). apply contains_spec. exact Hq.
Qed.

(** C10.  A file is accepted exactly when its lowercased name ends with a
    supported extension and holds no skip pattern as a substring; so
    [contest.py] (holds [test]) and [distill.ts] (holds [dist]) are
    rejected although their extensions are supported. *)
Theorem is_relevant_file_iff :
  (forall filename : text,
     _is_relevant_file filename = true <->
     (exists ext, In ext relevant_extensions /\
                  exists pre, lower filename = pre ++ ext) /\
     (forall pattern, In pattern skip_patterns ->
                      ~ exists a b, lower filename = a ++ pattern ++ b))
  /\ _is_relevant_file (raw "contest.py") = false
  /\ (exists a b, lower (raw "contest.py") = a ++ raw "test" ++ b)
  /\ _is_relevant_file (raw "distill.ts") = false
  /\ (exists a b, lower (raw "distill.ts") = a ++ raw "dist" ++ b)
  /\ _is_relevant_file (raw "server.py") = true.
Proof.
  split; [|repeat split; try reflexivity].
  - intros filename. unfold _is_relevant_file.
    rewrite <- existsb_endswith, <- existsb_contains.
    destruct (existsb (fun ext => endswith (lower filename) ext) relevant_extensions);
      destruct (existsb (fun pattern => contains (lower filename) pattern) skip_patterns);
      simpl; split; try discriminate; try tauto; intros [? ?]; discriminate.
  - exists (raw "con"), (raw ".py"). reflexivity.
  - exists [], (raw "ill.ts"). reflexivity.
Qed.

End FileFilter.

(** ** The confidence score *)

Module ScoreFacts.
Import PyStr EnhancedToolExtractor ScoreModel.

Local Open Scope Q_scope.

Lemma confidence_sum_eq (server : MCPServer) (files_processed : nat) :
  confidence_sum server files_processed =
  sum_of (nonempty_result server) (length (tools server))
         (tools_with_descriptions server) files_processed.
Proof. reflexivity. Qed.

Lemma confidence_eq (server : MCPServer) (files_processed : nat) :
  _calculate_extraction_confidence server files_processed =
  score_of (nonempty_result server) (length (tools server))
           (tools_with_descriptions server) files_processed
           (truthy (error_message server)).
Proof.
  unfold _calculate_extraction_confidence, score_of.
  rewrite confidence_sum_eq. destruct (truthy (error_message server)); reflexivity.
Qed.

Lemma described_le (server : MCPServer) :
  (tools_with_descriptions server <= length (tools server))%nat.
Proof. unfold tools_with_descriptions. apply filter_length_le. Qed.

Lemma Qnat_nonneg (n : nat) : 0 <= Qnat n.
Proof. unfold Qnat, Qle. simpl. lia. Qed.

Lemma Qnat_pos (n : nat) : (0 < n)%nat -> 0 < Qnat n.
Proof. unfold Qnat, Qlt. simpl. lia. Qed.

Lemma Qnat_le (a b : nat) : (a <= b)%nat -> Qnat a <= Qnat b.
Proof. unfold Qnat, Qle. simpl. lia. Qed.

(** The fraction of described tools lies between 0 and 1. *)
Lemma ratio_bounds (d n : nat) :
  (0 < n)%nat -> (d <= n)%nat -> 0 <= Qnat d / Qnat n /\ Qnat d / Qnat n <= 1.
Proof.
  intros Hn Hd. split.
  - apply Qle_shift_div_l; [apply Qnat_pos; exact Hn|].
    rewrite Qmult_0_l. apply Qnat_nonneg.
  - apply Qle_shift_div_r; [apply Qnat_pos; exact Hn|].
    rewrite Qmult_1_l. apply Qnat_le. exact Hd.
Qed.

Lemma tool_bonus_bounds (n : nat) :
  0 <= Qmin 0.3 (Qnat n * 0.1) /\ Qmin 0.3 (Qnat n * 0.1) <= 0.3.
Proof.
  split; [|apply Q.le_min_l].
  apply Q.min_glb; [discriminate|].
  apply Qmult_le_0_compat; [apply Qnat_nonneg | discriminate].
Qed.

Lemma files_bonus_bounds (f : nat) :
  0 <= Qmin 0.1 (Qnat f * 0.02) /\ Qmin 0.1 (Qnat f * 0.02) <= 0.1.
Proof.
  split; [|apply Q.le_min_l].
  apply Q.min_glb; [discriminate|].
  apply Qmult_le_0_compat; [apply Qnat_nonneg | discriminate].
Qed.

(** The sum before penalty and cap lies between 0 and 1.1. *)
Lemma sum_of_bounds (b : bool) (n d f : nat) :
  (d <= n)%nat -> 0 <= sum_of b n d f /\ sum_of b n d f <= 1.1.
Proof.
  intros Hd. unfold sum_of.
  pose proof (tool_bonus_bounds n) as [T0 T1].
  pose proof (files_bonus_bounds f) as [F0 F1].
  set (T := Qmin 0.3 (Qnat n * 0.1)) in *.
  set (F := Qmin 0.1 (Qnat f * 0.02)) in *.
  destruct (Nat.ltb_spec 0 n) as [Hn|Hn].
  - destruct (ratio_bounds d n Hn Hd) as [R0 R1].
    set (R := Qnat d / Qnat n) in *.
    assert (R2 : 0 <= R * 0.2) by (apply Qmult_le_0_compat; [exact R0 | discriminate]).
    assert (R3 : R * 0.2 <= 0.2).
    { setoid_replace 0.2 with (1 * 0.2) at 2 by reflexivity.
      apply Qmult_le_compat_r; [exact R1 | discriminate]. }
    destruct b; destruct (Nat.ltb 1 f); split;
      repeat rewrite Qplus_0_l; lra.
  - destruct b; destruct (Nat.ltb 1 f); split; repeat rewrite Qplus_0_l; lra.
Qed.

Lemma score_of_bounds (b : bool) (n d f : nat) (err : bool) :
  (d <= n)%nat -> 0 <= score_of b n d f err /\ score_of b n d f err <= 1.
Proof.
  intros Hd. unfold score_of. split; [|apply Q.le_min_l].
  destruct (sum_of_bounds b n d f Hd) as [S0 _].
  apply Q.min_glb; [discriminate|].
  destruct err; [|exact S0].
  apply Qmult_le_0_compat; [exact S0 | discriminate].
Qed.

(** The part of the sum that depends on the tool count, for a fixed number
    of described tools. *)
Definition tool_part (b : bool) (n d : nat) : Q := sum_of b n d 0.

Lemma sum_of_split (b : bool) (n d f : nat) :
  sum_of b n d f ==
  tool_part b n d + (if Nat.ltb 1 f then Qmin 0.1 (Qnat f * 0.02) else 0).
Proof.
  unfold tool_part, sum_of. simpl (Nat.ltb 1 0). cbv iota.
  destruct (Nat.ltb 1 f); [reflexivity|]. rewrite Qplus_0_r. reflexivity.
Qed.

(** Up to three tools, one more tool never lowers the tool-dependent part:
    the gain of 0.1 outweighs the loss in the description ratio. *)
Lemma tool_part_mono (b : bool) (n1 n2 d : nat) :
  (d <= n1)%nat -> (n1 <= n2)%nat -> (n2 <= 3)%nat ->
  tool_part b n1 d <= tool_part b n2 d.
Proof.
  intros Hd H12 H3.
  assert (C : (n1 <= 3)%nat) by lia.
  destruct n1 as [|[|[|[|n1]]]]; try lia;
    destruct n2 as [|[|[|[|n2]]]]; try lia;
    destruct d as [|[|[|[|d]]]]; try lia;
    destruct b; apply Qle_bool_imp_le; vm_compute; reflexivity.
Qed.

Lemma score_of_mono (b : bool) (n1 n2 d f : nat) (err : bool) :
  (d <= n1)%nat -> (n1 <= n2)%nat -> (n2 <= 3)%nat ->
  score_of b n1 d f err <= score_of b n2 d f err.
Proof.
  intros Hd H12 H3. unfold score_of.
  apply Q.min_le_compat_l.
  assert (S : sum_of b n1 d f <= sum_of b n2 d f).
  { rewrite !sum_of_split. apply Qplus_le_compat; [|apply Qle_refl].
    apply tool_part_mono; assumption. }
  destruct err; [|exact S].
  apply Qmult_le_compat_r; [exact S | discriminate].
Qed.

End ScoreFacts.

(** ** The confidence score on binary64 numbers

    The sign of a sum, a product and a quotient of binary64 numbers, from
    the specification of the operations, and with it the bounds of the
    score that is returned. *)

Module Binary64Facts.
Import PrimFloat SpecFloat FloatOps FloatAxioms.
Import PyStr EnhancedToolExtractor.
#[local] Set Warnings "-inexact-float".

(** A number whose sign bit is clear (zero, a positive number or plus
    infinity), or no number at all. *)
Definition sf_nonneg (x : spec_float) : bool :=
  match x with
  | S754_zero s => negb s
  | S754_infinity s => negb s
  | S754_nan => true
  | S754_finite s _ _ => negb s
  end.

Definition nonneg (x : float) : Prop := sf_nonneg (Prim2SF x) = true.

Lemma round_aux_nonneg (prec emax mx ex : Z) (lx : location) :
  sf_nonneg (binary_round_aux prec emax false mx ex lx) = true.
Proof.
  unfold binary_round_aux.
  destruct (shr_fexp prec emax mx ex lx) as [mrs' e'].
  destruct (shr_fexp prec emax _ e' loc_Exact) as [mrs'' e''].
  destruct (shr_m mrs''); [reflexivity| |reflexivity].
  destruct (Z.leb e'' (Z.sub emax prec)); reflexivity.
Qed.

Lemma round_nonneg (prec emax : Z) (mx : positive) (ex : Z) :
  sf_nonneg (binary_round prec emax false mx ex) = true.
Proof.
  unfold binary_round. destruct (shl_align mx ex _) as [mz ez]. apply round_aux_nonneg.
Qed.

Lemma normalize_nonneg (prec emax m e : Z) :
  (0 <= m)%Z -> sf_nonneg (binary_normalize prec emax m e false) = true.
Proof.
  intros H. destruct m as [|p|p]; [reflexivity | apply round_nonneg|].
  exfalso. apply H. reflexivity.
Qed.

Lemma SFadd_nonneg (prec emax : Z) (x y : spec_float) :
  sf_nonneg x = true -> sf_nonneg y = true -> sf_nonneg (SFadd prec emax x y) = true.
Proof.
  destruct x as [sx|sx| |sx mx ex]; destruct y as [sy|sy| |sy my ey];
    cbn [sf_nonneg SFadd]; intros Hx Hy; try reflexivity;
    try (apply negb_true_iff in Hx); try (apply negb_true_iff in Hy); subst;
    try reflexivity.
  cbn [cond_Zopp]. apply normalize_nonneg. apply Z.add_nonneg_nonneg; discriminate.
Qed.

Lemma SFmul_nonneg (prec emax : Z) (x y : spec_float) :
  sf_nonneg x = true -> sf_nonneg y = true -> sf_nonneg (SFmul prec emax x y) = true.
Proof.
  destruct x as [sx|sx| |sx mx ex]; destruct y as [sy|sy| |sy my ey];
    cbn [sf_nonneg SFmul]; intros Hx Hy; try reflexivity;
    try (apply negb_true_iff in Hx); try (apply negb_true_iff in Hy); subst;
    try reflexivity.
  apply round_aux_nonneg.
Qed.

Lemma SFdiv_nonneg (prec emax : Z) (x y : spec_float) :
  sf_nonneg x = true -> sf_nonneg y = true -> sf_nonneg (SFdiv prec emax x y) = true.
Proof.
  destruct x as [sx|sx| |sx mx ex]; destruct y as [sy|sy| |sy my ey];
    cbn [sf_nonneg SFdiv]; intros Hx Hy; try reflexivity;
    try (apply negb_true_iff in Hx); try (apply negb_true_iff in Hy); subst;
    try reflexivity.
  destruct (SFdiv_core_binary prec emax (Zpos mx) ex (Zpos my) ey) as [[mz ez] lz].
  apply round_aux_nonneg.
Qed.

Lemma add_nonneg (x y : float) : nonneg x -> nonneg y -> nonneg (x + y).
Proof. unfold nonneg. rewrite add_spec. apply SFadd_nonneg. Qed.

Lemma mul_nonneg (x y : float) : nonneg x -> nonneg y -> nonneg (x * y).
Proof. unfold nonneg. rewrite mul_spec. apply SFmul_nonneg. Qed.

Lemma div_nonneg (x y : float) : nonneg x -> nonneg y -> nonneg (x / y).
Proof. unfold nonneg. rewrite div_spec. apply SFdiv_nonneg. Qed.

Lemma float_of_nat_nonneg (n : nat) : nonneg (Binary64.float_of_nat n).
Proof.
  unfold nonneg, Binary64.float_of_nat. rewrite of_uint63_spec.
  apply normalize_nonneg. apply Uint63.to_Z_bounded.
Qed.

Lemma fmin_nonneg (a b : float) : nonneg a -> nonneg b -> nonneg (Binary64.fmin a b).
Proof. intros Ha Hb. unfold Binary64.fmin. destruct (b <? a)%float; assumption. Qed.

(** The sum before the cap. *)
Lemma confidence_before_cap (server : MCPServer) (files_processed : nat) :
  exists c,
    nonneg c
    /\ Binary64._calculate_extraction_confidence server files_processed
       = Binary64.fmin 1.0 c.
Proof.
  unfold Binary64._calculate_extraction_confidence. cbv zeta.
  eexists. split; [|reflexivity].
  assert (K : forall q : float, sf_nonneg (Prim2SF q) = true -> nonneg q)
    by (intros q H; exact H).
  destruct (truthy (error_message server)); destruct (Nat.ltb 1 files_processed);
    destruct (Nat.ltb 0 (length (tools server))); destruct (nonempty_result server);
    repeat first
      [ apply add_nonneg | apply mul_nonneg | apply div_nonneg | apply fmin_nonneg
      | apply float_of_nat_nonneg | (apply K; vm_compute; reflexivity) ].
Qed.

(** The score is a number between 0 and 1. *)
Lemma score_in_unit_interval (server : MCPServer) (files_processed : nat) :
  (0 <=? Binary64._calculate_extraction_confidence server files_processed)%float = true
  /\ (Binary64._calculate_extraction_confidence server files_processed <=? 1)%float = true.
Proof.
  destruct (confidence_before_cap server files_processed) as [c [N ->]].
  unfold Binary64.fmin. rewrite !leb_spec. unfold nonneg in N.
  destruct (c <? 1.0)%float eqn:L.
  - rewrite ltb_spec in L. unfold SFltb in L. unfold SFleb.
    change (Prim2SF 0) with (S754_zero false).
    destruct (SFcompare (Prim2SF c) (Prim2SF 1.0)) as [[| |]|] eqn:C; try discriminate L.
    split; [|reflexivity].
    destruct (Prim2SF c) as [s|s| |s m e]; cbn [sf_nonneg] in N; cbn [SFcompare];
      try reflexivity; try (apply negb_true_iff in N; subst; reflexivity).
    discriminate C.
  - split; vm_compute; reflexivity.
Qed.

End Binary64Facts.

(** The binary64 scores for one, two and three tools, compared by running
    them. *)

Module RoundingFacts.
Import PrimFloat.
Import PyStr EnhancedToolExtractor.
#[local] Set Warnings "-inexact-float".

(** The binary64 score as a function of the five quantities it depends
    on. *)
Definition binary64_score (nonempty : bool) (tool_count described files_processed : nat)
    (error : bool) : float :=
  let confidence := 0.0%float in
  let confidence := if nonempty then (confidence + 0.5)%float else confidence in
  let confidence :=
    if Nat.ltb 0 tool_count
    then (confidence + Binary64.fmin 0.3 (Binary64.float_of_nat tool_count * 0.1))%float
    else confidence in
  let confidence :=
    if Nat.ltb 0 tool_count
    then (confidence
          + Binary64.float_of_nat described / Binary64.float_of_nat tool_count * 0.2)%float
    else confidence in
  let confidence :=
    if Nat.ltb 1 files_processed
    then (confidence
          + Binary64.fmin 0.1 (Binary64.float_of_nat files_processed * 0.02))%float
    else confidence in
  let confidence := if error then (confidence * 0.7)%float else confidence in
  Binary64.fmin 1.0 confidence.

Lemma binary64_confidence_eq (server : MCPServer) (files_processed : nat) :
  Binary64._calculate_extraction_confidence server files_processed =
  binary64_score (nonempty_result server) (length (tools server))
           (tools_with_descriptions server) files_processed
           (truthy (error_message server)).
Proof. reflexivity. Qed.

(** The largest number of files for which the scores are compared by
    running them. *)
Definition files_checked : nat := 1000.

(** [a] is at most two units in the last place above [b]. *)
Definition within_two_ulps (a b : float) : bool := (a <=? next_up (next_up b))%float.

Lemma rounding_check :
  forallb (fun b =>
  forallb (fun err =>
  forallb (fun n2 =>
  forallb (fun n1 =>
  forallb (fun d =>
  forallb (fun f =>
    within_two_ulps (binary64_score b n1 d f err) (binary64_score b n2 d f err))
    (seq 0 (S files_checked)))
    (seq 0 (S n1)))
    (seq 0 (S n2)))
    (seq 0 4))
    [true; false])
    [true; false] = true.
Proof. vm_compute. reflexivity. Qed.

Lemma forallb_in {A} (f : A -> bool) (l : list A) (x : A) :
  forallb f l = true -> In x l -> f x = true.
Proof. intros H. apply forallb_forall. exact H. Qed.

Lemma in_bools (b : bool) : In b [true; false].
Proof. destruct b; simpl; auto. Qed.

Lemma in_upto (k n : nat) : k <= n -> In k (seq 0 (S n)).
Proof. intros H. apply in_seq. lia. Qed.

Lemma binary64_score_near_monotone (b : bool) (n1 n2 d f : nat) (err : bool) :
  d <= n1 -> n1 <= n2 -> n2 <= 3 -> f <= files_checked ->
  within_two_ulps (binary64_score b n1 d f err) (binary64_score b n2 d f err) = true.
Proof.
  intros Hd H12 H3 Hf.
  pose proof (forallb_in _ _ b rounding_check (in_bools b)) as C1. cbv beta in C1.
  pose proof (forallb_in _ _ err C1 (in_bools err)) as C2. cbv beta in C2.
  pose proof (forallb_in _ _ n2 C2 (in_upto n2 3 H3)) as C3. cbv beta in C3.
  pose proof (forallb_in _ _ n1 C3 (in_upto n1 n2 H12)) as C4. cbv beta in C4.
  pose proof (forallb_in _ _ d C4 (in_upto d n1 Hd)) as C5. cbv beta in C5.
  exact (forallb_in _ _ f C5 (in_upto f files_checked Hf)).
Qed.

End RoundingFacts.

Section ConfidenceClaims.
Import PrimFloat.
Import PyStr EnhancedToolExtractor ScoreModel ScoreFacts.
Local Open Scope Q_scope.
#[local] Set Warnings "-inexact-float".

(** C7, as stated, fails on binary64 numbers: with one described tool the
    scores for one and for two tools are equal in exact arithmetic, and
    Python's sums round them to 0.8 and to 0.7999999999999999. *)
Lemma confidence_rounding_counterexample :
  let s1 := server_with [described_tool "alpha"] None in
  let s2 := server_with [described_tool "alpha"; mkTool (raw "beta") None []] None in
  tools_with_descriptions s1 = tools_with_descriptions s2
  /\ nonempty_result s1 = nonempty_result s2
  /\ truthy (error_message s1) = truthy (error_message s2)
  /\ length (tools s1) = 1%nat /\ length (tools s2) = 2%nat
  /\ _calculate_extraction_confidence s1 0 == _calculate_extraction_confidence s2 0
  /\ Binary64._calculate_extraction_confidence s1 0 = 0.8%float
  /\ Binary64._calculate_extraction_confidence s2 0 = 0.7999999999999999%float
  /\ PrimFloat.ltb (Binary64._calculate_extraction_confidence s2 0)
                   (Binary64._calculate_extraction_confidence s1 0) = true.
Proof.
  cbv zeta. repeat split; vm_compute; reflexivity.
Qed.

(** C7, amended.  The score that is returned, a binary64 number, lies in
    [0, 1] for every input.  With the number of described tools, the
    non-emptiness of the result, the number of files and the error flag
    held fixed, and the tool count within the cap of three tools (0.3), the
    score does not decrease when the tool count grows in exact arithmetic,
    where it lies in [0, 1] as well.  The binary64 score is non-decreasing
    up to rounding only: for up to 1000 processed files the score for the
    smaller tool count is at most two units in the last place above the
    score for the larger one. *)
Theorem confidence_monotone_in_tool_count :
  (forall (s1 s2 : MCPServer) (files_processed : nat),
     tools_with_descriptions s1 = tools_with_descriptions s2 ->
     nonempty_result s1 = nonempty_result s2 ->
     truthy (error_message s1) = truthy (error_message s2) ->
     (length (tools s1) <= length (tools s2))%nat ->
     (length (tools s2) <= 3)%nat ->
     _calculate_extraction_confidence s1 files_processed
     <= _calculate_extraction_confidence s2 files_processed)
  /\ (forall (s : MCPServer) (files_processed : nat),
        0 <= _calculate_extraction_confidence s files_processed
        /\ _calculate_extraction_confidence s files_processed <= 1)
  /\ (forall (s : MCPServer) (files_processed : nat),
        PrimFloat.leb 0%float
          (Binary64._calculate_extraction_confidence s files_processed) = true
        /\ PrimFloat.leb
             (Binary64._calculate_extraction_confidence s files_processed)
             1%float = true)
  /\ (forall (s1 s2 : MCPServer) (files_processed : nat),
        tools_with_descriptions s1 = tools_with_descriptions s2 ->
        nonempty_result s1 = nonempty_result s2 ->
        truthy (error_message s1) = truthy (error_message s2) ->
        (length (tools s1) <= length (tools s2))%nat ->
        (length (tools s2) <= 3)%nat ->
        (files_processed <= 1000)%nat ->
        PrimFloat.leb
          (Binary64._calculate_extraction_confidence s1 files_processed)
          (PrimFloat.next_up
             (PrimFloat.next_up
                (Binary64._calculate_extraction_confidence s2 files_processed)))
        = true).
Proof.
  split; [|split; [|split]].
  - intros s1 s2 f Hd Hb He H12 H3.
    rewrite !confidence_eq, <- Hd, <- Hb, <- He.
    apply score_of_mono; [apply described_le | exact H12 | exact H3].
  - intros s f. rewrite confidence_eq.
    apply score_of_bounds. apply described_le.
  - intros s f. apply Binary64Facts.score_in_unit_interval.
  - intros s1 s2 f Hd Hb He H12 H3 Hf.
    rewrite !RoundingFacts.binary64_confidence_eq, <- Hd, <- Hb, <- He.
    apply RoundingFacts.binary64_score_near_monotone;
      [apply described_le | exact H12 | exact H3 | exact Hf].
Qed.

(** A run of the amended C7: from one described tool to that tool and an undescribed
    one, with two files and no error. *)
Lemma confidence_monotone_in_tool_count_witness :
  _calculate_extraction_confidence
    (server_with [described_tool "alpha"] None) 2
  <= _calculate_extraction_confidence
       (server_with [described_tool "alpha"; mkTool (raw "beta") None []] None) 2.
Proof.
  apply (proj1 confidence_monotone_in_tool_count); try reflexivity; simpl; lia.
Defined.

(** C2, as stated, fails: with three described tools and five files the sum
    is 1.1, so the score with an error is 0.77 while 0.7 times the capped
    error-free score is 0.7; the binary64 run gives the same two numbers. *)
Lemma confidence_penalty_counterexample :
  let s_ok := server_with three_tools None in
  let s_err := server_with three_tools (Some (raw "Error extracting from GitHub: boom")) in
  _calculate_extraction_confidence s_ok 5 == 1
  /\ _calculate_extraction_confidence s_err 5 == 0.77
  /\ ~ (_calculate_extraction_confidence s_err 5
        == 0.7 * _calculate_extraction_confidence s_ok 5)
  /\ Binary64._calculate_extraction_confidence s_ok 5 = 1%float
  /\ Binary64._calculate_extraction_confidence s_err 5 = 0.77%float
  /\ PrimFloat.mul 0.7 (Binary64._calculate_extraction_confidence s_ok 5) = 0.7%float.
Proof.
  cbv zeta. split; [reflexivity|]. split; [reflexivity|]. split.
  - intros H. apply Qeq_bool_iff in H. vm_compute in H. discriminate H.
  - repeat split; vm_compute; reflexivity.
Qed.

(** C2, amended.  The score with an error is 0.7 times the sum that the
    error-free twin accumulates before the cap, and therefore 0.7 times the
    error-free score whenever that sum does not exceed 1. *)
Theorem confidence_penalty_before_cap :
  forall (s_err s_ok : MCPServer) (files_processed : nat),
    tools s_err = tools s_ok ->
    prompts s_err = prompts s_ok ->
    resources s_err = resources s_ok ->
    truthy (error_message s_err) = true ->
    truthy (error_message s_ok) = false ->
    _calculate_extraction_confidence s_err files_processed
    == 0.7 * confidence_sum s_ok files_processed
    /\ (confidence_sum s_ok files_processed <= 1 ->
        _calculate_extraction_confidence s_err files_processed
        == 0.7 * _calculate_extraction_confidence s_ok files_processed).
Proof.
  intros s_err s_ok f Ht Hp Hr He Hk.
  assert (E : confidence_sum s_err f = confidence_sum s_ok f).
  { rewrite !confidence_sum_eq. unfold nonempty_result, tools_with_descriptions.
    rewrite Ht, Hp, Hr. reflexivity. }
  unfold _calculate_extraction_confidence. rewrite He, Hk, E.
  rewrite confidence_sum_eq.
  destruct (sum_of_bounds (nonempty_result s_ok) (length (tools s_ok))
              (tools_with_descriptions s_ok) f (described_le s_ok)) as [S0 S1].
  set (S := sum_of _ _ _ _) in *.
  assert (P : Qmin 1 (S * 0.7) == 0.7 * S).
  { rewrite Q.min_r; [ring | lra]. }
  split; [exact P|].
  intros Hc. rewrite P. rewrite (Q.min_r 1 S Hc). reflexivity.
Qed.

(** A run of the amended C2: one described tool, one file. *)
Lemma confidence_penalty_before_cap_witness :
  _calculate_extraction_confidence
    (server_with [described_tool "alpha"] (Some (raw "boom"))) 1
  == 0.7 * confidence_sum (server_with [described_tool "alpha"] None) 1.
Proof.
  refine (proj1 (confidence_penalty_before_cap
           (server_with [described_tool "alpha"] (Some (raw "boom")))
           (server_with [described_tool "alpha"] None) 1 _ _ _ _ _));
    reflexivity.
Defined.

End ConfidenceClaims.

(** ** Results of the monadic list traversals *)

Module ResFacts.
Import EnhancedToolExtractor.

Lemma bind_ret_inv {A B} (x : res A) (f : A -> res B) (b : B) :
  bind x f = Ret b -> exists a, x = Ret a /\ f a = Ret b.
Proof.
  destruct x as [a| |]; simpl; intros H; try discriminate.
  exists a. split; [reflexivity | exact H].
Qed.

(** Every element of the result of [concat_mapM] stems from one element of
    the list. *)
Lemma concat_mapM_in {A B} (f : A -> res (list B)) (l : list A) (ys : list B) :
  concat_mapM f l = Ret ys ->
  forall y, In y ys -> exists x zs, In x l /\ f x = Ret zs /\ In y zs.
Proof.
  revert ys. induction l as [|x l IH]; intros ys H y Hy; simpl in H.
  - injection H as <-. destruct Hy.
  - apply bind_ret_inv in H. destruct H as [zs [Hx H]].
    apply bind_ret_inv in H. destruct H as [ws [Hl H]].
    injection H as <-. apply in_app_or in Hy. destruct Hy as [Hy|Hy].
    + exists x, zs. split; [left; reflexivity | split; assumption].
    + destruct (IH ws Hl y Hy) as [x' [zs' [Hin [Hf Hz]]]].
      exists x', zs'. split; [right; exact Hin | split; assumption].
Qed.

End ResFacts.
(** ** The README fallback miner *)

Section MarkdownMiner.
Import PyStr PyStrFacts EnhancedToolExtractor ResFacts.



(** The definition of the miner, unfolded once. *)
Lemma extract_tools_from_markdown_eq (content : text) :
  _extract_tools_from_markdown content =
  (tool_sections <- re_findall Re.re_DOTALL_IGNORECASE tool_sections_pattern content ;;
   concat_mapM (fun sec =>
       let section := fld 0 sec in
       concat_mapM (fun pattern =>
           matches <- re_findall Re.no_flags pattern section ;;
           Ret (mined_tools matches))
         tool_patterns)
     tool_sections).
Proof. unfold _extract_tools_from_markdown. reflexivity. Qed.



End MarkdownMiner.

(** ** The name resolver *)

Section NameResolver.
Import PyStr EnhancedToolExtractor Samples.

(** C4.  The three runs the specification lists hold: a quoted literal
    loses its quotes whatever the source text, a member with an explicit
    string in the enum block resolves to that string, and a member without
    enum definition resolves to its lowercased name.  But the member is
    searched as a piece of text: in [ts_overlapping_enum] the block assigns
    [ECHO] the string [echo], and the resolver returns [get_echo], the
    string of [GET_ECHO]. *)
Theorem name_resolver_runs :
  (forall content : text,
     _extract_name_value content (raw "~echo~") = Ret (Some (raw "echo")))
  /\ _extract_name_value (raw "enum ToolName { ECHO = ~echo_tool~ }")
                         (raw "ToolName.ECHO")
     = Ret (Some (raw "echo_tool"))
  /\ _extract_name_value (raw "const x = 1;") (raw "ToolName.UNKNOWN")
     = Ret (Some (raw "unknown"))
  /\ _extract_name_value ts_overlapping_enum (raw "ToolName.ECHO")
     = Ret (Some (raw "get_echo")).
Proof.
  split.
  - intros content. vm_compute. reflexivity.
  - repeat split; vm_compute; reflexivity.
Qed.

(** C5.  The resolver puts the text before the dot into a pattern as it
    is.  For the name expression [String(ToolName.ECHO)] that pattern has an
    unclosed parenthesis, so compiling it raises [re.error], and the
    exception leaves [_extract_mcp_tools] and [_parse_typescript_content]. *)
Theorem typescript_parser_raises :
  Re.compile Re.re_DOTALL (raw "enum\s+String(ToolName\s*{([^}]+)}") = Re.BadPattern
  /\ (forall content : text,
        _extract_name_value content (raw "String(ToolName.ECHO)") = Raise ReError)
  /\ _extract_mcp_tools ts_call_name = Raise ReError
  /\ _parse_typescript_content ts_call_name = Raise ReError.
Proof.
  split; [vm_compute; reflexivity|].
  split.
  - intros content. vm_compute. reflexivity.
  - split; vm_compute; reflexivity.
Qed.

End NameResolver.

(** ** One file of the extraction loop *)

Section FileLoop.
Import PyStr EnhancedToolExtractor Samples ScoreModel.

Lemma extend_nothing (server : MCPServer) : extend server ([], [], []) = server.
Proof. destruct server. unfold extend. simpl. rewrite !app_nil_r. reflexivity. Qed.

(** C6, as stated, fails: a Python file without declarations is counted,
    and the log stays as it was; no line is appended for it. *)
Lemma unmatched_file_counterexample :
  let a := mkAccum empty_server [raw "Extracted from a.py: 1 tools, 0 prompts, 0 resources"] 1 in
  _is_relevant_file (fi_name plain_python_file) = true
  /\ parse_by_extension (suffix (fi_name plain_python_file))
                        (fi_content plain_python_file) = Ret ([], [], [])
  /\ forall str_exn : exn -> text,
       exists a', process_file str_exn plain_python_file a = Ret a'
                  /\ acc_log a' = acc_log a
                  /\ ~ exists line, acc_log a' = acc_log a ++ [line].
Proof.
  cbv zeta. split; [vm_compute; reflexivity|]. split; [vm_compute; reflexivity|].
  intros str_exn. eexists. split; [vm_compute; reflexivity|].
  split; [reflexivity|].
  intros [line H]. apply (f_equal (@length text)) in H.
  rewrite length_app in H. simpl in H. lia.
Qed.

(** C6, amended.  A relevant file in which no pattern finds a declaration
    leaves the server and the log untouched and adds one to the count of
    processed files. *)
Theorem unmatched_file_leaves_log :
  forall (str_exn : exn -> text) (file : file_info) (a : accum),
    _is_relevant_file (fi_name file) = true ->
    parse_by_extension (suffix (fi_name file)) (fi_content file) = Ret ([], [], []) ->
    process_file str_exn file a
    = Ret (mkAccum (acc_server a) (acc_log a) (S (acc_files_processed a))).
Proof.
  intros str_exn file a Hrel Hparse.
  unfold process_file. rewrite Hrel, Hparse.
  cbn [found_any]. rewrite extend_nothing. reflexivity.
Qed.

(** A run of the amended C6 on [plain_python_file]. *)
Lemma unmatched_file_leaves_log_witness :
  process_file (fun _ => raw "error") plain_python_file (mkAccum empty_server [] 0)
  = Ret (mkAccum empty_server [] 1).
Proof.
  apply (unmatched_file_leaves_log (fun _ => raw "error") plain_python_file
           (mkAccum empty_server [] 0)); vm_compute; reflexivity.
Defined.

End FileLoop.

(** ** The world: frame and retry facts *)

Module WorldFacts.
Import PyStr EnhancedToolExtractor.

(** A computation that never enters the README fallback. *)
Definition keeps_fallback {A} (c : M A) : Prop :=
  forall w, fallback_runs (snd (c w)) = fallback_runs w.

Lemma keeps_mret {A} (a : A) : keeps_fallback (mret a).
Proof. intros w. reflexivity. Qed.

Lemma keeps_lift {A} (r : res A) : keeps_fallback (lift r).
Proof. intros w. reflexivity. Qed.

Lemma keeps_mbind {A B} (c : M A) (f : A -> M B) :
  keeps_fallback c -> (forall a, keeps_fallback (f a)) -> keeps_fallback (mbind c f).
Proof.
  intros Hc Hf w. unfold mbind. specialize (Hc w).
  destruct (c w) as [[a|e|] w']; simpl in *; try exact Hc.
  rewrite Hf. exact Hc.
Qed.

Lemma keeps_try_except {A} (c : M A) (h : exn -> M A) :
  keeps_fallback c -> (forall e, keeps_fallback (h e)) -> keeps_fallback (try_except c h).
Proof.
  intros Hc Hh w. unfold try_except. specialize (Hc w).
  destruct (c w) as [[a|e|] w']; simpl in *; try exact Hc.
  rewrite Hh. exact Hc.
Qed.

Lemma keeps_sleep (d : Q) : keeps_fallback (sleep d).
Proof. intros w. reflexivity. Qed.

Lemma keeps_print (line : text) : keeps_fallback (print line).
Proof. intros w. reflexivity. Qed.

Lemma keeps_update_stats (f : stats -> stats) : keeps_fallback (update_stats f).
Proof. intros w. reflexivity. Qed.

Lemma keeps_set_files (l : list file_info) : keeps_fallback (set_files l).
Proof. intros w. reflexivity. Qed.

Lemma keeps_get_files : keeps_fallback get_files.
Proof. intros w. reflexivity. Qed.

Section WithWorld.
Variable str_exn : exn -> text.
Variable respond : nat -> text -> response.

Lemma keeps_get_contents (path : text) : keeps_fallback (get_contents respond path).
Proof. intros w. unfold get_contents. destruct (respond (api_calls w) path); reflexivity. Qed.

Lemma keeps_read_file (content : content_file) : keeps_fallback (read_file str_exn content).
Proof.
  unfold read_file. apply keeps_try_except.
  - apply keeps_mbind; [apply keeps_sleep|]. intros _.
    apply keeps_mbind; [apply keeps_lift|]. intros file_content.
    apply keeps_mbind; [apply keeps_get_files|]. intros fs.
    apply keeps_mbind; [apply keeps_set_files|]. intros _.
    apply keeps_update_stats.
  - intros e. apply keeps_mbind; [apply keeps_print|]. intros _. apply keeps_update_stats.
Qed.

Lemma keeps_visit_contents (descend : text -> M unit) (contents : list content_file) :
  (forall p, keeps_fallback (descend p)) ->
  keeps_fallback (visit_contents str_exn descend contents).
Proof.
  intros Hd. induction contents as [|content rest IH]; cbn [visit_contents].
  - apply keeps_mret.
  - apply keeps_mbind; [|intros _; exact IH].
    destruct (_ && _)%bool; [apply keeps_read_file|].
    destruct (_ && _)%bool; [apply Hd | apply keeps_mret].
Qed.

Lemma keeps_retry_loop (todo retry : nat) (path : text) (attempt : M unit) :
  keeps_fallback attempt ->
  keeps_fallback (retry_loop str_exn todo retry path attempt).
Proof.
  intros Ha. revert retry. induction todo as [|todo IH]; intros retry.
  - apply keeps_mret.
  - intros w. cbn [retry_loop]. specialize (Ha w).
    destruct (attempt w) as [[a|e|] w']; cbn [snd] in Ha; try exact Ha.
    destruct e; try exact Ha;
      match goal with
      | |- fallback_runs (snd (?c w')) = _ =>
          assert (K : keeps_fallback c); [|rewrite (K w'); exact Ha]
      end.
    + apply keeps_mbind; [apply keeps_update_stats|]. intros _.
      destruct (Nat.ltb retry (max_retries - 1)).
      * apply keeps_mbind; [apply keeps_print|]. intros _.
        apply keeps_mbind; [apply keeps_sleep|]. intros _. apply IH.
      * apply keeps_print.
    + destruct (Nat.ltb retry (max_retries - 1)).
      * apply keeps_mbind; [apply keeps_sleep|]. intros _. apply IH.
      * apply keeps_print.
Qed.

Lemma keeps_traverse (remaining : nat) (path : text) :
  keeps_fallback (_traverse_directory str_exn respond remaining path).
Proof.
  revert path. induction remaining as [|remaining IH]; intros path;
    cbn [_traverse_directory].
  - apply keeps_mret.
  - apply keeps_retry_loop.
    apply keeps_mbind; [apply keeps_sleep|]. intros _.
    apply keeps_mbind; [apply keeps_get_contents|]. intros contents.
    apply keeps_visit_contents. exact IH.
Qed.

Lemma keeps_get_all_files (base_path : option text) :
  keeps_fallback (_get_all_files_recursive str_exn respond base_path).
Proof.
  unfold _get_all_files_recursive.
  apply keeps_mbind; [apply keeps_set_files|]. intros _.
  apply keeps_mbind; [apply keeps_traverse|]. intros _. apply keeps_get_files.
Qed.

Lemma keeps_readme_loop (subpath : option text) (names : list text) :
  keeps_fallback (readme_loop respond subpath names).
Proof.
  induction names as [|filename rest IH]; cbn [readme_loop].
  - apply keeps_mret.
  - intros w.
    set (file_path := match subpath with Some sp => _ | None => _ end).
    assert (K : keeps_fallback (fetch_text respond file_path)).
    { unfold fetch_text. apply keeps_mbind; [apply keeps_get_contents|].
      intros [l|c]; apply keeps_lift. }
    specialize (K w).
    destruct (fetch_text respond file_path w) as [[t|e|] w']; cbn [snd] in *; try exact K.
    destruct e; try exact K; rewrite IH; exact K.
Qed.

(** The fallback is entered once per call. *)
Lemma fallback_counts_once (server : MCPServer) (subpath : option text) (w : world) :
  fallback_runs (snd (_extract_from_readme_fallback str_exn respond server subpath w))
  = S (fallback_runs w).
Proof.
  unfold _extract_from_readme_fallback.
  set (body := try_except _ _).
  assert (K : keeps_fallback body).
  { apply keeps_try_except.
    - apply keeps_mbind; [apply keeps_readme_loop|].
      intros [content|]; [|apply keeps_mret].
      destruct (nonempty content); [|apply keeps_mret].
      apply keeps_mbind; [apply keeps_lift|]. intros ts. apply keeps_mret.
    - intros e. apply keeps_mbind; [apply keeps_print|]. intros _. apply keeps_mret. }
  unfold mbind, enter_fallback, modify. cbn [fst snd].
  match goal with |- context [body ?w1] => specialize (K w1); destruct (body w1) as [[a|e|] w'] end;
    simpl in *; exact K.
Qed.

End WithWorld.

Lemma mbind_run {A B} (c : M A) (f : A -> M B) (w : world) :
  mbind c f w = match c w with
                | (Ret a, w') => f a w'
                | (Raise e, w') => (Raise e, w')
                | (Stuck, w') => (Stuck, w')
                end.
Proof. reflexivity. Qed.

Lemma lift_run {A} (r : res A) (w : world) : lift r w = (r, w).
Proof. reflexivity. Qed.

Lemma nonempty_with_log (s : MCPServer) (l : option (list text)) :
  nonempty_result (with_log s l) = nonempty_result s.
Proof. reflexivity. Qed.

Lemma finish_extraction_fallback (str_exn : exn -> text)
    (respond : nat -> text -> response) (a : accum) (subpath : option text) (w : world) :
  fallback_runs (snd (finish_extraction str_exn respond a subpath w))
  = if nonempty_result (acc_server a) then fallback_runs w else S (fallback_runs w).
Proof.
  unfold finish_extraction. cbv zeta.
  assert (E : forall l1 l2,
             nonempty_result (match acc_log a with
                              | [] => match acc_log a with
                                      | [] => acc_server a
                                      | _ :: _ => with_log (acc_server a) l1
                                      end
                              | _ :: _ => with_log (match acc_log a with
                                      | [] => acc_server a
                                      | _ :: _ => with_log (acc_server a) l1
                                      end) l2
                              end)
             = nonempty_result (acc_server a)).
  { intros l1 l2. destruct (acc_log a); reflexivity. }
  rewrite E. destruct (nonempty_result (acc_server a)); cbn [negb].
  - reflexivity.
  - apply fallback_counts_once.
Qed.


End WorldFacts.

(** ** The README fallback and structured extraction *)

Section FallbackClaim.
Import PyStr EnhancedToolExtractor Samples ScoreModel WorldFacts.

(** C3, as stated, fails: a server whose URL is not on github.com, and a
    server whose repository cannot be looked up, come back with all three
    collections empty and the fallback never entered. *)
Lemma fallback_skipped_counterexample :
  let out1 := _extract_from_github_repo str_exn_demo get_repo_ok respond_demo
                gitlab_server world0 in
  let out2 := _extract_from_github_repo str_exn_demo get_repo_missing respond_demo
                empty_server world0 in
  (fst out1 = Ret gitlab_server
   /\ nonempty_result gitlab_server = false
   /\ fallback_runs (snd out1) = 0)
  /\ (fst out2 = Ret (with_error empty_server
                        (Some (raw "Error extracting from GitHub: 404 not found")))
      /\ nonempty_result empty_server = false
      /\ fallback_runs (snd out2) = 0).
Proof.
  cbv zeta. split; repeat split; vm_compute; reflexivity.
Qed.

(** C3, amended.  When the URL does not name a github.com repository the
    server is returned as it is; when the repository lookup or the traversal
    raises, the fallback is not entered; and when both succeed, the fallback
    is entered, exactly once, if and only if the server's three collections
    are empty after the loop over the files. *)
Theorem fallback_runs_iff_empty :
  forall (str_exn : exn -> text) (get_repo : text -> res unit)
         (respond : nat -> text -> response) (server : MCPServer) (w : world),
    let out := _extract_from_github_repo str_exn get_repo respond server w in
    (_parse_github_url (github_url server) = None -> out = (Ret server, w))
    /\ (forall owner repo_name subpath,
          _parse_github_url (github_url server) = Some (owner, repo_name, subpath) ->
          (forall e, get_repo (owner ++ raw "/" ++ repo_name) = Raise e ->
                     fallback_runs (snd out) = fallback_runs w)
          /\ (forall e w1,
                get_repo (owner ++ raw "/" ++ repo_name) = Ret tt ->
                _get_all_files_recursive str_exn respond subpath w = (Raise e, w1) ->
                fallback_runs (snd out) = fallback_runs w)
          /\ (forall all_files w1 a,
                get_repo (owner ++ raw "/" ++ repo_name) = Ret tt ->
                _get_all_files_recursive str_exn respond subpath w = (Ret all_files, w1) ->
                process_files str_exn all_files (mkAccum server [] 0) = Ret a ->
                fallback_runs (snd out)
                = if nonempty_result (acc_server a)
                  then fallback_runs w else S (fallback_runs w))).
Proof.
  intros str_exn get_repo respond server w out. subst out.
  unfold _extract_from_github_repo, try_except. split.
  - intros H. rewrite H. reflexivity.
  - intros owner repo_name subpath H. rewrite H.
    rewrite mbind_run, lift_run.
    split; [|split].
    + intros e He. rewrite He. reflexivity.
    + intros e w1 Hr Hf. rewrite Hr. cbv beta iota.
      rewrite mbind_run, Hf. cbn [snd].
      pose proof (keeps_get_all_files str_exn respond subpath w) as K.
      rewrite Hf in K. exact K.
    + intros all_files w1 a Hr Hf Hp. rewrite Hr. cbv beta iota.
      rewrite mbind_run, Hf. cbv beta iota.
      rewrite mbind_run, lift_run, Hp. cbv beta iota.
      pose proof (keeps_get_all_files str_exn respond subpath w) as K.
      rewrite Hf in K. cbn [snd] in K.
      pose proof (finish_extraction_fallback str_exn respond a subpath w1) as F.
      rewrite K in F.
      destruct (finish_extraction str_exn respond a subpath w1) as [[s|e|] w2];
        cbn [snd] in *; exact F.
Qed.

(** A run of the amended C3: the repository of [respond_demo] yields no
    declaration, so the fallback is entered once. *)
Lemma fallback_runs_iff_empty_witness :
  fallback_runs (snd (_extract_from_github_repo str_exn_demo get_repo_ok
                        respond_demo empty_server world0)) = 1.
Proof.
  pose proof (fallback_runs_iff_empty str_exn_demo get_repo_ok respond_demo
                empty_server world0) as T.
  cbv zeta in T. destruct T as [_ T].
  destruct (T (raw "acme") (raw "demo") None) as [_ [_ T3]];
    [vm_compute; reflexivity|].
  erewrite T3; [ | reflexivity | cbv; reflexivity | cbv; reflexivity ].
  reflexivity.
Defined.

End FallbackClaim.

(** ** Retries during the traversal *)

Section RetryClaim.
Import PyStr EnhancedToolExtractor Samples ScoreModel WorldFacts.
Local Open Scope Q_scope.

Ltac world_step H :=
  unfold get_contents, mbind, sleep, print, update_stats, modify;
  cbn -[str_of_nat Nat.pow Nat.mul Qnat app raw];
  rewrite H;
  cbn -[str_of_nat Nat.pow Nat.mul Qnat app raw].

(** C9, as stated, fails in its last part: the subtree [lib] is abandoned
    after three rate-limited attempts and the traversal goes on to
    [main.py], but the failure is only printed; the server comes back with
    no extraction log at all. *)
Lemma abandoned_subtree_counterexample :
  let out := _extract_from_github_repo str_exn_demo get_repo_ok respond_demo
               empty_server world0 in
  fst out = Ret empty_server
  /\ extraction_log empty_server = None
  /\ stdout (snd out) = [raw "Rate limit hit, waiting 60 seconds...";
                         raw "Rate limit hit, waiting 120 seconds...";
                         raw "Max retries exceeded for path lib"]
  /\ map fi_name (files (snd out)) = [raw "main.py"]
  /\ rate_limit_hits (extraction_stats (snd out)) = 3%nat.
Proof.
  cbv zeta. repeat split; vm_compute; reflexivity.
Qed.

(** C9, amended.  A directory whose three requests are all rate-limited is
    given up without an exception after waits of 60 and 120 seconds between
    the attempts (each attempt preceded by the one-second delay); the three
    hits are counted and the failure is printed.  The same holds for another
    API error, with waits of 1 and 2 seconds.  The list of files is left as
    it was, and nothing but the console and the counters records the
    failure. *)
Theorem exhausted_retries_abandon_subtree :
  forall (str_exn : exn -> text) (respond : nat -> text -> response)
         (remaining : nat) (path : text) (w : world),
    ((forall i, (i < max_retries)%nat ->
                respond (i + api_calls w)%nat path = Fails RateLimitExceededException) ->
     _traverse_directory str_exn respond (S remaining) path w
     = (Ret tt,
        mkWorld (max_retries + api_calls w)
          (sleeps w ++ [1; 60; 1; 120; 1])
          (stdout w ++ [raw "Rate limit hit, waiting 60 seconds...";
                        raw "Rate limit hit, waiting 120 seconds...";
                        raw "Max retries exceeded for path " ++ path])
          (mkStats (total_files_processed (extraction_stats w))
                   (successful_extractions (extraction_stats w))
                   (failed_extractions (extraction_stats w))
                   (max_retries + rate_limit_hits (extraction_stats w)))
          (files w) (fallback_runs w)))
    /\ ((forall i, (i < max_retries)%nat ->
                   respond (i + api_calls w)%nat path = Fails GithubException) ->
        _traverse_directory str_exn respond (S remaining) path w
        = (Ret tt,
           mkWorld (max_retries + api_calls w)
             (sleeps w ++ [1; 1; 1; 2; 1])
             (stdout w ++ [raw "Error accessing path " ++ path ++ raw ": "
                           ++ str_exn GithubException])
             (extraction_stats w)
             (files w) (fallback_runs w))).
Proof.
  intros str_exn respond remaining path w. unfold max_retries. split; intros H;
    pose proof (H 0%nat ltac:(lia)) as H0;
    pose proof (H 1%nat ltac:(lia)) as H1;
    pose proof (H 2%nat ltac:(lia)) as H2;
    destruct w as [calls sl out st fs fb]; simpl in H0, H1, H2; clear H;
    cbn -[str_of_nat Nat.pow Nat.mul Qnat app raw];
    world_step H0; world_step H1; world_step H2;
    rewrite <- !app_assoc; reflexivity.
Qed.

(** A run of the amended C9: every request is rate-limited. *)
Lemma exhausted_retries_abandon_subtree_witness :
  _traverse_directory str_exn_demo (fun _ _ => Fails RateLimitExceededException)
                      4 (raw "lib") world0
  = (Ret tt,
     mkWorld 3 [1; 60; 1; 120; 1]
       [raw "Rate limit hit, waiting 60 seconds...";
        raw "Rate limit hit, waiting 120 seconds...";
        raw "Max retries exceeded for path lib"]
       (mkStats 0 0 0 3) [] 0).
Proof.
  apply (proj1 (exhausted_retries_abandon_subtree str_exn_demo
                  (fun _ _ => Fails RateLimitExceededException) 3 (raw "lib") world0)).
  intros i Hi. reflexivity.
Defined.

End RetryClaim.

(** ** Extracted names *)

Module NameFacts.
Import PyStr PyStrFacts Re ReCheck ReFacts EnhancedToolExtractor ResFacts NameModel.

Lemma re_findall_good (fl : flags) (pat : text) (k : nat) (f : ascii -> bool) :
  pattern_ok fl pat k f = true ->
  forall s ms, re_findall fl pat s = Ret ms ->
  forall g, In g ms -> good f (fld (k - 1) g).
Proof.
  unfold pattern_ok, re_findall, re_compile. intros Hok s ms H g Hg.
  destruct (compile fl pat) as [p| |]; try discriminate.
  simpl in H. injection H as <-. exact (findall_ok p k f Hok s g Hg).
Qed.

Lemma re_search_good (fl : flags) (pat : text) (k : nat) (f : ascii -> bool) :
  pattern_ok fl pat k f = true ->
  forall s m, re_search fl pat s = Ret (Some m) ->
  exists t, group m k = Some t /\ good f t.
Proof.
  unfold pattern_ok, re_search, re_compile. intros Hok s m H.
  destruct (compile fl pat) as [p| |]; try discriminate.
  simpl in H. injection H as H. exact (search_ok p k f Hok s m H).
Qed.

(** Word characters are not whitespace. *)
Lemma word_not_space (c : ascii) : is_word c = true -> is_space c = false.
Proof.
  assert (H : forallb (fun c => implb (is_word c) (negb (is_space c))) all_ascii = true)
    by (vm_compute; reflexivity).
  rewrite forallb_forall in H. specialize (H c (all_ascii_complete c)).
  intros W. rewrite W in H. simpl in H. apply negb_true_iff. exact H.
Qed.

Lemma lstrip_word (t : text) : forallb is_word t = true -> lstrip_by is_space t = t.
Proof.
  destruct t as [|c t]; [reflexivity|]. simpl. rewrite andb_true_iff. intros [W _].
  rewrite (word_not_space c W). reflexivity.
Qed.

Lemma forallb_rev (f : ascii -> bool) (t : text) :
  forallb f t = true -> forallb f (rev t) = true.
Proof.
  rewrite !forallb_forall. intros H x Hx. apply H. apply in_rev. exact Hx.
Qed.

(** Stripping leaves an identifier as it is: it is not blank. *)
Lemma identifier_not_blank (n : text) : identifier n -> strip n = n /\ strip n <> [].
Proof.
  intros [Hne Hw]. assert (E : strip n = n).
  { unfold strip, strip_by, rstrip_by. rewrite (lstrip_word n Hw).
    rewrite (lstrip_word (rev n) (forallb_rev _ _ Hw)). apply rev_involutive. }
  split; [exact E | rewrite E; exact Hne].
Qed.

Lemma good_nonempty (f : ascii -> bool) (t : text) : good f t -> t <> [].
Proof. intros [H _]. exact H. Qed.

(** *** The patterns pass the checks *)

Lemma fastmcp_ok : pattern_ok re_DOTALL fastmcp_pattern 1 is_word = true.
Proof. vm_compute. reflexivity. Qed.
Lemma server_tool_ok : pattern_ok re_DOTALL server_tool_pattern 1 is_word = true.
Proof. vm_compute. reflexivity. Qed.
Lemma tool_ok : pattern_ok re_DOTALL tool_pattern 1 is_word = true.
Proof. vm_compute. reflexivity. Qed.
Lemma add_tool_ok : pattern_ok no_flags add_tool_pattern 1 not_quote = true.
Proof. vm_compute. reflexivity. Qed.

Lemma parse_python_eq (content : text) :
  _parse_python_content content =
  ltac:(let t := eval cbv delta [_parse_python_content] beta in
                 (_parse_python_content content) in exact t).
Proof. unfold _parse_python_content. reflexivity. Qed.

Lemma decorated_names (ms : list (list text)) :
  (forall g, In g ms -> good is_word (fld (1 - 1) g)) ->
  forall t, In t (map decorated_tool ms) -> identifier (tool_name t).
Proof.
  intros H t Ht. apply in_map_iff in Ht. destruct Ht as [g [<- Hg]]. exact (H g Hg).
Qed.

Lemma named_names (f : ascii -> bool) (i : nat) (ms : list (list text)) :
  (forall g, In g ms -> good f (fld i g)) ->
  forall t, In t (map (fun g => named_tool (fld i g)) ms) -> good f (tool_name t).
Proof.
  intros H t Ht. apply in_map_iff in Ht. destruct Ht as [g [<- Hg]]. exact (H g Hg).
Qed.

Lemma python_names (content : text) (ts : list MCPTool) (ps : list MCPPrompt)
    (rs : list MCPResource) :
  _parse_python_content content = Ret (ts, ps, rs) ->
  ps = [] /\ rs = []
  /\ exists decorated added,
       ts = decorated ++ added
       /\ (forall t, In t decorated -> identifier (tool_name t))
       /\ (forall t, In t added -> literal_text (tool_name t)).
Proof.
  intros H. rewrite parse_python_eq in H.
  apply bind_ret_inv in H. destruct H as [m1 [H1 H]].
  apply bind_ret_inv in H. destruct H as [m2 [H2 H]].
  apply bind_ret_inv in H. destruct H as [m3 [H3 H]].
  apply bind_ret_inv in H. destruct H as [m4 [H4 H]].
  injection H as <- <- <-. split; [reflexivity|]. split; [reflexivity|].
  exists (map decorated_tool m1 ++ map decorated_tool m2 ++ map decorated_tool m3),
         (map (fun g => named_tool (fld 0 g)) m4).
  split; [rewrite <- !app_assoc; reflexivity|]. split.
  - intros t Ht. apply in_app_or in Ht. destruct Ht as [Ht|Ht];
      [|apply in_app_or in Ht; destruct Ht as [Ht|Ht]];
      revert t Ht; apply decorated_names.
    + exact (re_findall_good _ _ _ _ fastmcp_ok _ _ H1).
    + exact (re_findall_good _ _ _ _ server_tool_ok _ _ H2).
    + exact (re_findall_good _ _ _ _ tool_ok _ _ H3).
  - apply (named_names not_quote 0).
    exact (re_findall_good _ _ _ _ add_tool_ok _ _ H4).
Qed.

(** *** C# and Java *)

Lemma cs_tool_ok : pattern_ok no_flags cs_tool_pattern 1 is_word = true.
Proof. vm_compute. reflexivity. Qed.
Lemma cs_mcp_tool_ok : pattern_ok no_flags cs_mcp_tool_pattern 1 is_word = true.
Proof. vm_compute. reflexivity. Qed.
Lemma java_tool_ok : pattern_ok no_flags java_tool_pattern 1 is_word = true.
Proof. vm_compute. reflexivity. Qed.
Lemma java_mcp_tool_ok : pattern_ok no_flags java_mcp_tool_pattern 1 is_word = true.
Proof. vm_compute. reflexivity. Qed.

Lemma parse_csharp_eq (content : text) :
  _parse_csharp_content content =
  ltac:(let t := eval cbv delta [_parse_csharp_content] beta in
                 (_parse_csharp_content content) in exact t).
Proof. unfold _parse_csharp_content. reflexivity. Qed.

Lemma parse_java_eq (content : text) :
  _parse_java_content content =
  ltac:(let t := eval cbv delta [_parse_java_content] beta in
                 (_parse_java_content content) in exact t).
Proof. unfold _parse_java_content. reflexivity. Qed.

Lemma csharp_names (content : text) (ts : list MCPTool) (ps : list MCPPrompt)
    (rs : list MCPResource) :
  _parse_csharp_content content = Ret (ts, ps, rs) ->
  ps = [] /\ rs = [] /\ forall t, In t ts -> identifier (tool_name t).
Proof.
  intros H. rewrite parse_csharp_eq in H.
  apply bind_ret_inv in H. destruct H as [m1 [H1 H]].
  apply bind_ret_inv in H. destruct H as [m2 [H2 H]].
  injection H as <- <- <-. split; [reflexivity|]. split; [reflexivity|].
  intros t Ht. apply in_app_or in Ht. destruct Ht as [Ht|Ht];
    revert t Ht; apply (named_names is_word 0).
  - exact (re_findall_good _ _ _ _ cs_tool_ok _ _ H1).
  - exact (re_findall_good _ _ _ _ cs_mcp_tool_ok _ _ H2).
Qed.

Lemma java_names (content : text) (ts : list MCPTool) (ps : list MCPPrompt)
    (rs : list MCPResource) :
  _parse_java_content content = Ret (ts, ps, rs) ->
  ps = [] /\ rs = [] /\ forall t, In t ts -> identifier (tool_name t).
Proof.
  intros H. rewrite parse_java_eq in H.
  apply bind_ret_inv in H. destruct H as [m1 [H1 H]].
  apply bind_ret_inv in H. destruct H as [m2 [H2 H]].
  injection H as <- <- <-. split; [reflexivity|]. split; [reflexivity|].
  intros t Ht. apply in_app_or in Ht. destruct Ht as [Ht|Ht];
    revert t Ht; apply (named_names is_word 0).
  - exact (re_findall_good _ _ _ _ java_tool_ok _ _ H1).
  - exact (re_findall_good _ _ _ _ java_mcp_tool_ok _ _ H2).
Qed.

(** *** The README miner *)

Lemma tool_patterns_ok :
  forallb (fun pat => pattern_ok no_flags pat 1 is_word) tool_patterns = true.
Proof. vm_compute. reflexivity. Qed.

Lemma mined_tools_from (matches : list (list text)) (t : MCPTool) :
  In t (mined_tools matches) -> exists g, In g matches /\ tool_name t = fld 0 g.
Proof.
  unfold mined_tools. rewrite in_flat_map. intros [g [Hg H]].
  destruct (keep_candidate (fld 0 g)); [|destruct H].
  destruct H as [<-|[]]. exists g. split; [exact Hg | reflexivity].
Qed.

Lemma markdown_names (content : text) (ts : list MCPTool) :
  _extract_tools_from_markdown content = Ret ts ->
  forall t, In t ts -> identifier (tool_name t).
Proof.
  intros H t Ht. rewrite extract_tools_from_markdown_eq in H.
  apply bind_ret_inv in H. destruct H as [sections [_ H]].
  destruct (concat_mapM_in _ _ _ H t Ht) as [sec [zs [_ [Hsec Hz]]]].
  destruct (concat_mapM_in _ _ _ Hsec t Hz) as [pat [ws [Hpat [Hfind Hw]]]].
  apply bind_ret_inv in Hfind. destruct Hfind as [matches [Hm Hr]].
  injection Hr as <-.
  destruct (mined_tools_from _ _ Hw) as [g [Hg ->]].
  pose proof tool_patterns_ok as Hok. rewrite forallb_forall in Hok.
  exact (re_findall_good _ _ _ _ (Hok pat Hpat) _ _ Hm g Hg).
Qed.

(** *** Go *)

Lemma const_ok : pattern_ok no_flags const_pattern 2 not_quote = true.
Proof. vm_compute. reflexivity. Qed.
Lemma direct_add_ok : pattern_ok no_flags direct_add_pattern 1 not_quote = true.
Proof. vm_compute. reflexivity. Qed.
Lemma go_struct_ok : pattern_ok re_DOTALL go_struct_pattern 1 not_quote = true.
Proof. vm_compute. reflexivity. Qed.

Lemma parse_go_eq (content : text) :
  _parse_go_content content =
  ltac:(let t := eval cbv delta [_parse_go_content] beta in
                 (_parse_go_content content) in exact t).
Proof. unfold _parse_go_content. reflexivity. Qed.

Lemma go_names (content : text) (ts : list MCPTool) (ps : list MCPPrompt)
    (rs : list MCPResource) :
  _parse_go_content content = Ret (ts, ps, rs) ->
  ps = [] /\ rs = [] /\ forall t, In t ts -> literal_text (tool_name t).
Proof.
  intros H. rewrite parse_go_eq in H.
  apply bind_ret_inv in H. destruct H as [m1 [H1 H]].
  apply bind_ret_inv in H. destruct H as [t1 [HT H]].
  apply bind_ret_inv in H. destruct H as [m2 [H2 H]].
  apply bind_ret_inv in H. destruct H as [m3 [H3 H]].
  injection H as <- <- <-. split; [reflexivity|]. split; [reflexivity|].
  intros t Ht. apply in_app_or in Ht. destruct Ht as [Ht|Ht];
    [|apply in_app_or in Ht; destruct Ht as [Ht|Ht]].
  - destruct (concat_mapM_in _ _ _ HT t Ht) as [g [zs [Hg [Hf Hz]]]].
    cbv zeta in Hf. apply bind_ret_inv in Hf. destruct Hf as [found [_ Hr]].
    injection Hr as <-. destruct found; [|destruct Hz].
    destruct Hz as [<-|[]].
    exact (re_findall_good _ _ _ _ const_ok _ _ H1 g Hg).
  - revert t Ht. apply (named_names not_quote 0).
    exact (re_findall_good _ _ _ _ direct_add_ok _ _ H2).
  - revert t Ht. apply (named_names not_quote 0).
    exact (re_findall_good _ _ _ _ go_struct_ok _ _ H3).
Qed.

(** *** Names that went through the resolver *)

Lemma tools_pattern1_eq (content : text) :
  tools_pattern1 content =
  ltac:(let t := eval cbv delta [tools_pattern1] beta in (tools_pattern1 content) in
        exact t).
Proof. unfold tools_pattern1. reflexivity. Qed.

Lemma nonempty_true (t : text) : nonempty t = true -> t <> [].
Proof. destruct t; [discriminate | intros _; discriminate]. Qed.

Lemma resolved_tool_names (content : text) (ts : list MCPTool) :
  tools_pattern1 content = Ret ts -> forall t, In t ts -> tool_name t <> [].
Proof.
  intros H t Ht. rewrite tools_pattern1_eq in H.
  apply bind_ret_inv in H. destruct H as [const_match [_ H]].
  destruct const_match as [cm|]; [|injection H as <-; destruct Ht].
  apply bind_ret_inv in H. destruct H as [tools_array [_ H]].
  apply bind_ret_inv in H. destruct H as [tool_matches [_ H]].
  destruct (concat_mapM_in _ _ _ H t Ht) as [g [zs [_ [Hf Hz]]]].
  cbv zeta in Hf. apply bind_ret_inv in Hf. destruct Hf as [tool_name [_ Hf]].
  destruct tool_name as [n|]; [|injection Hf as <-; destruct Hz].
  destruct (nonempty n) eqn:N; [|injection Hf as <-; destruct Hz].
  apply bind_ret_inv in Hf. destruct Hf as [parameters [_ Hf]].
  injection Hf as <-. destruct Hz as [<-|[]]. simpl. apply nonempty_true. exact N.
Qed.

Lemma extract_mcp_prompts_eq (content : text) :
  _extract_mcp_prompts content =
  ltac:(let t := eval cbv delta [_extract_mcp_prompts] beta in
                 (_extract_mcp_prompts content) in exact t).
Proof. unfold _extract_mcp_prompts. reflexivity. Qed.

Lemma prompt_names (content : text) (ps : list MCPPrompt) :
  _extract_mcp_prompts content = Ret ps -> forall p, In p ps -> prompt_name p <> [].
Proof.
  intros H t Ht. rewrite extract_mcp_prompts_eq in H.
  apply bind_ret_inv in H. destruct H as [prompts_match [_ H]].
  destruct prompts_match as [pm|]; [|injection H as <-; destruct Ht].
  apply bind_ret_inv in H. destruct H as [prompts_array [_ H]].
  apply bind_ret_inv in H. destruct H as [prompt_matches [_ H]].
  destruct (concat_mapM_in _ _ _ H t Ht) as [g [zs [_ [Hf Hz]]]].
  cbv zeta in Hf. apply bind_ret_inv in Hf. destruct Hf as [prompt_name [_ Hf]].
  destruct prompt_name as [n|]; [|injection Hf as <-; destruct Hz].
  destruct (nonempty n) eqn:N; [|injection Hf as <-; destruct Hz].
  apply bind_ret_inv in Hf. destruct Hf as [arguments [_ Hf]].
  injection Hf as <-. destruct Hz as [<-|[]]. simpl. apply nonempty_true. exact N.
Qed.

(** *** Resources *)

Lemma name_ok : pattern_ok no_flags name_pattern 1 not_quote = true.
Proof. vm_compute. reflexivity. Qed.

Lemma extract_mcp_resources_eq (content : text) :
  _extract_mcp_resources content =
  ltac:(let t := eval cbv delta [_extract_mcp_resources] beta in
                 (_extract_mcp_resources content) in exact t).
Proof. unfold _extract_mcp_resources. reflexivity. Qed.

Lemma resource_names (content : text) (rs : list MCPResource) :
  _extract_mcp_resources content = Ret rs ->
  forall r, In r rs -> resource_name r <> [].
Proof.
  intros H r Hr. rewrite extract_mcp_resources_eq in H.
  apply bind_ret_inv in H. destruct H as [resources_match [_ H]].
  apply bind_ret_inv in H. destruct H as [r1 [H1 H]].
  apply bind_ret_inv in H. destruct H as [template_match [_ H]].
  apply bind_ret_inv in H. destruct H as [r2 [H2 H]].
  injection H as <-. apply in_app_or in Hr. destruct Hr as [Hr|Hr].
  - destruct resources_match as [rm|]; [|injection H1 as <-; destruct Hr].
    apply bind_ret_inv in H1. destruct H1 as [digits [_ H1]].
    apply bind_ret_inv in H1. destruct H1 as [count [_ H1]].
    injection H1 as <-. apply in_map_iff in Hr. destruct Hr as [i [<- _]].
    discriminate.
  - destruct template_match as [tm|]; [|injection H2 as <-; destruct Hr].
    apply bind_ret_inv in H2. destruct H2 as [templates_content [_ H2]].
    apply bind_ret_inv in H2. destruct H2 as [uri_match [_ H2]].
    apply bind_ret_inv in H2. destruct H2 as [name_match [Hn H2]].
    apply bind_ret_inv in H2. destruct H2 as [desc_match [_ H2]].
    destruct uri_match as [um|]; [|injection H2 as <-; destruct Hr].
    destruct name_match as [nm|]; [|injection H2 as <-; destruct Hr].
    apply bind_ret_inv in H2. destruct H2 as [n [Hg H2]].
    apply bind_ret_inv in H2. destruct H2 as [u [_ H2]].
    injection H2 as <-. destruct Hr as [<-|[]]. simpl.
    destruct (re_search_good _ _ _ _ name_ok _ _ Hn) as [t [Ht G]].
    unfold group_text in Hg. rewrite Ht in Hg. injection Hg as <-.
    exact (good_nonempty _ _ G).
Qed.

End NameFacts.

Module CompileFacts.
Import PyStr Re ReCheck ReFacts EnhancedToolExtractor NameModel.

Lemma run_app (fl : flags) (a b : text) :
  forall st, run fl st (a ++ b) = cbind (run fl st a) (fun st' => run fl st' b).
Proof.
  induction a as [|c a IH]; intros st; simpl; [reflexivity|].
  destruct (step fl st c) as [st'| |]; simpl; [apply IH | reflexivity | reflexivity].
Qed.

(** In normal position a word character is a literal. *)
Lemma step_word (fl : flags) (st : pstate) (c : ascii) :
  is_word c = true -> ps_mode st = MNormal -> ps_brace st = BNone ->
  step fl st c = Compiled (push_atom (Chr c) st).
Proof.
  intros W Hm Hb. unfold step, step_normal. rewrite Hm, Hb. unfold step_plain.
  assert (P : forallb (fun c => implb (is_word c)
                 (negb (eqb_char c "\" || eqb_char c "." || eqb_char c "["
                        || eqb_char c "(" || eqb_char c ")" || eqb_char c "|"
                        || one_of "*+?" c || eqb_char c "^" || eqb_char c "$"
                        || eqb_char c "{"))) all_ascii = true)
    by (vm_compute; reflexivity).
  rewrite forallb_forall in P. specialize (P c (all_ascii_complete c)).
  rewrite W in P. simpl in P. apply negb_true_iff in P.
  repeat (apply orb_false_iff in P; destruct P as [P ?]).
  repeat match goal with H : _ = false |- _ => rewrite H; clear H end.
  reflexivity.
Qed.

Definition lit_items (w : text) : list item := map (fun c => (Chr c, QOne)) w.

(** The state after reading the word [w] in normal position. *)
Definition push_lits (w : text) (st : pstate) : pstate :=
  match w with
  | [] => st
  | _ => mkPstate (mkFrame (fr_kind (ps_cur st)) (fr_alts (ps_cur st))
                           (rev (lit_items w) ++ fr_seq (ps_cur st)))
                  (ps_stack st) MNormal LAtom BNone (ps_ngroups st)
  end.

Lemma run_word (fl : flags) (w : text) :
  forall st, forallb is_word w = true -> ps_mode st = MNormal -> ps_brace st = BNone ->
             run fl st w = Compiled (push_lits w st).
Proof.
  induction w as [|c w IH]; intros st W Hm Hb; [reflexivity|].
  simpl in W. apply andb_true_iff in W. destruct W as [Wc Ww].
  cbn [run]. rewrite (step_word fl st c Wc Hm Hb). cbn [cbind].
  rewrite (IH (push_atom (Chr c) st) Ww eq_refl eq_refl).
  destruct w as [|c' w]; [reflexivity|].
  unfold push_lits, push_atom, push_item. cbn [ps_cur ps_stack ps_ngroups fr_kind fr_alts fr_seq].
  do 2 f_equal. f_equal.
  change (lit_items (c :: c' :: w)) with ((Chr c, QOne) :: lit_items (c' :: w)).
  cbn [rev]. rewrite <- !app_assoc. reflexivity.
Qed.

Lemma groups_ok_mk_seq (ic : bool) (k : nat) (f : ascii -> bool) (l : list item) :
  groups_ok ic k f (mk_seq l) = forallb (fun it => groups_ok ic k f (item_regex it)) l.
Proof. induction l as [|it l IH]; [reflexivity|]. simpl. rewrite IH. reflexivity. Qed.

Lemma defines_mk_seq (k : nat) (l : list item) :
  defines k (mk_seq l) = existsb (fun it => defines k (item_regex it)) l.
Proof. induction l as [|it l IH]; [reflexivity|]. simpl. rewrite IH. reflexivity. Qed.

(** The items of [.*{.*?fn\s+(\w+)], latest first. *)
Definition impl_tail_items : list item :=
  Eval vm_compute in
    match run re_DOTALL ps_init (raw ".*{.*?fn\s+(\w+)") with
    | Compiled st => fr_seq (ps_cur st)
    | _ => []
    end.

(** The items of [impl.*], latest first. *)
Definition impl_head_items : list item :=
  Eval vm_compute in
    match run re_DOTALL ps_init (raw "impl.*") with
    | Compiled st => fr_seq (ps_cur st)
    | _ => []
    end.

Lemma run_impl_tail (seq0 : list item) :
  run re_DOTALL (mkPstate (mkFrame GTop [] seq0) [] MNormal LAtom BNone 0)
      (raw ".*{.*?fn\s+(\w+)")
  = Compiled (mkPstate (mkFrame GTop [] (impl_tail_items ++ seq0)) [] MNormal LAtom BNone 1).
Proof. vm_compute. reflexivity. Qed.

Lemma impl_pattern_ok (w : text) :
  good is_word w ->
  pattern_ok re_DOTALL (raw "impl.*" ++ w ++ raw ".*{.*?fn\s+(\w+)") 1 is_word = true.
Proof.
  intros [Hne Hw]. unfold pattern_ok, compile.
  rewrite run_app.
  change (run re_DOTALL ps_init (raw "impl.*"))
    with (Compiled (mkPstate (mkFrame GTop [] impl_head_items) [] MNormal LQuant BNone 0)).
  cbn [cbind]. rewrite run_app.
  rewrite (run_word re_DOTALL w
             (mkPstate (mkFrame GTop [] impl_head_items) [] MNormal LQuant BNone 0)
             Hw eq_refl eq_refl). cbn [cbind].
  destruct w as [|c w]; [congruence|].
  unfold push_lits. cbn [ps_cur ps_stack ps_ngroups fr_kind fr_alts fr_seq].
  rewrite run_impl_tail. cbn [cbind finish ps_mode ps_stack].
  unfold check. cbn [p_icase p_ast p_groups IGNORECASE re_DOTALL].
  unfold frame_regex. cbn [ps_cur fr_seq fr_alts rev app mk_alt].
  rewrite groups_ok_mk_seq, defines_mk_seq.
  rewrite !andb_true_iff. split; [split; [split|]|]; try reflexivity.
  - apply forallb_forall. intros it Hit. apply in_rev in Hit.
    apply in_app_or in Hit. destruct Hit as [Hit|Hit];
      [|apply in_app_or in Hit; destruct Hit as [Hit|Hit]].
    + assert (T : forallb (fun it => groups_ok false 1 is_word (item_regex it))
                    impl_tail_items = true) by (vm_compute; reflexivity).
      rewrite forallb_forall in T. exact (T it Hit).
    + apply in_rev in Hit. unfold lit_items in Hit. apply in_map_iff in Hit.
      destruct Hit as [x [<- _]]. reflexivity.
    + assert (T : forallb (fun it => groups_ok false 1 is_word (item_regex it))
                    impl_head_items = true) by (vm_compute; reflexivity).
      rewrite forallb_forall in T. exact (T it Hit).
  - apply existsb_exists.
    exists (Group 1 (Seq (Seq (Cls false [CWord]) (Star true (Cls false [CWord]))) Eps), QOne).
    split; [|reflexivity]. apply in_rev. rewrite rev_involutive.
    apply in_or_app. left. left. reflexivity.
Qed.

End CompileFacts.

Module RustFacts.
Import PyStr PyStrFacts Re ReCheck ReFacts EnhancedToolExtractor ResFacts NameModel
       NameFacts CompileFacts.

Lemma rust_struct_ok : pattern_ok re_DOTALL rust_struct_pattern 1 is_word = true.
Proof. vm_compute. reflexivity. Qed.
Lemma fn_ok : pattern_ok no_flags fn_pattern 2 is_word = true.
Proof. vm_compute. reflexivity. Qed.

Lemma parse_rust_eq (content : text) :
  _parse_rust_content content =
  ltac:(let t := eval cbv delta [_parse_rust_content] beta in
                 (_parse_rust_content content) in exact t).
Proof. unfold _parse_rust_content. reflexivity. Qed.

Lemma rust_names (content : text) (ts : list MCPTool) (ps : list MCPPrompt)
    (rs : list MCPResource) :
  _parse_rust_content content = Ret (ts, ps, rs) ->
  rs = []
  /\ (forall t, In t ts -> identifier (tool_name t))
  /\ (forall p, In p ps -> identifier (prompt_name p)).
Proof.
  intros H. rewrite parse_rust_eq in H.
  apply bind_ret_inv in H. destruct H as [struct_matches [H1 H]].
  apply bind_ret_inv in H. destruct H as [tools1 [HT H]].
  apply bind_ret_inv in H. destruct H as [fn_matches [H2 H]].
  injection H as <- <- <-. split; [reflexivity|].
  pose proof (re_findall_good _ _ _ _ fn_ok _ _ H2) as F. split.
  - intros t Ht. apply in_app_or in Ht. destruct Ht as [Ht|Ht].
    + destruct (concat_mapM_in _ _ _ HT t Ht) as [g [zs [Hg [Hf Hz]]]].
      cbv zeta in Hf. apply bind_ret_inv in Hf. destruct Hf as [impl_matches [Hi Hr]].
      injection Hr as <-. apply in_map_iff in Hz. destruct Hz as [h [<- Hh]].
      pose proof (re_findall_good _ _ _ _ rust_struct_ok _ _ H1 g Hg) as S.
      exact (re_findall_good _ _ _ _ (impl_pattern_ok _ S) _ _ Hi h Hh).
    + apply in_flat_map in Ht. destruct Ht as [g [Hg Ht]].
      destruct (eqb (fld 0 g) (raw "tool")); [|destruct Ht].
      destruct Ht as [<-|[]]. exact (F g Hg).
  - intros p Hp. apply in_flat_map in Hp. destruct Hp as [g [Hg Hp]].
    destruct (eqb (fld 0 g) (raw "tool")); [destruct Hp|].
    destruct (eqb (fld 0 g) (raw "prompt")); [|destruct Hp].
    destruct Hp as [<-|[]]. exact (F g Hg).
Qed.
End RustFacts.

Section NameClaim.
Import PyStr EnhancedToolExtractor Samples NameModel NameFacts RustFacts.

(** C1, as stated, fails: [server.add_tool(" ", handler)] yields a tool
    whose name is one space, which is empty once stripped. *)
Lemma blank_name_counterexample :
  _parse_python_content py_blank_name = Ret ([mkTool (raw " ") None []], [], [])
  /\ strip (raw " ") = []
  /\ ~ (0 < length (strip (raw " "))).
Proof.
  split; [vm_compute; reflexivity|]. split; [reflexivity|].
  simpl. lia.
Qed.

(** C1, amended.  The names produced by the Python, Go, Rust, C# and Java
    parsers, by the tool pattern that resolves indirect names, by the prompt
    and resource extractors and by the README miner are non-empty.  Those
    captured as identifiers (the Python decorator patterns, Rust, C#, Java
    and the README miner) consist of word characters only, and stripping
    leaves them as they are.  Names taken from quoted strings are only known
    to be non-empty and free of quotation marks. *)
Theorem extracted_names_not_empty :
  (forall content ts ps rs,
     _parse_python_content content = Ret (ts, ps, rs) ->
     ps = [] /\ rs = []
     /\ exists decorated added,
          ts = decorated ++ added
          /\ (forall t, In t decorated -> identifier (tool_name t))
          /\ (forall t, In t added -> literal_text (tool_name t)))
  /\ (forall content ts ps rs,
        _parse_go_content content = Ret (ts, ps, rs) ->
        ps = [] /\ rs = [] /\ forall t, In t ts -> literal_text (tool_name t))
  /\ (forall content ts ps rs,
        _parse_rust_content content = Ret (ts, ps, rs) ->
        rs = []
        /\ (forall t, In t ts -> identifier (tool_name t))
        /\ (forall p, In p ps -> identifier (prompt_name p)))
  /\ (forall content ts ps rs,
        _parse_csharp_content content = Ret (ts, ps, rs) ->
        ps = [] /\ rs = [] /\ forall t, In t ts -> identifier (tool_name t))
  /\ (forall content ts ps rs,
        _parse_java_content content = Ret (ts, ps, rs) ->
        ps = [] /\ rs = [] /\ forall t, In t ts -> identifier (tool_name t))
  /\ (forall content ts,
        _extract_tools_from_markdown content = Ret ts ->
        forall t, In t ts -> identifier (tool_name t))
  /\ (forall content ts,
        tools_pattern1 content = Ret ts -> forall t, In t ts -> tool_name t <> [])
  /\ (forall content ps,
        _extract_mcp_prompts content = Ret ps ->
        forall p, In p ps -> prompt_name p <> [])
  /\ (forall content rs,
        _extract_mcp_resources content = Ret rs ->
        forall r, In r rs -> resource_name r <> [])
  /\ (forall n, identifier n -> strip n = n /\ 0 < length (strip n))
  /\ (forall n, literal_text n -> 0 < length n).
Proof.
  split; [exact python_names|].
  split; [exact go_names|].
  split; [exact rust_names|].
  split; [exact csharp_names|].
  split; [exact java_names|].
  split; [exact markdown_names|].
  split; [exact resolved_tool_names|].
  split; [exact prompt_names|].
  split; [exact resource_names|].
  split.
  - intros n Hn. destruct (identifier_not_blank n Hn) as [E Hne].
    split; [exact E|]. destruct (strip n); [congruence | simpl; lia].
  - intros n [Hne _]. destruct n; [congruence | simpl; lia].
Qed.

(** A run of the amended C1 on a Python file with one decorated tool. *)
Lemma extracted_names_not_empty_witness :
  _parse_python_content py_decorated = Ret ([mkTool (raw "hello") None []], [], [])
  /\ exists decorated added,
       [mkTool (raw "hello") None []] = decorated ++ added
       /\ (forall t, In t decorated -> identifier (tool_name t))
       /\ (forall t, In t added -> literal_text (tool_name t)).
Proof.
  assert (E : _parse_python_content py_decorated
              = Ret ([mkTool (raw "hello") None []], [], []))
    by (vm_compute; reflexivity).
  split; [exact E|].
  exact (proj2 (proj2 (proj1 extracted_names_not_empty py_decorated _ _ _ E))).
Defined.

End NameClaim.

(** * Further properties of the extractor and of its caller *)

(** ** The outcome monad *)

Module MonadFacts.
Import EnhancedToolExtractor.

Lemma bind_Ret {A B} (a : A) (f : A -> res B) : bind (Ret a) f = f a.
Proof. reflexivity. Qed.

Lemma bind_Raise {A B} (e : exn) (f : A -> res B) : bind (Raise e) f = Raise e.
Proof. reflexivity. Qed.

Lemma bind_Stuck {A B} (f : A -> res B) : bind Stuck f = Stuck.
Proof. reflexivity. Qed.

Lemma try_except_run {A} (c : M A) (h : exn -> M A) (w : world) :
  try_except c h w = match c w with
                     | (Raise e, w') => h e w'
                     | other => other
                     end.
Proof. reflexivity. Qed.

Lemma mret_run {A} (a : A) (w : world) : mret a w = (Ret a, w).
Proof. reflexivity. Qed.

End MonadFacts.

Module BoundFacts.
Import PyStr Re ReCheck ReFacts.

Section Bound.
Variable icase : bool.
Variable total : nat.
Variable k : nat.

(** A successful run of [exec r] binds group [k] when [r] defines it. *)
Definition run_bound (r : regex) : Prop :=
  forall s c k0 res,
    exec icase total r s c k0 = Some res ->
    exists s' c',
      (bound k c \/ defines k r = true -> bound k c') /\ k0 s' c' = Some res.

Lemma run_bound_leaf (r : regex) :
  (forall s c k0, exec icase total r s c k0 =
     match s with
     | x :: s' => if char_test icase r x then k0 s' c else None
     | [] => None
     end) ->
  defines k r = false -> run_bound r.
Proof.
  intros E D s c k0 res H. rewrite E in H.
  destruct s as [|x s]; [discriminate|].
  destruct (char_test icase r x); [|discriminate].
  exists s, c. split; [|exact H].
  intros [B|B]; [exact B | rewrite D in B; discriminate].
Qed.

Lemma run_bound_empty (r : regex) :
  (forall s c k0 res, exec icase total r s c k0 = Some res -> k0 s c = Some res) ->
  defines k r = false -> run_bound r.
Proof.
  intros E D s c k0 res H. apply E in H. exists s, c. split; [|exact H].
  intros [B|B]; [exact B | rewrite D in B; discriminate].
Qed.

Lemma star_bound (g : bool) (a : regex) :
  run_bound a ->
  forall fuel s c k0 res,
    star_loop (exec icase total a) g fuel s c k0 = Some res ->
    exists s' c', (bound k c -> bound k c') /\ k0 s' c' = Some res.
Proof.
  intros IH fuel. induction fuel as [|fuel IHf]; intros s c k0 res H.
  - simpl in H. exists s, c. split; auto.
  - cbn [star_loop] in H.
    assert (Stop : k0 s c = Some res ->
                   exists s' c', (bound k c -> bound k c') /\ k0 s' c' = Some res).
    { intros E. exists s, c. split; auto. }
    assert (Again : exec icase total a s c
                      (fun s' c' => if Nat.ltb (length s') (length s)
                                    then star_loop (exec icase total a) g fuel s' c' k0
                                    else None) = Some res ->
                    exists s' c', (bound k c -> bound k c') /\ k0 s' c' = Some res).
    { intros E. destruct (IH _ _ _ _ E) as [s1 [c1 [B1 K1]]].
      destruct (Nat.ltb (length s1) (length s)); [|discriminate].
      destruct (IHf _ _ _ _ K1) as [s2 [c2 [B2 K2]]].
      exists s2, c2. split; [|exact K2]. intros B. apply B2, B1. left. exact B. }
    destruct g; apply orelse_inv in H; destruct H as [H|[_ H]]; auto.
Qed.

Theorem exec_bound (r : regex) : run_bound r.
Proof.
  induction r as [ |x| | |neg items|a IHa b IHb|a IHa b IHb|g a IHa|n a IHa|a IHa| | ].
  - apply run_bound_empty; auto.
  - apply run_bound_leaf; auto.
  - apply run_bound_leaf; auto.
  - apply run_bound_leaf; auto.
  - apply run_bound_leaf; auto.
  - intros s c k0 res H. cbn [exec] in H.
    destruct (IHa _ _ _ _ H) as [s1 [c1 [B1 K1]]].
    destruct (IHb _ _ _ _ K1) as [s2 [c2 [B2 K2]]].
    exists s2, c2. split; [|exact K2].
    cbn [defines]. rewrite orb_true_iff. intros [B|[B|B]]; apply B2; auto.
  - intros s c k0 res H. cbn [exec] in H.
    apply orelse_inv in H. destruct H as [E|[_ H]].
    + destruct (IHa _ _ _ _ E) as [s1 [c1 [B1 K1]]].
      exists s1, c1. split; [|exact K1].
      cbn [defines]. rewrite andb_true_iff. intros [B|[B _]]; apply B1; auto.
    + destruct (IHb _ _ _ _ H) as [s1 [c1 [B1 K1]]].
      exists s1, c1. split; [|exact K1].
      cbn [defines]. rewrite andb_true_iff. intros [B|[_ B]]; apply B1; auto.
  - intros s c k0 res H. cbn [exec] in H.
    destruct (star_bound g a IHa _ _ _ _ _ H) as [s1 [c1 [B1 K1]]].
    exists s1, c1. split; [|exact K1].
    cbn [defines]. intros [B|B]; [auto | discriminate].
  - intros s c k0 res H. cbn [exec] in H.
    destruct (IHa _ _ _ _ H) as [s1 [c1 [B1 K1]]].
    eexists s1, _. split; [|exact K1].
    cbn [defines]. unfold bound. cbn [cap_lookup].
    destruct (Nat.eqb n k); [intros _; discriminate|].
    cbn [orb]. exact B1.
  - intros s c k0 res H. cbn [exec] in H.
    destruct (exec icase total a s c (fun s' c' => Some (s', c'))) as [[s1 c1]|] eqn:E;
      [|discriminate].
    destruct (IHa _ _ _ _ E) as [s2 [c2 [B2 K2]]].
    injection K2 as -> ->.
    exists s, c1. split; [|exact H]. exact B2.
  - apply run_bound_empty; auto. intros s c k0 res H. cbn [exec] in H.
    destruct (Nat.eqb (length s) total); [exact H | discriminate].
  - apply run_bound_empty; auto. intros s c k0 res H. cbn [exec] in H.
    destruct s as [|x [|y s]]; try exact H; try discriminate.
    destruct (eqb_char x newline); [exact H | discriminate].
Qed.

End Bound.

(** A match of a pattern that defines group [k] binds it. *)
Lemma exec_at_defined (p : pattern) (k total : nat) (s rest : text) (c : caps) :
  defines k (p_ast p) = true ->
  exec_at (p_icase p) total (p_ast p) s = Some (rest, c) ->
  exists t, cap_lookup k c = Some t.
Proof.
  intros D E. unfold exec_at in E.
  destruct (exec_bound (p_icase p) total k (p_ast p) _ _ _ _ E) as [s' [c' [B K]]].
  injection K as _ <-.
  assert (Bc : bound k c') by (apply B; right; exact D).
  unfold bound in Bc. destruct (cap_lookup k c') as [t|]; [exists t; reflexivity | congruence].
Qed.

Lemma search_from_defined (p : pattern) (k total : nat) (s : text) :
  defines k (p_ast p) = true ->
  forall pos m, search_from p total pos s = Some m -> exists t, group m k = Some t.
Proof.
  intros D. induction s as [|x s IH]; intros pos m H; cbn [search_from] in H;
    destruct (exec_at (p_icase p) total (p_ast p) _) as [[rest c]|] eqn:E.
  - injection H as <-. exact (exec_at_defined _ _ _ _ _ _ D E).
  - discriminate.
  - injection H as <-. exact (exec_at_defined _ _ _ _ _ _ D E).
  - exact (IH _ _ H).
Qed.

Lemma search_defined (p : pattern) (k : nat) (s : text) (m : rmatch) :
  defines k (p_ast p) = true -> search p s = Some m -> exists t, group m k = Some t.
Proof. intros D. apply search_from_defined. exact D. Qed.

End BoundFacts.

Module InterpFacts.
Import PyStr PyStrFacts Re ReCheck ReFacts EnhancedToolExtractor ResFacts NameModel
       NameFacts CompileFacts BoundFacts.

(** *** Escaped text compiles to literals *)

Lemma escape_atom_special (c : ascii) :
  special c = true -> escape_atom c = Compiled (Chr c).
Proof.
  assert (P : forallb (fun c => implb (special c)
                 (match escape_atom c with
                  | Compiled (Chr x) => eqb_char x c
                  | _ => false
                  end)) all_ascii = true)
    by (vm_compute; reflexivity).
  rewrite forallb_forall in P. specialize (P c (all_ascii_complete c)).
  intros S. rewrite S in P. simpl in P.
  destruct (escape_atom c) as [r| |]; try discriminate.
  destruct r; try discriminate. apply eqb_char_eq in P. subst. reflexivity.
Qed.

Lemma step_backslash (fl : flags) (st : pstate) :
  ps_mode st = MNormal -> ps_brace st = BNone ->
  step fl st "\" = Compiled (set_mode MEscape st).
Proof.
  intros Hm Hb. unfold step, step_normal. rewrite Hm, Hb. reflexivity.
Qed.

Lemma step_escaped (fl : flags) (st : pstate) (c : ascii) :
  special c = true ->
  step fl (set_mode MEscape st) c = Compiled (push_atom (Chr c) st).
Proof.
  intros S. unfold step. cbn [set_mode ps_mode].
  rewrite (escape_atom_special c S). reflexivity.
Qed.

(** In normal position a character that [re.escape] leaves alone is a literal. *)
Lemma step_unspecial (fl : flags) (st : pstate) (c : ascii) :
  special c = false -> ps_mode st = MNormal -> ps_brace st = BNone ->
  step fl st c = Compiled (push_atom (Chr c) st).
Proof.
  intros W Hm Hb. unfold step, step_normal. rewrite Hm, Hb. unfold step_plain.
  assert (P : forallb (fun c => implb (negb (special c))
                 (negb (eqb_char c "\" || eqb_char c "." || eqb_char c "["
                        || eqb_char c "(" || eqb_char c ")" || eqb_char c "|"
                        || one_of "*+?" c || eqb_char c "^" || eqb_char c "$"
                        || eqb_char c "{"))) all_ascii = true)
    by (vm_compute; reflexivity).
  rewrite forallb_forall in P. specialize (P c (all_ascii_complete c)).
  rewrite W in P. simpl in P. apply negb_true_iff in P.
  repeat (apply orb_false_iff in P; destruct P as [P ?]).
  repeat match goal with H : _ = false |- _ => rewrite H; clear H end.
  reflexivity.
Qed.

Lemma push_lits_cons (c : ascii) (w : text) (st : pstate) :
  push_lits w (push_atom (Chr c) st) = push_lits (c :: w) st.
Proof.
  destruct w as [|c' w]; [reflexivity|].
  unfold push_lits, push_atom, push_item.
  cbn [ps_cur ps_stack ps_ngroups fr_kind fr_alts fr_seq].
  change (lit_items (c :: c' :: w)) with ((Chr c, QOne) :: lit_items (c' :: w)).
  cbn [rev]. rewrite <- !app_assoc. reflexivity.
Qed.

(** The state after reading [re.escape(t)] in normal position. *)
Lemma run_escape (fl : flags) (t : text) :
  forall st, ps_mode st = MNormal -> ps_brace st = BNone ->
             run fl st (escape t) = Compiled (push_lits t st).
Proof.
  induction t as [|c t IH]; intros st Hm Hb; [reflexivity|].
  change (escape (c :: t))
    with ((if special c then ["\"%char; c] else [c]) ++ escape t).
  destruct (special c) eqn:S.
  - cbn [app run]. rewrite (step_backslash fl st Hm Hb). cbn [cbind].
    rewrite (step_escaped fl st c S). cbn [cbind].
    rewrite (IH (push_atom (Chr c) st) eq_refl eq_refl).
    rewrite push_lits_cons. reflexivity.
  - cbn [app run]. rewrite (step_unspecial fl st c S Hm Hb). cbn [cbind].
    rewrite (IH (push_atom (Chr c) st) eq_refl eq_refl).
    rewrite push_lits_cons. reflexivity.
Qed.

(** *** A text put between two parts of a pattern *)

(** A state at top level, outside any group. *)
Definition top (items : list item) (l : last) (n : nat) : pstate :=
  mkPstate (mkFrame GTop [] items) [] MNormal l BNone n.

Definition interp_ast (before : list item) (w : text) (after : list item) : regex :=
  mk_seq (rev (after ++ rev (lit_items w) ++ before)).

(** Pattern [P ++ enc ++ S], where [enc] reads as the literal text [w]. *)
Lemma compile_interp (fl : flags) (P S enc w : text) (before after : list item)
    (lP lS : last) (n : nat) :
  run fl ps_init P = Compiled (top before lP 0) ->
  (forall items, run fl (top items LAtom 0) S = Compiled (top (after ++ items) lS n)) ->
  w <> [] ->
  run fl (top before lP 0) enc = Compiled (push_lits w (top before lP 0)) ->
  compile fl (P ++ enc ++ S)
  = Compiled (mkPattern (interp_ast before w after) n (IGNORECASE fl)).
Proof.
  intros HP HS Hw He. unfold compile. rewrite run_app, HP. cbn [cbind].
  rewrite run_app, He. cbn [cbind].
  destruct w as [|c w]; [congruence|].
  unfold push_lits, top. cbn [ps_cur ps_stack ps_ngroups fr_kind fr_alts fr_seq].
  fold (top (rev (lit_items (c :: w)) ++ before) LAtom 0).
  rewrite HS. reflexivity.
Qed.

Lemma forallb_rev_items (f : item -> bool) (l : list item) :
  forallb f (rev l) = forallb f l.
Proof.
  induction l as [|x l IH]; [reflexivity|].
  cbn [rev]. rewrite forallb_app, IH. simpl. rewrite andb_true_r. apply andb_comm.
Qed.

Lemma existsb_rev_items (f : item -> bool) (l : list item) :
  existsb f (rev l) = existsb f l.
Proof.
  induction l as [|x l IH]; [reflexivity|].
  cbn [rev]. rewrite existsb_app, IH. simpl. rewrite orb_false_r. apply orb_comm.
Qed.

Lemma lit_items_groups_ok (ic : bool) (k : nat) (f : ascii -> bool) (w : text) :
  forallb (fun it => groups_ok ic k f (item_regex it)) (lit_items w) = true.
Proof. induction w as [|c w IH]; [reflexivity | exact IH]. Qed.

Lemma interp_groups_ok (ic : bool) (k : nat) (f : ascii -> bool)
    (before after : list item) (w : text) :
  forallb (fun it => groups_ok ic k f (item_regex it)) before = true ->
  forallb (fun it => groups_ok ic k f (item_regex it)) after = true ->
  groups_ok ic k f (interp_ast before w after) = true.
Proof.
  intros Hb Ha. unfold interp_ast.
  rewrite groups_ok_mk_seq, forallb_rev_items, !forallb_app, forallb_rev_items.
  rewrite Ha, Hb, lit_items_groups_ok. reflexivity.
Qed.

Lemma interp_defines (k : nat) (before after : list item) (w : text) :
  existsb (fun it => defines k (item_regex it)) after = true ->
  defines k (interp_ast before w after) = true.
Proof.
  intros Ha. unfold interp_ast.
  rewrite defines_mk_seq, existsb_rev_items, existsb_app, Ha. reflexivity.
Qed.

(** *** Patterns that compile *)

Definition compiles (fl : flags) (pat : text) : bool :=
  match compile fl pat with
  | Compiled _ => true
  | _ => false
  end.

(** The pattern compiles and defines group [k]. *)
Definition pattern_defines (fl : flags) (pat : text) (k : nat) : bool :=
  match compile fl pat with
  | Compiled p => defines k (p_ast p)
  | _ => false
  end.

Lemma pattern_defines_compiles (fl : flags) (pat : text) (k : nat) :
  pattern_defines fl pat k = true -> compiles fl pat = true.
Proof. unfold pattern_defines, compiles. destruct (compile fl pat); auto. Qed.

Lemma pattern_ok_compiles (fl : flags) (pat : text) (k : nat) (f : ascii -> bool) :
  pattern_ok fl pat k f = true -> compiles fl pat = true.
Proof. unfold pattern_ok, compiles. destruct (compile fl pat); auto. Qed.

Lemma pattern_ok_defines (fl : flags) (pat : text) (k : nat) (f : ascii -> bool) :
  pattern_ok fl pat k f = true -> pattern_defines fl pat k = true.
Proof.
  unfold pattern_ok, pattern_defines, check. destruct (compile fl pat); auto.
  rewrite !andb_true_iff. tauto.
Qed.

Lemma re_findall_ret (fl : flags) (pat s : text) :
  compiles fl pat = true -> exists ms, re_findall fl pat s = Ret ms.
Proof.
  unfold compiles, re_findall, re_compile. destruct (compile fl pat) as [p| |];
    try discriminate. intros _. eexists. reflexivity.
Qed.

Lemma re_search_ret (fl : flags) (pat s : text) :
  compiles fl pat = true -> exists m, re_search fl pat s = Ret m.
Proof.
  unfold compiles, re_search, re_compile. destruct (compile fl pat) as [p| |];
    try discriminate. intros _. eexists. reflexivity.
Qed.

Lemma re_sub_ret (pat repl s : text) :
  compiles no_flags pat = true -> exists t, re_sub pat repl s = Ret t.
Proof.
  unfold compiles, re_sub, re_compile. destruct (compile no_flags pat) as [p| |];
    try discriminate. intros _. eexists. reflexivity.
Qed.

(** [m.group(k)] is a string when the pattern defines group [k]. *)
Lemma group_text_ret (fl : flags) (pat s : text) (k : nat) (m : rmatch) :
  pattern_defines fl pat k = true ->
  re_search fl pat s = Ret (Some m) -> exists t, group_text m k = Ret t.
Proof.
  unfold pattern_defines, re_search, re_compile. intros D H.
  destruct (compile fl pat) as [p| |]; try discriminate.
  simpl in H. injection H as H.
  destruct (search_defined p k s m D H) as [t Ht].
  exists t. unfold group_text. rewrite Ht. reflexivity.
Qed.

Lemma concat_mapM_ret {A B} (f : A -> res (list B)) (l : list A) :
  (forall x, In x l -> exists ys, f x = Ret ys) -> exists zs, concat_mapM f l = Ret zs.
Proof.
  induction l as [|x l IH]; intros H; simpl.
  - eexists. reflexivity.
  - destruct (H x (or_introl eq_refl)) as [ys ->].
    destruct IH as [zs ->]; [intros y Hy; apply H; right; exact Hy|].
    simpl. eexists. reflexivity.
Qed.

End InterpFacts.

Module TotalFacts.
Import PyStr PyStrFacts Re ReCheck ReFacts EnhancedToolExtractor ResFacts NameModel
       NameFacts CompileFacts RustFacts BoundFacts InterpFacts.

(** A pattern with [re.escape(t)] in it compiles whatever [t] is. *)
Lemma escaped_compiles (fl : flags) (P S : text) (before after : list item)
    (lP lS : last) (n : nat) :
  run fl ps_init P = Compiled (top before lP 0) ->
  (forall items, run fl (top items LAtom 0) S = Compiled (top (after ++ items) lS n)) ->
  compiles fl (P ++ S) = true ->
  forall t, compiles fl (P ++ escape t ++ S) = true.
Proof.
  intros HP HS H0 t. destruct t as [|c t]; [exact H0|].
  unfold compiles.
  rewrite (compile_interp fl P S (escape (c :: t)) (c :: t) before after lP lS n HP HS);
    [reflexivity | discriminate | apply run_escape; reflexivity].
Qed.

(** A pattern with a word in it compiles. *)
Lemma word_compiles (fl : flags) (P S : text) (before after : list item)
    (lP lS : last) (n : nat) :
  run fl ps_init P = Compiled (top before lP 0) ->
  (forall items, run fl (top items LAtom 0) S = Compiled (top (after ++ items) lS n)) ->
  forall w, good is_word w ->
  compile fl (P ++ w ++ S)
  = Compiled (mkPattern (interp_ast before w after) n (IGNORECASE fl)).
Proof.
  intros HP HS w [Hne Hw].
  apply (compile_interp fl P S w w before after lP lS n HP HS Hne).
  apply run_word; [exact Hw | reflexivity | reflexivity].
Qed.

Lemma findall_static (fl : flags) (pat : text) (k : nat) (f : ascii -> bool) (s : text) :
  pattern_ok fl pat k f = true -> exists ms, re_findall fl pat s = Ret ms.
Proof. intros H. apply re_findall_ret. exact (pattern_ok_compiles _ _ _ _ H). Qed.

Lemma bind_returns {A B} (x : res A) (f : A -> res B) :
  (exists a, x = Ret a) -> (forall a, exists b, f a = Ret b) -> exists b, bind x f = Ret b.
Proof. intros [a ->] H. exact (H a). Qed.

Lemma bind_returns_eq {A B} (x : res A) (f : A -> res B) :
  (exists a, x = Ret a) -> (forall a, x = Ret a -> exists b, f a = Ret b) ->
  exists b, bind x f = Ret b.
Proof. intros [a E] H. rewrite E. exact (H a E). Qed.

Lemma ret_returns {A} (a : A) : exists b, Ret a = Ret b.
Proof. exists a. reflexivity. Qed.

Lemma python_returns (content : text) : exists p, _parse_python_content content = Ret p.
Proof.
  rewrite parse_python_eq.
  apply bind_returns; [exact (findall_static _ _ _ _ content fastmcp_ok) | intros m1].
  apply bind_returns; [exact (findall_static _ _ _ _ content server_tool_ok) | intros m2].
  apply bind_returns; [exact (findall_static _ _ _ _ content tool_ok) | intros m3].
  apply bind_returns; [exact (findall_static _ _ _ _ content add_tool_ok) | intros m4].
  apply ret_returns.
Qed.

Lemma csharp_returns (content : text) : exists p, _parse_csharp_content content = Ret p.
Proof.
  rewrite parse_csharp_eq.
  apply bind_returns; [exact (findall_static _ _ _ _ content cs_tool_ok) | intros m1].
  apply bind_returns; [exact (findall_static _ _ _ _ content cs_mcp_tool_ok) | intros m2].
  apply ret_returns.
Qed.

Lemma java_returns (content : text) : exists p, _parse_java_content content = Ret p.
Proof.
  rewrite parse_java_eq.
  apply bind_returns; [exact (findall_static _ _ _ _ content java_tool_ok) | intros m1].
  apply bind_returns; [exact (findall_static _ _ _ _ content java_mcp_tool_ok) | intros m2].
  apply ret_returns.
Qed.

Lemma tool_sections_compiles : compiles re_DOTALL_IGNORECASE tool_sections_pattern = true.
Proof. vm_compute. reflexivity. Qed.

Lemma markdown_returns (content : text) :
  exists ts, _extract_tools_from_markdown content = Ret ts.
Proof.
  rewrite extract_tools_from_markdown_eq.
  apply bind_returns; [exact (re_findall_ret _ _ content tool_sections_compiles) | intros secs].
  apply concat_mapM_ret. intros sec _.
  apply concat_mapM_ret. intros pat Hpat.
  pose proof tool_patterns_ok as Hok. rewrite forallb_forall in Hok.
  apply bind_returns; [exact (findall_static _ _ _ _ (fld 0 sec) (Hok pat Hpat)) | intros ms].
  apply ret_returns.
Qed.

(** *** Rust *)

Lemma rust_returns (content : text) : exists p, _parse_rust_content content = Ret p.
Proof.
  rewrite parse_rust_eq.
  apply bind_returns_eq; [exact (findall_static _ _ _ _ content rust_struct_ok) | intros m1 E1].
  apply bind_returns.
  - apply concat_mapM_ret. intros g Hg.
    pose proof (re_findall_good _ _ _ _ rust_struct_ok _ _ E1 g Hg) as S.
    apply bind_returns; [exact (findall_static _ _ _ _ content (impl_pattern_ok _ S)) | intros ms].
    apply ret_returns.
  - intros tools1.
    apply bind_returns; [exact (findall_static _ _ _ _ content fn_ok) | intros m2].
    apply ret_returns.
Qed.

(** *** Go *)

Definition go_before : list item :=
  Eval vm_compute in
    match run no_flags ps_init (raw "s\.AddTool\s*\(\s*\w*\.?") with
    | Compiled st => fr_seq (ps_cur st)
    | _ => []
    end.

Lemma go_add_tool_compiles (const_name : text) :
  compiles no_flags (raw "s\.AddTool\s*\(\s*\w*\.?" ++ escape const_name) = true.
Proof.
  rewrite <- (app_nil_r (escape const_name)).
  apply (escaped_compiles no_flags (raw "s\.AddTool\s*\(\s*\w*\.?") [] go_before []
           LQuant LAtom 0).
  - vm_compute. reflexivity.
  - intros items. reflexivity.
  - vm_compute. reflexivity.
Qed.

Lemma go_returns (content : text) : exists p, _parse_go_content content = Ret p.
Proof.
  rewrite parse_go_eq.
  apply bind_returns; [exact (findall_static _ _ _ _ content const_ok) | intros m1].
  apply bind_returns.
  - apply concat_mapM_ret. intros g _.
    apply bind_returns;
      [exact (re_search_ret no_flags _ content (go_add_tool_compiles (fld 0 g)))
      | intros found].
    apply ret_returns.
  - intros tools1.
    apply bind_returns; [exact (findall_static _ _ _ _ content direct_add_ok) | intros m2].
    apply bind_returns; [exact (findall_static _ _ _ _ content go_struct_ok) | intros m3].
    apply ret_returns.
Qed.

End TotalFacts.

Module TypeScriptFacts.
Import PyStr PyStrFacts Re ReCheck ReFacts EnhancedToolExtractor ResFacts NameModel
       NameFacts CompileFacts RustFacts BoundFacts InterpFacts TotalFacts.

(** The items read from [pat] at top level, latest first. *)
Definition items_of (fl : flags) (pat : text) : list item :=
  match run fl ps_init pat with
  | Compiled st => fr_seq (ps_cur st)
  | _ => []
  end.

Lemma search_static (fl : flags) (pat s : text) :
  compiles fl pat = true -> exists m, re_search fl pat s = Ret m.
Proof. apply re_search_ret. Qed.

(** *** The parameter extractors *)

Definition obj_before : list item :=
  Eval vm_compute in items_of re_DOTALL (raw "{[^{}]*name:\s*").
Definition obj_after : list item :=
  Eval vm_compute in items_of re_DOTALL (raw "[^{}]*}").

Lemma obj_pattern_compiles (name_expr : text) :
  compiles re_DOTALL (raw "{[^{}]*name:\s*" ++ escape name_expr ++ raw "[^{}]*}") = true.
Proof.
  apply (escaped_compiles re_DOTALL (raw "{[^{}]*name:\s*") (raw "[^{}]*}")
           obj_before obj_after LQuant LAtom 0).
  - vm_compute. reflexivity.
  - intros items. vm_compute. reflexivity.
  - vm_compute. reflexivity.
Qed.

Definition quoted_before : list item :=
  Eval vm_compute in items_of re_DOTALL (raw "{[^{}]*name:\s*[~\']?").
Definition quoted_after : list item :=
  Eval vm_compute in items_of re_DOTALL (raw "[~\']?[^{}]*}").

Lemma quoted_pattern_compiles (tool_name : text) :
  compiles re_DOTALL
    (raw "{[^{}]*name:\s*[~\']?" ++ escape tool_name ++ raw "[~\']?[^{}]*}") = true.
Proof.
  apply (escaped_compiles re_DOTALL (raw "{[^{}]*name:\s*[~\']?") (raw "[~\']?[^{}]*}")
           quoted_before quoted_after LQuant LAtom 0).
  - vm_compute. reflexivity.
  - intros items. vm_compute. reflexivity.
  - vm_compute. reflexivity.
Qed.

Lemma schema_compiles : compiles re_DOTALL schema_pattern = true.
Proof. vm_compute. reflexivity. Qed.
Lemma properties_defines : pattern_defines re_DOTALL properties_pattern 1 = true.
Proof. vm_compute. reflexivity. Qed.
Lemma param_compiles : compiles no_flags param_pattern = true.
Proof. vm_compute. reflexivity. Qed.
Lemma args_defines : pattern_defines re_DOTALL args_pattern 1 = true.
Proof. vm_compute. reflexivity. Qed.
Lemma arg_compiles : compiles re_DOTALL arg_pattern = true.
Proof. vm_compute. reflexivity. Qed.

Lemma extract_tool_parameters_eq (tools_content name_expr : text) :
  _extract_tool_parameters tools_content name_expr =
  ltac:(let t := eval cbv delta [_extract_tool_parameters] beta zeta in
                 (_extract_tool_parameters tools_content name_expr) in exact t).
Proof. unfold _extract_tool_parameters. reflexivity. Qed.

Lemma extract_input_schema_parameters_eq (tools_content tool_name : text) :
  _extract_input_schema_parameters tools_content tool_name =
  ltac:(let t := eval cbv delta [_extract_input_schema_parameters] beta zeta in
                 (_extract_input_schema_parameters tools_content tool_name) in exact t).
Proof. unfold _extract_input_schema_parameters. reflexivity. Qed.

Lemma extract_prompt_arguments_eq (prompts_content name_expr : text) :
  _extract_prompt_arguments prompts_content name_expr =
  ltac:(let t := eval cbv delta [_extract_prompt_arguments] beta zeta in
                 (_extract_prompt_arguments prompts_content name_expr) in exact t).
Proof. unfold _extract_prompt_arguments. reflexivity. Qed.

Definition input_parameter : ToolParameter :=
  mkParam (raw "input") (raw "object") (Some (raw "Tool input parameters")) true.

Lemma tool_parameters_returns (tools_content name_expr : text) :
  exists ps, _extract_tool_parameters tools_content name_expr = Ret ps
             /\ (ps = [] \/ ps = [input_parameter]).
Proof.
  rewrite extract_tool_parameters_eq.
  destruct (search_static re_DOTALL _ tools_content (obj_pattern_compiles name_expr))
    as [tool_match ->].
  destruct tool_match as [tm|].
  - destruct (search_static re_DOTALL _ (m_whole tm) schema_compiles) as [sm E].
    exists (match sm with Some _ => [input_parameter] | None => [] end). split.
    + change (bind (Ret (Some tm)) ?f) with (f (Some tm)). cbv beta iota.
      rewrite E. reflexivity.
    + destruct sm; auto.
  - exists []. split; [reflexivity | left; reflexivity].
Qed.

Lemma input_schema_parameters_returns (tools_content tool_name : text) :
  exists ps, _extract_input_schema_parameters tools_content tool_name = Ret ps.
Proof.
  rewrite extract_input_schema_parameters_eq.
  apply bind_returns;
    [exact (search_static re_DOTALL _ tools_content (quoted_pattern_compiles tool_name))
    | intros tool_match].
  destruct tool_match as [tm|]; [|apply ret_returns].
  apply bind_returns_eq;
    [exact (search_static re_DOTALL _ (m_whole tm)
              (pattern_defines_compiles _ _ _ properties_defines))
    | intros properties_match E].
  destruct properties_match as [pm|]; [|apply ret_returns].
  apply bind_returns; [exact (group_text_ret _ _ _ _ _ properties_defines E) | intros pc].
  apply bind_returns; [exact (re_findall_ret _ _ pc param_compiles) | intros ms].
  apply ret_returns.
Qed.

Lemma prompt_arguments_returns (prompts_content name_expr : text) :
  exists ps, _extract_prompt_arguments prompts_content name_expr = Ret ps.
Proof.
  rewrite extract_prompt_arguments_eq.
  apply bind_returns;
    [exact (search_static re_DOTALL _ prompts_content (obj_pattern_compiles name_expr))
    | intros prompt_match].
  destruct prompt_match as [pm|]; [|apply ret_returns].
  apply bind_returns_eq;
    [exact (search_static re_DOTALL _ (m_whole pm)
              (pattern_defines_compiles _ _ _ args_defines))
    | intros args_match E].
  destruct args_match as [am|]; [|apply ret_returns].
  apply bind_returns; [exact (group_text_ret _ _ _ _ _ args_defines E) | intros ac].
  apply bind_returns; [exact (re_findall_ret _ _ ac arg_compiles) | intros ms].
  apply ret_returns.
Qed.

End TypeScriptFacts.

Module ResolverFacts.
Import MonadFacts PyStr PyStrFacts Re ReCheck ReFacts EnhancedToolExtractor ResFacts NameModel
       NameFacts CompileFacts RustFacts BoundFacts InterpFacts TotalFacts TypeScriptFacts.

Lemma re_search_compiled (fl : flags) (pat : text) (p : pattern) (s : text) :
  compile fl pat = Compiled p -> re_search fl pat s = Ret (search p s).
Proof. intros E. unfold re_search, re_compile. rewrite E. reflexivity. Qed.

Lemma group_text_some (m : rmatch) (k : nat) (t : text) :
  group m k = Some t -> group_text m k = Ret t.
Proof. intros E. unfold group_text. rewrite E. reflexivity. Qed.

(** A word character is no quotation mark, no dot and no whitespace. *)
Lemma word_plain (c : ascii) :
  is_word c = true ->
  eqb_char c (ascii_of_N 34) = false /\ eqb_char c "'" = false
  /\ eqb_char c "." = false /\ is_space c = false.
Proof.
  assert (H : forallb (fun c => implb (is_word c)
                (negb (eqb_char c (ascii_of_N 34) || eqb_char c "'"
                       || eqb_char c "." || is_space c))) all_ascii = true)
    by (vm_compute; reflexivity).
  rewrite forallb_forall in H. specialize (H c (all_ascii_complete c)).
  intros W. rewrite W in H. simpl in H. apply negb_true_iff in H.
  repeat (apply orb_false_iff in H; destruct H as [H ?]). auto.
Qed.

Lemma split1_word (E V : text) :
  forallb is_word E = true -> split1 "." (E ++ raw "." ++ V) = Some (E, V).
Proof.
  induction E as [|c E IH]; intros W.
  - reflexivity.
  - simpl in W. apply andb_true_iff in W. destruct W as [Wc WE].
    destruct (word_plain c Wc) as [_ [_ [D _]]].
    change ((c :: E) ++ raw "." ++ V) with (c :: (E ++ raw "." ++ V)).
    cbn [split1]. rewrite D, (IH WE). reflexivity.
Qed.

Lemma strip_reference (E V : text) :
  identifier E -> identifier V -> strip (E ++ raw "." ++ V) = E ++ raw "." ++ V.
Proof.
  intros [HE WE] [HV WV].
  destruct E as [|c E]; [congruence|].
  destruct (exists_last HV) as [V' [z EV]]. subst V.
  simpl in WE. apply andb_true_iff in WE. destruct WE as [Wc _].
  rewrite forallb_app in WV. apply andb_true_iff in WV. destruct WV as [_ Wz].
  simpl in Wz. rewrite andb_true_r in Wz.
  destruct (word_plain c Wc) as [_ [_ [_ Sc]]].
  destruct (word_plain z Wz) as [_ [_ [_ Sz]]].
  unfold strip, strip_by, rstrip_by.
  change ((c :: E) ++ raw "." ++ V' ++ [z]) with (c :: (E ++ raw "." ++ V' ++ [z])).
  cbn [lstrip_by]. rewrite Sc.
  assert (R : rev (c :: E ++ raw "." ++ V' ++ [z])
              = z :: rev (c :: E ++ raw "." ++ V')).
  { change (c :: E ++ raw "." ++ V' ++ [z]) with ((c :: E) ++ raw "." ++ V' ++ [z]).
    rewrite !app_assoc. rewrite rev_app_distr. reflexivity. }
  rewrite R. cbn [lstrip_by]. rewrite Sz. rewrite <- R. apply rev_involutive.
Qed.

Lemma reference_not_quoted (E V : text) :
  identifier E ->
  (startswith (E ++ raw "." ++ V) (raw "~") || startswith (E ++ raw "." ++ V) (raw "'"))%bool
  = false.
Proof.
  intros [HE WE]. destruct E as [|c E]; [congruence|].
  simpl in WE. apply andb_true_iff in WE. destruct WE as [Wc _].
  destruct (word_plain c Wc) as [Q1 [Q2 _]].
  change ((c :: E) ++ raw "." ++ V) with (c :: (E ++ raw "." ++ V)).
  change (raw "~") with [ascii_of_N 34]. change (raw "'") with ["'"%char].
  cbn [startswith]. rewrite Q1, Q2. reflexivity.
Qed.

Lemma lower_nonempty (t : text) : t <> [] -> lower t <> [].
Proof. destruct t; [congruence | discriminate]. Qed.

(** *** The two patterns of the resolver *)

Definition enum_before : list item :=
  Eval vm_compute in items_of re_DOTALL (raw "enum\s+").
Definition enum_after : list item :=
  Eval vm_compute in items_of re_DOTALL (raw "\s*{([^}]+)}").
Definition value_after : list item :=
  Eval vm_compute in items_of no_flags (raw "\s*=\s*[~\']([^~\']+)[~\']").

Lemma enum_pattern_compiles (enum_name : text) :
  identifier enum_name ->
  compile re_DOTALL (raw "enum\s+" ++ enum_name ++ raw "\s*{([^}]+)}")
  = Compiled (mkPattern (interp_ast enum_before enum_name enum_after) 1 false).
Proof.
  intros H.
  apply (word_compiles re_DOTALL (raw "enum\s+") (raw "\s*{([^}]+)}")
           enum_before enum_after LQuant LAtom 1); [| |exact H].
  - vm_compute. reflexivity.
  - intros items. vm_compute. reflexivity.
Qed.

Lemma value_pattern_compiles (value_name : text) :
  identifier value_name ->
  compile no_flags (value_name ++ raw "\s*=\s*[~\']([^~\']+)[~\']")
  = Compiled (mkPattern (interp_ast [] value_name value_after) 1 false).
Proof.
  intros H.
  apply (word_compiles no_flags [] (raw "\s*=\s*[~\']([^~\']+)[~\']")
           [] value_after LAtom LAtom 1); [| |exact H].
  - reflexivity.
  - intros items. vm_compute. reflexivity.
Qed.

Lemma value_pattern_check (value_name : text) :
  check (mkPattern (interp_ast [] value_name value_after) 1 false) 1 not_quote = true.
Proof.
  unfold check. cbn [p_icase p_ast p_groups].
  rewrite interp_groups_ok, interp_defines; try reflexivity.
Qed.

Lemma extract_name_value_eq (content name_expr : text) :
  _extract_name_value content name_expr =
  ltac:(let t := eval cbv delta [_extract_name_value] beta zeta in
                 (_extract_name_value content name_expr) in exact t).
Proof. unfold _extract_name_value. reflexivity. Qed.

(** A reference [Enum.MEMBER] made of two identifiers resolves to a
    non-empty name. *)
Lemma reference_resolves (content enum_name value_name : text) :
  identifier enum_name -> identifier value_name ->
  exists v,
    _extract_name_value content (enum_name ++ raw "." ++ value_name) = Ret (Some v)
    /\ (v = lower value_name \/ literal_text v).
Proof.
  intros HE HV.
  rewrite extract_name_value_eq.
  rewrite (strip_reference _ _ HE HV).
  rewrite (reference_not_quoted _ value_name HE).
  rewrite (split1_word _ value_name (proj2 HE)).
  rewrite (re_search_compiled _ _ _ content (enum_pattern_compiles _ HE)), bind_Ret.
  destruct (search _ content) as [em|] eqn:Es.
  - destruct (search_defined (mkPattern (interp_ast enum_before enum_name enum_after) 1 false)
                1 content em
                (interp_defines 1 enum_before enum_after enum_name eq_refl) Es)
      as [enum_content G].
    rewrite (group_text_some _ _ _ G), bind_Ret.
    rewrite (re_search_compiled _ _ _ enum_content (value_pattern_compiles _ HV)), bind_Ret.
    destruct (search _ enum_content) as [vm|] eqn:Ev.
    + destruct (search_ok (mkPattern (interp_ast [] value_name value_after) 1 false)
                  1 not_quote (value_pattern_check value_name) enum_content vm Ev)
        as [t [Gt Ht]].
      exists t. rewrite Gt. split; [reflexivity | right; exact Ht].
    + exists (lower value_name). split; [reflexivity | left; reflexivity].
  - exists (lower value_name). split; [reflexivity | left; reflexivity].
Qed.

End ResolverFacts.

Module TypeScriptTotal.
Import MonadFacts PyStr PyStrFacts Re ReCheck ReFacts EnhancedToolExtractor ResFacts NameModel
       NameFacts CompileFacts RustFacts BoundFacts InterpFacts TotalFacts TypeScriptFacts
       ResolverFacts.

Lemma tools_in_handler_compiles : compiles re_DOTALL tools_in_handler_pattern = true.
Proof. vm_compute. reflexivity. Qed.
Lemma handler_tool_obj_compiles : compiles re_DOTALL handler_tool_obj_pattern = true.
Proof. vm_compute. reflexivity. Qed.
Lemma plus_compiles : compiles no_flags (raw "\s*\+\s*") = true.
Proof. vm_compute. reflexivity. Qed.
Lemma quote_compiles : compiles no_flags (raw "[~\']") = true.
Proof. vm_compute. reflexivity. Qed.
Lemma const_ref_ok : pattern_ok re_DOTALL const_ref_pattern 1 is_word = true.
Proof. vm_compute. reflexivity. Qed.
Lemma tools_array_defines : pattern_defines re_DOTALL tools_array_pattern 1 = true.
Proof. vm_compute. reflexivity. Qed.
Lemma tool_obj_compiles : compiles re_DOTALL tool_obj_pattern = true.
Proof. vm_compute. reflexivity. Qed.
Lemma export_tools_compiles : compiles re_DOTALL export_tools_pattern = true.
Proof. vm_compute. reflexivity. Qed.
Lemma resources_defines : pattern_defines no_flags resources_pattern 1 = true.
Proof. vm_compute. reflexivity. Qed.
Lemma template_defines : pattern_defines re_DOTALL template_pattern 1 = true.
Proof. vm_compute. reflexivity. Qed.
Lemma uri_defines : pattern_defines no_flags uri_pattern 1 = true.
Proof. vm_compute. reflexivity. Qed.
Lemma name_defines : pattern_defines no_flags name_pattern 1 = true.
Proof. vm_compute. reflexivity. Qed.
Lemma desc_compiles : compiles no_flags desc_pattern = true.
Proof. vm_compute. reflexivity. Qed.

Lemma clean_description_returns (description : text) :
  exists d, clean_description description = Ret d.
Proof.
  unfold clean_description. destruct (nonempty description); [|apply ret_returns].
  apply bind_returns; [exact (re_sub_ret _ _ _ plus_compiles) | intros d1].
  apply bind_returns; [exact (re_sub_ret _ _ _ quote_compiles) | intros d2].
  apply ret_returns.
Qed.

Lemma tools_pattern2_eq (content : text) :
  tools_pattern2 content =
  ltac:(let t := eval cbv delta [tools_pattern2] beta zeta in (tools_pattern2 content) in
        exact t).
Proof. unfold tools_pattern2. reflexivity. Qed.

Lemma tools_pattern2_returns (content : text) : exists ts, tools_pattern2 content = Ret ts.
Proof.
  rewrite tools_pattern2_eq.
  apply bind_returns;
    [exact (search_static _ _ content tools_in_handler_compiles) | intros handler_match].
  destruct handler_match as [hm|]; [|apply ret_returns].
  destruct (bracket_scan _ _ _) as [i bracket_count].
  destruct (Nat.eqb bracket_count 0); [|apply ret_returns].
  apply bind_returns;
    [exact (re_findall_ret _ _ _ handler_tool_obj_compiles) | intros tool_defs].
  apply concat_mapM_ret. intros g _.
  apply bind_returns; [apply clean_description_returns | intros description].
  apply bind_returns; [apply input_schema_parameters_returns | intros parameters].
  apply ret_returns.
Qed.

Definition const_def_before : list item :=
  Eval vm_compute in items_of re_DOTALL (raw "const\s+").
Definition const_def_after : list item :=
  Eval vm_compute in
    items_of re_DOTALL
      (raw ":\s*Tool\s*=\s*{\s*name:\s*[~\']([^~\']+)[~\'].*?description:\s*`([^`]*)`").

Lemma const_def_compiles (const_name : text) :
  identifier const_name ->
  compile re_DOTALL
    (raw "const\s+" ++ const_name
     ++ raw ":\s*Tool\s*=\s*{\s*name:\s*[~\']([^~\']+)[~\'].*?description:\s*`([^`]*)`")
  = Compiled (mkPattern (interp_ast const_def_before const_name const_def_after) 2 false).
Proof.
  intros H.
  apply (word_compiles re_DOTALL (raw "const\s+")
           (raw ":\s*Tool\s*=\s*{\s*name:\s*[~\']([^~\']+)[~\'].*?description:\s*`([^`]*)`")
           const_def_before const_def_after LQuant LAtom 2); [| |exact H].
  - vm_compute. reflexivity.
  - intros items. vm_compute. reflexivity.
Qed.

Lemma tools_pattern3_eq (content : text) :
  tools_pattern3 content =
  ltac:(let t := eval cbv delta [tools_pattern3] beta zeta in (tools_pattern3 content) in
        exact t).
Proof. unfold tools_pattern3. reflexivity. Qed.

Lemma tools_pattern3_returns (content : text) : exists ts, tools_pattern3 content = Ret ts.
Proof.
  rewrite tools_pattern3_eq.
  apply bind_returns_eq;
    [exact (search_static _ _ content (pattern_ok_compiles _ _ _ _ const_ref_ok))
    | intros const_ref_match E].
  destruct const_ref_match as [rm|]; [|apply ret_returns].
  destruct (re_search_good _ _ _ _ const_ref_ok _ _ E) as [const_name [G Hname]].
  rewrite (group_text_some _ _ _ G), bind_Ret.
  rewrite (re_search_compiled _ _ _ content (const_def_compiles _ Hname)), bind_Ret.
  destruct (search _ content) as [dm|] eqn:Es; [|apply ret_returns].
  destruct (search_defined
              (mkPattern (interp_ast const_def_before const_name const_def_after) 2 false)
              1 content dm
              (interp_defines 1 const_def_before const_def_after const_name eq_refl) Es)
    as [n1 G1].
  destruct (search_defined
              (mkPattern (interp_ast const_def_before const_name const_def_after) 2 false)
              2 content dm
              (interp_defines 2 const_def_before const_def_after const_name eq_refl) Es)
    as [n2 G2].
  rewrite (group_text_some _ _ _ G1), bind_Ret.
  rewrite (group_text_some _ _ _ G2), bind_Ret.
  apply ret_returns.
Qed.

Lemma tools_pattern4_eq (content : text) :
  tools_pattern4 content =
  ltac:(let t := eval cbv delta [tools_pattern4] beta zeta in (tools_pattern4 content) in
        exact t).
Proof. unfold tools_pattern4. reflexivity. Qed.

Lemma tools_pattern4_returns (content : text) : exists ts, tools_pattern4 content = Ret ts.
Proof.
  rewrite tools_pattern4_eq.
  apply bind_returns_eq;
    [exact (search_static _ _ content (pattern_defines_compiles _ _ _ tools_array_defines))
    | intros tools_array_match E].
  destruct tools_array_match as [am|]; [|apply ret_returns].
  apply bind_returns; [exact (group_text_ret _ _ _ _ _ tools_array_defines E) | intros tc].
  apply bind_returns; [exact (re_findall_ret _ _ tc tool_obj_compiles) | intros objs].
  apply ret_returns.
Qed.

Lemma tools_pattern5_returns (content : text) : exists ts, tools_pattern5 content = Ret ts.
Proof.
  unfold tools_pattern5.
  apply bind_returns; [exact (re_findall_ret _ _ content export_tools_compiles) | intros ms].
  apply ret_returns.
Qed.

(** On a count of more than 4300 digits the resource extractor raises the
    exception of [int]. *)
Lemma resources_raise (content : text) rm (digits : text) :
  re_search no_flags resources_pattern content = Ret (Some rm) ->
  group_text rm 1 = Ret digits ->
  int_max_str_digits < length digits ->
  _extract_mcp_resources content = Raise OtherException.
Proof.
  intros E G L. rewrite extract_mcp_resources_eq, E, bind_Ret, G, bind_Ret.
  unfold py_int. apply Nat.ltb_lt in L. rewrite L, !bind_Raise. reflexivity.
Qed.

Lemma extract_mcp_tools_eq (content : text) :
  _extract_mcp_tools content =
  ltac:(let t := eval cbv delta [_extract_mcp_tools] beta in (_extract_mcp_tools content) in
        exact t).
Proof. unfold _extract_mcp_tools. reflexivity. Qed.

Lemma parse_typescript_eq (content : text) :
  _parse_typescript_content content =
  ltac:(let t := eval cbv delta [_parse_typescript_content] beta in
                 (_parse_typescript_content content) in exact t).
Proof. unfold _parse_typescript_content. reflexivity. Qed.

(** The tool extractor fails in its first pattern only. *)
Lemma tools_outcome (content : text) :
  match tools_pattern1 content with
  | Ret _ => exists ts, _extract_mcp_tools content = Ret ts
  | Raise e => _extract_mcp_tools content = Raise e
  | Stuck => _extract_mcp_tools content = Stuck
  end.
Proof.
  rewrite extract_mcp_tools_eq.
  destruct (tools_pattern2_returns content) as [t2 E2].
  destruct (tools_pattern3_returns content) as [t3 E3].
  destruct (tools_pattern4_returns content) as [t4 E4].
  destruct (tools_pattern5_returns content) as [t5 E5].
  rewrite E2, E3, E4, E5.
  destruct (tools_pattern1 content) as [t1|e|].
  - rewrite !bind_Ret. apply ret_returns.
  - rewrite !bind_Raise. reflexivity.
  - rewrite !bind_Stuck. reflexivity.
Qed.

(** What the TypeScript parser returns is decided by its three
    extractors, called in this order. *)
Lemma typescript_outcome (content : text) :
  match _extract_mcp_tools content, _extract_mcp_prompts content,
        _extract_mcp_resources content with
  | Ret ts, Ret ps, Ret rs => _parse_typescript_content content = Ret (ts, ps, rs)
  | Ret _, Ret _, Raise e => _parse_typescript_content content = Raise e
  | Ret _, Ret _, Stuck => _parse_typescript_content content = Stuck
  | Ret _, Raise e, _ => _parse_typescript_content content = Raise e
  | Ret _, Stuck, _ => _parse_typescript_content content = Stuck
  | Raise e, _, _ => _parse_typescript_content content = Raise e
  | Stuck, _, _ => _parse_typescript_content content = Stuck
  end.
Proof.
  rewrite parse_typescript_eq.
  destruct (_extract_mcp_tools content) as [ts|e|];
    [|rewrite bind_Raise; reflexivity | rewrite bind_Stuck; reflexivity].
  rewrite bind_Ret.
  destruct (_extract_mcp_prompts content) as [ps|e|];
    [|rewrite bind_Raise; reflexivity | rewrite bind_Stuck; reflexivity].
  rewrite bind_Ret.
  destruct (_extract_mcp_resources content) as [rs|e|];
    [rewrite bind_Ret | rewrite bind_Raise | rewrite bind_Stuck]; reflexivity.
Qed.

End TypeScriptTotal.

Module LoopFacts.
Import PyStr PyStrFacts EnhancedToolExtractor ResFacts.

(** The extensions for which the loop over the files has a parser. *)
Definition parsed_extensions : list text :=
  [raw ".py"; raw ".js"; raw ".ts"; raw ".go"; raw ".rs"; raw ".cs"; raw ".csx";
   raw ".java"].

Lemma eqb_neq (a b : text) : a <> b -> eqb a b = false.
Proof.
  intros H. destruct (eqb a b) eqn:E; [|reflexivity].
  apply eqb_eq in E. contradiction.
Qed.

Lemma parse_by_extension_other (file_extension content : text) :
  ~ In file_extension parsed_extensions ->
  parse_by_extension file_extension content = Ret ([], [], []).
Proof.
  intros H. unfold parse_by_extension. cbn [existsb].
  rewrite !eqb_neq; [reflexivity | | | | | | | |];
    intros E; apply H; rewrite E; simpl; tauto.
Qed.

(** The server after some declarations were appended: nothing else differs. *)
Definition extends (s s' : MCPServer) : Prop :=
  name s' = name s /\ github_url s' = github_url s /\ server_type s' = server_type s
  /\ error_message s' = error_message s /\ extraction_log s' = extraction_log s
  /\ (exists ts, tools s' = tools s ++ ts)
  /\ (exists ps, prompts s' = prompts s ++ ps)
  /\ (exists rs, resources s' = resources s ++ rs).

Lemma extends_refl (s : MCPServer) : extends s s.
Proof.
  unfold extends. repeat split; try reflexivity;
    exists []; rewrite app_nil_r; reflexivity.
Qed.

Lemma extends_trans (a b c : MCPServer) : extends a b -> extends b c -> extends a c.
Proof.
  intros [N1 [U1 [T1 [E1 [L1 [[ts1 A1] [[ps1 B1] [rs1 C1]]]]]]]]
         [N2 [U2 [T2 [E2 [L2 [[ts2 A2] [[ps2 B2] [rs2 C2]]]]]]]].
  unfold extends. repeat split; try congruence.
  - exists (ts1 ++ ts2). rewrite A2, A1, app_assoc. reflexivity.
  - exists (ps1 ++ ps2). rewrite B2, B1, app_assoc. reflexivity.
  - exists (rs1 ++ rs2). rewrite C2, C1, app_assoc. reflexivity.
Qed.

Lemma extends_extend (s : MCPServer) (p : parsed) : extends s (extend s p).
Proof.
  destruct p as [[ts ps] rs]. unfold extends, extend. cbn.
  repeat split; eexists; reflexivity.
Qed.

Definition relevant (f : file_info) : bool := _is_relevant_file (fi_name f).

(** How one pass of the loop body changes the loop state. *)
Definition advances (n : nat) (a a' : accum) : Prop :=
  extends (acc_server a) (acc_server a')
  /\ (exists lines, acc_log a' = acc_log a ++ lines /\ length lines <= n)
  /\ acc_files_processed a <= acc_files_processed a'
  /\ acc_files_processed a' <= acc_files_processed a + n.

Lemma process_file_advances (str_exn : exn -> text) (file : file_info) (a : accum) :
  (forall e, process_file str_exn file a <> Raise e)
  /\ (forall a', process_file str_exn file a = Ret a' ->
                 advances (if relevant file then 1 else 0) a a').
Proof.
  unfold process_file, relevant.
  destruct (_is_relevant_file (fi_name file)).
  - destruct (parse_by_extension _ _) as [p|e|].
    + split; [discriminate|]. intros a' H. injection H as <-.
      unfold advances. cbn [acc_server acc_log acc_files_processed].
      split; [apply extends_extend|]. split; [|lia].
      destruct (found_any p).
      * eexists. split; [reflexivity | simpl; lia].
      * exists []. rewrite app_nil_r. split; [reflexivity | simpl; lia].
    + split; [discriminate|]. intros a' H. injection H as <-.
      unfold advances. cbn [acc_server acc_log acc_files_processed].
      split; [apply extends_refl|]. split; [|lia].
      eexists. split; [reflexivity | simpl; lia].
    + split; discriminate.
  - split; [discriminate|]. intros a' H. injection H as <-.
    split; [apply extends_refl|]. split; [|lia].
    exists []. rewrite app_nil_r. split; [reflexivity | simpl; lia].
Qed.

Lemma advances_refl (a : accum) : advances 0 a a.
Proof.
  split; [apply extends_refl|]. split; [|lia].
  exists []. rewrite app_nil_r. split; [reflexivity | simpl; lia].
Qed.

Lemma advances_trans (n m : nat) (a b c : accum) :
  advances n a b -> advances m b c -> advances (n + m) a c.
Proof.
  intros [E1 [[l1 [L1 N1]] [P1 Q1]]] [E2 [[l2 [L2 N2]] [P2 Q2]]].
  split; [exact (extends_trans _ _ _ E1 E2)|]. split; [|lia].
  exists (l1 ++ l2). split; [rewrite L2, L1, app_assoc; reflexivity|].
  rewrite length_app. lia.
Qed.

Lemma process_files_advances (str_exn : exn -> text) (all_files : list file_info) :
  forall a,
    (forall e, process_files str_exn all_files a <> Raise e)
    /\ (forall a', process_files str_exn all_files a = Ret a' ->
                   advances (length (filter relevant all_files)) a a').
Proof.
  induction all_files as [|file rest IH]; intros a; cbn [process_files].
  - split; [discriminate|]. intros a' H. injection H as <-.
    split; [apply extends_refl|]. split; [|simpl; lia].
    exists []. rewrite app_nil_r. split; [reflexivity | simpl; lia].
  - destruct (process_file_advances str_exn file a) as [NR Adv].
    destruct (process_file str_exn file a) as [a1|e|].
    + change (bind (Ret a1) ?f) with (f a1); cbv beta. destruct (IH a1) as [NR1 Adv1]. split; [exact NR1|].
      intros a' H. specialize (Adv a1 eq_refl). specialize (Adv1 a' H).
      pose proof (advances_trans _ _ _ _ _ Adv Adv1) as T.
      cbn [filter]. destruct (relevant file); exact T.
    + exfalso. exact (NR e eq_refl).
    + split; discriminate.
Qed.

End LoopFacts.

Module LocalFacts.
Import PyStr PyStrFacts EnhancedToolExtractor ResFacts WorldFacts MonadFacts LoopFacts.

Section WithFiles.
Variable str_exn : exn -> text.
Variable get_repo : text -> res unit.
Variable respond : nat -> text -> response.
Variable path_exists : text -> res bool.
Variable glob : text -> text -> res (list text).
Variable read_text : text -> res text.

Lemma parse_typescript_file_cases (file_path : text) :
  _parse_typescript_file read_text file_path = Stuck
  \/ _parse_typescript_file read_text file_path = Ret ([], [], [])
  \/ exists content p,
       read_text file_path = Ret content
       /\ _parse_typescript_content content = Ret p
       /\ _parse_typescript_file read_text file_path = Ret p.
Proof.
  unfold _parse_typescript_file.
  destruct (read_text file_path) as [content|e|].
  - rewrite bind_Ret.
    destruct (_parse_typescript_content content) as [p|e|] eqn:E.
    + right. right. exists content, p. auto.
    + right. left. reflexivity.
    + left. reflexivity.
  - rewrite bind_Raise. right. left. reflexivity.
  - rewrite bind_Stuck. left. reflexivity.
Qed.

Lemma parse_typescript_file_no_raise (file_path : text) (e : exn) :
  _parse_typescript_file read_text file_path <> Raise e.
Proof.
  destruct (parse_typescript_file_cases file_path) as [H|[H|[c [p [_ [_ H]]]]]];
    rewrite H; discriminate.
Qed.

(** The loop over the files of a reference server leaves the world as it
    is and only appends to the server's collections. *)
Lemma parse_reference_files_spec (ts_files : list text) :
  forall server w,
    snd (parse_reference_files str_exn read_text ts_files server w) = w
    /\ (forall e, fst (parse_reference_files str_exn read_text ts_files server w)
                  <> Raise e)
    /\ (forall s', fst (parse_reference_files str_exn read_text ts_files server w) = Ret s'
                   -> extends server s').
Proof.
  induction ts_files as [|ts_file rest IH]; intros server w; cbn [parse_reference_files].
  - rewrite mret_run. cbn [fst snd]. split; [reflexivity|]. split; [discriminate|].
    intros s' H. injection H as <-. apply extends_refl.
  - rewrite mbind_run, try_except_run, mbind_run, lift_run.
    pose proof (parse_typescript_file_no_raise ts_file) as NR.
    destruct (_parse_typescript_file read_text ts_file) as [p|e|].
    + rewrite mret_run. destruct (IH (extend server p) w) as [W [R X]].
      split; [exact W|]. split; [exact R|].
      intros s' H. apply (extends_trans _ (extend server p)); [apply extends_extend|].
      exact (X s' H).
    + exfalso. exact (NR e eq_refl).
    + cbn [fst snd]. split; [reflexivity|]. split; discriminate.
Qed.

Definition server_path (server : MCPServer) : text :=
  path_div (raw "mcp_servers_repo/src") (name server).

Lemma extract_from_reference_server_eq (server : MCPServer) (w : world) :
  _extract_from_reference_server str_exn path_exists glob read_text server w =
  match path_exists (server_path server) with
  | Ret found =>
      if negb found then
        (Ret (with_error server
                (Some (raw "Reference server directory not found: "
                       ++ server_path server))), w)
      else
        match glob (server_path server) (raw "**/*.ts") with
        | Ret ts_files =>
            match glob (server_path server) (raw "**/*.js") with
            | Ret js_files =>
                parse_reference_files str_exn read_text (ts_files ++ js_files) server w
            | Raise e => (Raise e, w)
            | Stuck => (Stuck, w)
            end
        | Raise e => (Raise e, w)
        | Stuck => (Stuck, w)
        end
  | Raise e => (Raise e, w)
  | Stuck => (Stuck, w)
  end.
Proof.
  unfold _extract_from_reference_server, server_path. cbv zeta.
  rewrite mbind_run, lift_run.
  destruct (path_exists _) as [found|e|]; [|reflexivity|reflexivity].
  destruct found; cbn [negb]; [|reflexivity].
  rewrite mbind_run, lift_run.
  destruct (glob _ (raw "**/*.ts")) as [ts_files|e|]; reflexivity.
Qed.

Lemma reference_world (server : MCPServer) (w : world) :
  snd (_extract_from_reference_server str_exn path_exists glob read_text server w) = w.
Proof.
  rewrite extract_from_reference_server_eq.
  destruct (path_exists _) as [found|e|]; try reflexivity.
  destruct (negb found); [reflexivity|].
  destruct (glob _ (raw "**/*.ts")) as [ts_files|e|]; try reflexivity.
  destruct (glob _ (raw "**/*.js")) as [js_files|e|]; try reflexivity.
  apply parse_reference_files_spec.
Qed.

Lemma github_no_raise (server : MCPServer) (w : world) (e : exn) :
  fst (_extract_from_github_repo str_exn get_repo respond server w) <> Raise e.
Proof.
  unfold _extract_from_github_repo. rewrite try_except_run.
  match goal with |- context [match ?c w with _ => _ end] => destruct (c w) as [[s|e'|] w'] end;
    cbn [fst]; try discriminate; rewrite mret_run; discriminate.
Qed.

Lemma extract_tools_no_raise (server : MCPServer) (w : world) (e : exn) :
  fst (extract_tools_from_server str_exn get_repo respond path_exists glob read_text
         server w) <> Raise e.
Proof.
  unfold extract_tools_from_server. rewrite try_except_run.
  match goal with |- context [match ?c with _ => _ end] => destruct c as [[s|e'|] w'] end;
    cbn [fst]; try discriminate; rewrite mret_run; discriminate.
Qed.

Lemma extract_tools_third_party (server : MCPServer) (w : world) :
  server_type server = THIRD_PARTY ->
  extract_tools_from_server str_exn get_repo respond path_exists glob read_text server w
  = _extract_from_github_repo str_exn get_repo respond server w.
Proof.
  intros T. unfold extract_tools_from_server. rewrite try_except_run, T.
  change (eqb (value THIRD_PARTY) (raw "reference")) with false. cbv iota.
  pose proof (github_no_raise server w) as NR.
  destruct (_extract_from_github_repo str_exn get_repo respond server w) as [[s|e|] w'];
    try reflexivity.
  exfalso. exact (NR e eq_refl).
Qed.

End WithFiles.

End LocalFacts.

Module StepFacts.
Import PyStr EnhancedToolExtractor WorldFacts MonadFacts.

(** Computations every run of which relates the world before to the world
    after by [R]. *)
Section Steps.
Variable R : world -> world -> Prop.
Hypothesis R_refl : forall w, R w w.
Hypothesis R_trans : forall a b c, R a b -> R b c -> R a c.

Definition steps {A} (c : M A) : Prop := forall w, R w (snd (c w)).

Lemma steps_mret {A} (a : A) : steps (mret a).
Proof. intros w. apply R_refl. Qed.

Lemma steps_lift {A} (r : res A) : steps (lift r).
Proof. intros w. apply R_refl. Qed.

Lemma steps_mbind {A B} (c : M A) (f : A -> M B) :
  steps c -> (forall a, steps (f a)) -> steps (mbind c f).
Proof.
  intros Hc Hf w. rewrite mbind_run. specialize (Hc w).
  destruct (c w) as [[a|e|] w']; cbn [snd] in *; try exact Hc.
  exact (R_trans _ _ _ Hc (Hf a w')).
Qed.

Lemma steps_try_except {A} (c : M A) (h : exn -> M A) :
  steps c -> (forall e, steps (h e)) -> steps (try_except c h).
Proof.
  intros Hc Hh w. rewrite try_except_run. specialize (Hc w).
  destruct (c w) as [[a|e|] w']; cbn [snd] in *; try exact Hc.
  exact (R_trans _ _ _ Hc (Hh e w')).
Qed.

Lemma steps_modify (f : world -> world) : (forall w, R w (f w)) -> steps (modify f).
Proof. intros H w. exact (H w). Qed.

Variable str_exn : exn -> text.
Variable respond : nat -> text -> response.

Hypothesis R_sleep : forall d, steps (sleep d).
Hypothesis R_print : forall line, steps (print line).
Hypothesis R_hit :
  steps (update_stats (fun s => mkStats (total_files_processed s)
                                 (successful_extractions s) (failed_extractions s)
                                 (S (rate_limit_hits s)))).
Hypothesis R_call :
  forall (path : text) (k : list content_file + content_file -> M unit),
    (forall x, steps (k x)) ->
    steps (sleep rate_limit_delay ;;; x <~ get_contents respond path ;; k x).
Hypothesis R_read :
  forall content, _is_relevant_file (c_name content) = true ->
                  steps (read_file str_exn content).

Lemma steps_visit_contents (descend : text -> M unit) (contents : list content_file) :
  (forall p, steps (descend p)) ->
  steps (visit_contents str_exn descend contents).
Proof.
  intros Hd. induction contents as [|content rest IH]; cbn [visit_contents].
  - apply steps_mret.
  - apply steps_mbind; [|intros _; exact IH].
    destruct (eqb (c_type content) (raw "file") && _is_relevant_file (c_name content))%bool
      eqn:E.
    + apply andb_true_iff in E. apply R_read. exact (proj2 E).
    + destruct (eqb (c_type content) (raw "dir")
                && negb (_should_skip_directory (c_name content)))%bool;
        [apply Hd | apply steps_mret].
Qed.

Lemma steps_retry_loop (todo retry : nat) (path : text) (attempt : M unit) :
  steps attempt -> steps (retry_loop str_exn todo retry path attempt).
Proof.
  intros Ha. revert retry. induction todo as [|todo IH]; intros retry.
  - apply steps_mret.
  - intros w. cbn [retry_loop]. specialize (Ha w).
    destruct (attempt w) as [[a|e|] w']; cbn [snd] in Ha; try exact Ha.
    destruct e; try exact Ha;
      match goal with
      | |- R w (snd (?c w')) =>
          assert (K : steps c); [|exact (R_trans _ _ _ Ha (K w'))]
      end.
    + apply steps_mbind; [apply R_hit|]. intros _.
      destruct (Nat.ltb retry (max_retries - 1)).
      * apply steps_mbind; [apply R_print|]. intros _.
        apply steps_mbind; [apply R_sleep|]. intros _. apply IH.
      * apply R_print.
    + destruct (Nat.ltb retry (max_retries - 1)).
      * apply steps_mbind; [apply R_sleep|]. intros _. apply IH.
      * apply R_print.
Qed.

Lemma steps_traverse (remaining : nat) (path : text) :
  steps (_traverse_directory str_exn respond remaining path).
Proof.
  revert path. induction remaining as [|remaining IH]; intros path;
    cbn [_traverse_directory].
  - apply steps_mret.
  - apply steps_retry_loop. apply R_call. intros contents.
    apply steps_visit_contents. exact IH.
Qed.

End Steps.

End StepFacts.

Module TraversalFacts.
Import PyStr EnhancedToolExtractor WorldFacts MonadFacts StepFacts.

(** A sleep of at least the delay that precedes a call of [get_contents]. *)
Definition is_long (d : Q) : bool := Qle_bool rate_limit_delay d.

Definition long_sleeps (w : world) : nat := length (filter is_long (sleeps w)).

Definition relevant_info (f : file_info) : Prop := _is_relevant_file (fi_name f) = true.

(** What the traversal may do to the world. *)
Definition grows (w w' : world) : Prop :=
  (exists added,
      files w' = files w ++ added
      /\ Forall relevant_info added
      /\ total_files_processed (extraction_stats w')
         = total_files_processed (extraction_stats w) + length added)
  /\ api_calls w <= api_calls w'
  /\ long_sleeps w <= long_sleeps w'
  /\ api_calls w' - api_calls w <= long_sleeps w' - long_sleeps w.

Lemma grows_refl (w : world) : grows w w.
Proof.
  split; [|lia]. exists []. rewrite app_nil_r. split; [reflexivity|].
  split; [constructor | simpl; lia].
Qed.

Lemma grows_trans (a b c : world) : grows a b -> grows b c -> grows a c.
Proof.
  intros [[l1 [F1 [A1 T1]]] N1] [[l2 [F2 [A2 T2]]] N2].
  split; [|lia]. exists (l1 ++ l2). split; [rewrite F2, F1, app_assoc; reflexivity|].
  split; [apply Forall_app; auto | rewrite length_app; lia].
Qed.

Lemma long_sleeps_app (w : world) (d : Q) (calls : nat) (out : list text) (st : stats)
    (fs : list file_info) (fb : nat) :
  long_sleeps (mkWorld calls (sleeps w ++ [d]) out st fs fb)
  = long_sleeps w + (if is_long d then 1 else 0).
Proof.
  unfold long_sleeps. cbn [sleeps]. rewrite filter_app, length_app. cbn [filter].
  destruct (is_long d); reflexivity.
Qed.

(** A change of the world that keeps the files and the count of files and
    adds no request. *)
Lemma grows_quiet (w w' : world) :
  files w' = files w ->
  total_files_processed (extraction_stats w') = total_files_processed (extraction_stats w) ->
  api_calls w' = api_calls w ->
  long_sleeps w <= long_sleeps w' ->
  grows w w'.
Proof.
  intros F T A L. split; [|lia].
  exists []. rewrite app_nil_r. split; [exact F|]. split; [constructor | simpl; lia].
Qed.

Lemma grows_sleep (d : Q) : steps grows (sleep d).
Proof.
  intros w. unfold sleep, modify. cbn [snd].
  apply grows_quiet; try reflexivity. rewrite long_sleeps_app. lia.
Qed.

Lemma grows_print (line : text) : steps grows (print line).
Proof. intros w. apply grows_quiet; reflexivity || apply Nat.le_refl. Qed.

Lemma grows_hit :
  steps grows (update_stats (fun s => mkStats (total_files_processed s)
                                        (successful_extractions s) (failed_extractions s)
                                        (S (rate_limit_hits s)))).
Proof. intros w. apply grows_quiet; reflexivity || apply Nat.le_refl. Qed.

Section WithWorld.
Variable str_exn : exn -> text.
Variable respond : nat -> text -> response.

Lemma grows_request (w : world) :
  grows w (mkWorld (S (api_calls w)) (sleeps w ++ [rate_limit_delay]) (stdout w)
                   (extraction_stats w) (files w) (fallback_runs w)).
Proof.
  split.
  - exists []. rewrite app_nil_r. split; [reflexivity|].
    split; [constructor | simpl; lia].
  - rewrite long_sleeps_app. cbn [api_calls].
    change (is_long rate_limit_delay) with true. cbv iota. lia.
Qed.

Lemma grows_call (path : text) (k : list content_file + content_file -> M unit) :
  (forall x, steps grows (k x)) ->
  steps grows (sleep rate_limit_delay ;;; x <~ get_contents respond path ;; k x).
Proof.
  intros Hk w. rewrite mbind_run. unfold sleep at 1, modify.
  rewrite mbind_run. unfold get_contents. cbn [api_calls sleeps stdout extraction_stats
                                               files fallback_runs].
  pose proof (grows_request w) as G.
  destruct (respond (api_calls w) path) as [l|c|e]; cbn [snd];
    try exact G; exact (grows_trans _ _ _ G (Hk _ _)).
Qed.

Lemma grows_read (content : content_file) :
  _is_relevant_file (c_name content) = true -> steps grows (read_file str_exn content).
Proof.
  intros Hrel w. unfold read_file. rewrite try_except_run, mbind_run.
  unfold sleep at 1, modify. rewrite mbind_run, lift_run.
  destruct (c_decoded content) as [file_content|e|].
  - cbn. split.
    + eexists. split; [reflexivity|]. split; [|simpl; lia].
      constructor; [exact Hrel | constructor].
    + rewrite long_sleeps_app. cbn [api_calls]. lia.
  - cbn. apply grows_quiet; try reflexivity. rewrite long_sleeps_app. lia.
  - cbn. apply grows_quiet; try reflexivity. rewrite long_sleeps_app. lia.
Qed.

Lemma grows_traverse (remaining : nat) (path : text) :
  steps grows (_traverse_directory str_exn respond remaining path).
Proof.
  apply (steps_traverse grows grows_refl grows_trans str_exn respond
           grows_sleep grows_print grows_hit grows_call grows_read).
Qed.

(** The outcome of [_get_all_files_recursive]. *)
Lemma get_all_files_spec (base_path : option text) (w : world) :
  let out := _get_all_files_recursive str_exn respond base_path w in
  (forall fs, fst out = Ret fs -> fs = files (snd out))
  /\ Forall relevant_info (files (snd out))
  /\ total_files_processed (extraction_stats (snd out))
     = total_files_processed (extraction_stats w) + length (files (snd out))
  /\ api_calls (snd out) - api_calls w <= long_sleeps (snd out) - long_sleeps w.
Proof.
  cbv zeta. unfold _get_all_files_recursive.
  set (start_path := if truthy base_path then _ else _).
  set (w0 := mkWorld (api_calls w) (sleeps w) (stdout w) (extraction_stats w) []
                     (fallback_runs w)).
  rewrite mbind_run. change (set_files [] w) with (@Ret unit tt, w0). cbv beta iota.
  rewrite mbind_run.
  pose proof (grows_traverse (S max_depth) start_path w0) as G.
  destruct (_traverse_directory str_exn respond (S max_depth) start_path w0)
    as [[u|e|] w1]; unfold get_files; cbn [fst snd] in *;
    destruct G as [[added [F [A T]]] [N1 [N2 N3]]];
    change (files w0) with (@nil file_info) in F;
    change (extraction_stats w0) with (extraction_stats w) in T;
    change (api_calls w0) with (api_calls w) in N1, N3;
    change (long_sleeps w0) with (long_sleeps w) in N2, N3;
    cbn [app] in F; rewrite F;
    (split; [try discriminate|]); auto.
  intros fs H. injection H as <-. reflexivity.
Qed.

End WithWorld.

End TraversalFacts.

(** ** The pauses of the traversal *)

Module PacingFacts.
Import PyStr EnhancedToolExtractor WorldFacts MonadFacts StepFacts TraversalFacts.

(** A pause of half the delay, as made before the content of a file is
    read. *)
Definition is_half (d : Q) : bool := Qeq_bool d (rate_limit_delay / 2).

Definition half_sleeps (w : world) : nat := length (filter is_half (sleeps w)).

(** The attempts to read the content of a file: those that succeeded and
    those that failed. *)
Definition reads (w : world) : nat :=
  total_files_processed (extraction_stats w) + failed_extractions (extraction_stats w).

(** Every call of [get_contents] and every read of a content since [w]
    had a pause of its own. *)
Definition paced (w w' : world) : Prop :=
  api_calls w <= api_calls w'
  /\ long_sleeps w <= long_sleeps w'
  /\ api_calls w' + long_sleeps w <= long_sleeps w' + api_calls w
  /\ reads w <= reads w'
  /\ half_sleeps w <= half_sleeps w'
  /\ reads w' + half_sleeps w <= half_sleeps w' + reads w.

Lemma paced_difference (a a' l l' : nat) :
  l <= l' -> a' + l <= l' + a -> a' - a <= l' - l.
Proof. lia. Qed.

Lemma paced_refl (w : world) : paced w w.
Proof. unfold paced. lia. Qed.

Lemma paced_trans (a b c : world) : paced a b -> paced b c -> paced a c.
Proof. unfold paced. lia. Qed.

Lemma half_sleeps_app (w : world) (d : Q) (calls : nat) (out : list text) (st : stats)
    (fs : list file_info) (fb : nat) :
  half_sleeps (mkWorld calls (sleeps w ++ [d]) out st fs fb)
  = half_sleeps w + (if is_half d then 1 else 0).
Proof.
  unfold half_sleeps. cbn [sleeps]. rewrite filter_app, length_app. cbn [filter].
  destruct (is_half d); reflexivity.
Qed.

Lemma paced_sleep (d : Q) : steps paced (sleep d).
Proof.
  intros w. unfold sleep, modify. cbn [snd]. unfold paced.
  rewrite long_sleeps_app, half_sleeps_app. unfold reads.
  cbn [api_calls extraction_stats]. destruct (is_long d); destruct (is_half d); lia.
Qed.

Ltac paced_now :=
  intros w; unfold paced, long_sleeps, half_sleeps, reads; cbn; lia.

Lemma paced_print (line : text) : steps paced (print line).
Proof. paced_now. Qed.

Lemma paced_hit :
  steps paced (update_stats (fun s => mkStats (total_files_processed s)
                                        (successful_extractions s) (failed_extractions s)
                                        (S (rate_limit_hits s)))).
Proof. paced_now. Qed.

Section WithWorld.
Variable str_exn : exn -> text.
Variable respond : nat -> text -> response.

Lemma paced_request (w : world) :
  paced w (mkWorld (S (api_calls w)) (sleeps w ++ [rate_limit_delay]) (stdout w)
                   (extraction_stats w) (files w) (fallback_runs w)).
Proof.
  unfold paced. rewrite long_sleeps_app, half_sleeps_app. unfold reads.
  cbn [api_calls extraction_stats].
  change (is_long rate_limit_delay) with true.
  change (is_half rate_limit_delay) with false. cbv iota. lia.
Qed.

Lemma paced_call (path : text) (k : list content_file + content_file -> M unit) :
  (forall x, steps paced (k x)) ->
  steps paced (sleep rate_limit_delay ;;; x <~ get_contents respond path ;; k x).
Proof.
  intros Hk w. rewrite mbind_run. unfold sleep at 1, modify.
  rewrite mbind_run. unfold get_contents. cbn [api_calls sleeps stdout extraction_stats
                                               files fallback_runs].
  pose proof (paced_request w) as G.
  destruct (respond (api_calls w) path) as [l|c|e]; cbn [snd];
    try exact G; exact (paced_trans _ _ _ G (Hk _ _)).
Qed.

Lemma paced_read (content : content_file) :
  _is_relevant_file (c_name content) = true -> steps paced (read_file str_exn content).
Proof.
  intros _ w. unfold read_file. rewrite try_except_run, mbind_run.
  unfold sleep at 1, modify. rewrite mbind_run, lift_run.
  destruct (c_decoded content) as [file_content|e|]; cbn; unfold paced;
    rewrite long_sleeps_app, half_sleeps_app; unfold reads;
    cbn [api_calls extraction_stats total_files_processed failed_extractions];
    change (is_long (rate_limit_delay / 2)) with false;
    change (is_half (rate_limit_delay / 2)) with true; cbv iota; lia.
Qed.

Lemma paced_traverse (remaining : nat) (path : text) :
  steps paced (_traverse_directory str_exn respond remaining path).
Proof.
  apply (steps_traverse paced paced_refl paced_trans str_exn respond
           paced_sleep paced_print paced_hit paced_call paced_read).
Qed.

Lemma paced_get_all_files (base_path : option text) :
  steps paced (_get_all_files_recursive str_exn respond base_path).
Proof.
  unfold _get_all_files_recursive.
  apply (steps_mbind paced paced_trans); [paced_now|]. intros _.
  apply (steps_mbind paced paced_trans); [apply paced_traverse|]. intros _.
  paced_now.
Qed.

End WithWorld.

End PacingFacts.

Module CounterFacts.
Import PyStr EnhancedToolExtractor WorldFacts MonadFacts StepFacts LocalFacts.

(** What any part of an extraction may do to the counters. *)
Definition steady (w w' : world) : Prop :=
  successful_extractions (extraction_stats w')
  = successful_extractions (extraction_stats w)
  /\ total_files_processed (extraction_stats w)
     <= total_files_processed (extraction_stats w')
  /\ failed_extractions (extraction_stats w) <= failed_extractions (extraction_stats w')
  /\ rate_limit_hits (extraction_stats w) <= rate_limit_hits (extraction_stats w')
  /\ api_calls w <= api_calls w'.

Lemma steady_refl (w : world) : steady w w.
Proof. unfold steady. repeat split; lia. Qed.

Lemma steady_trans (a b c : world) : steady a b -> steady b c -> steady a c.
Proof. unfold steady. intros [E1 H1] [E2 H2]. split; [congruence | lia]. Qed.

Ltac steady_now := intros w; unfold steady; cbn; repeat split; lia.

Lemma steady_sleep (d : Q) : steps steady (sleep d).
Proof. steady_now. Qed.

Lemma steady_print (line : text) : steps steady (print line).
Proof. steady_now. Qed.

Lemma steady_hit :
  steps steady (update_stats (fun s => mkStats (total_files_processed s)
                                         (successful_extractions s) (failed_extractions s)
                                         (S (rate_limit_hits s)))).
Proof. steady_now. Qed.

Lemma steady_set_files (l : list file_info) : steps steady (set_files l).
Proof. steady_now. Qed.

Lemma steady_get_files : steps steady get_files.
Proof. steady_now. Qed.

Lemma steady_enter_fallback : steps steady enter_fallback.
Proof. steady_now. Qed.

Lemma steady_mret {A} (a : A) : steps steady (mret a).
Proof. apply steps_mret, steady_refl. Qed.

Lemma steady_lift {A} (r : res A) : steps steady (lift r).
Proof. apply steps_lift, steady_refl. Qed.

Lemma steady_mbind {A B} (c : M A) (f : A -> M B) :
  steps steady c -> (forall a, steps steady (f a)) -> steps steady (mbind c f).
Proof. apply steps_mbind, steady_trans. Qed.

Lemma steady_try_except {A} (c : M A) (h : exn -> M A) :
  steps steady c -> (forall e, steps steady (h e)) -> steps steady (try_except c h).
Proof. apply steps_try_except, steady_trans. Qed.

Section WithWorld.
Variable str_exn : exn -> text.
Variable get_repo : text -> res unit.
Variable respond : nat -> text -> response.
Variable path_exists : text -> res bool.
Variable glob : text -> text -> res (list text).
Variable read_text : text -> res text.

Lemma steady_get_contents (path : text) : steps steady (get_contents respond path).
Proof.
  intros w. unfold get_contents.
  destruct (respond (api_calls w) path); unfold steady; cbn; repeat split; lia.
Qed.

Lemma steady_call (path : text) (k : list content_file + content_file -> M unit) :
  (forall x, steps steady (k x)) ->
  steps steady (sleep rate_limit_delay ;;; x <~ get_contents respond path ;; k x).
Proof.
  intros Hk. apply steady_mbind; [apply steady_sleep|]. intros _.
  apply steady_mbind; [apply steady_get_contents | exact Hk].
Qed.

Lemma steady_read (content : content_file) :
  _is_relevant_file (c_name content) = true -> steps steady (read_file str_exn content).
Proof.
  intros _. unfold read_file. apply steady_try_except.
  - apply steady_mbind; [apply steady_sleep|]. intros _.
    apply steady_mbind; [apply steady_lift|]. intros file_content.
    apply steady_mbind; [apply steady_get_files|]. intros fs.
    apply steady_mbind; [apply steady_set_files|]. intros _. steady_now.
  - intros e. apply steady_mbind; [apply steady_print|]. intros _. steady_now.
Qed.

Lemma steady_traverse (remaining : nat) (path : text) :
  steps steady (_traverse_directory str_exn respond remaining path).
Proof.
  apply (steps_traverse steady steady_refl steady_trans str_exn respond
           steady_sleep steady_print steady_hit steady_call steady_read).
Qed.

Lemma steady_get_all_files (base_path : option text) :
  steps steady (_get_all_files_recursive str_exn respond base_path).
Proof.
  unfold _get_all_files_recursive.
  apply steady_mbind; [apply steady_set_files|]. intros _.
  apply steady_mbind; [apply steady_traverse|]. intros _. apply steady_get_files.
Qed.

Lemma steady_readme_loop (subpath : option text) (names : list text) :
  steps steady (readme_loop respond subpath names).
Proof.
  induction names as [|filename rest IH]; cbn [readme_loop].
  - apply steady_mret.
  - intros w.
    set (file_path := match subpath with Some sp => _ | None => _ end).
    assert (K : steps steady (fetch_text respond file_path)).
    { unfold fetch_text. apply steady_mbind; [apply steady_get_contents|].
      intros [l|c]; apply steady_lift. }
    specialize (K w).
    destruct (fetch_text respond file_path w) as [[t|e|] w']; cbn [snd] in *; try exact K.
    destruct e; try exact K; exact (steady_trans _ _ _ K (IH w')).
Qed.

Lemma steady_fallback (server : MCPServer) (subpath : option text) :
  steps steady (_extract_from_readme_fallback str_exn respond server subpath).
Proof.
  unfold _extract_from_readme_fallback.
  apply steady_mbind; [apply steady_enter_fallback|]. intros _. apply steady_try_except.
  - apply steady_mbind; [apply steady_readme_loop|].
    intros [content|]; [|apply steady_mret].
    destruct (nonempty content); [|apply steady_mret].
    apply steady_mbind; [apply steady_lift|]. intros ts. apply steady_mret.
  - intros e. apply steady_mbind; [apply steady_print|]. intros _. apply steady_mret.
Qed.

Lemma steady_finish (a : accum) (subpath : option text) :
  steps steady (finish_extraction str_exn respond a subpath).
Proof.
  unfold finish_extraction. cbv zeta.
  destruct (negb _); [apply steady_fallback | apply steady_mret].
Qed.

Lemma steady_github (server : MCPServer) :
  steps steady (_extract_from_github_repo str_exn get_repo respond server).
Proof.
  unfold _extract_from_github_repo. apply steady_try_except; [|intros e; apply steady_mret].
  destruct (_parse_github_url (github_url server)) as [[[owner repo_name] subpath]|];
    [|apply steady_mret].
  apply steady_mbind; [apply steady_lift|]. intros _.
  apply steady_mbind; [apply steady_get_all_files|]. intros all_files.
  apply steady_mbind; [apply steady_lift|]. intros a. apply steady_finish.
Qed.

Lemma steady_extract_tools (server : MCPServer) :
  steps steady (extract_tools_from_server str_exn get_repo respond path_exists glob
                  read_text server).
Proof.
  unfold extract_tools_from_server. apply steady_try_except; [|intros e; apply steady_mret].
  destruct (eqb _ _).
  - intros w. rewrite reference_world. apply steady_refl.
  - apply steady_github.
Qed.

End WithWorld.

End CounterFacts.

Module ReadmeFacts.
Import PyStr PyStrFacts EnhancedToolExtractor ResFacts WorldFacts MonadFacts LoopFacts
       TotalFacts.

(** The world after [n] further requests and nothing else. *)
Definition after_requests (n : nat) (w : world) : world :=
  mkWorld (api_calls w + n) (sleeps w) (stdout w) (extraction_stats w) (files w)
          (fallback_runs w).

(** [f"{subpath}/{filename}" if subpath else filename] *)
Definition readme_path (subpath : option text) (filename : text) : text :=
  match subpath with
  | Some sp => if nonempty sp then sp ++ raw "/" ++ filename else filename
  | None => filename
  end.

(** The outcome of the request for one file and of decoding the answer. *)
Definition fetched (respond : nat -> text -> response) (n : nat) (file_path : text)
    : res text :=
  match respond n file_path with
  | Listing _ => Raise OtherException
  | Single c => c_decoded c
  | Fails e => Raise e
  end.

(** The exceptions that [except GithubException] handles. *)
Definition is_github (r : res text) : Prop :=
  r = Raise GithubException \/ r = Raise RateLimitExceededException.

Lemma after_requests_0 (w : world) : after_requests 0 w = w.
Proof. unfold after_requests. rewrite Nat.add_0_r. destruct w; reflexivity. Qed.

Lemma after_requests_S (n : nat) (w : world) :
  after_requests n (after_requests 1 w) = after_requests (S n) w.
Proof.
  unfold after_requests. cbn [api_calls sleeps stdout extraction_stats files fallback_runs].
  f_equal. lia.
Qed.

Section WithWorld.
Variable str_exn : exn -> text.
Variable respond : nat -> text -> response.

Lemma fetch_text_run (file_path : text) (w : world) :
  fetch_text respond file_path w
  = (fetched respond (api_calls w) file_path, after_requests 1 w).
Proof.
  unfold fetch_text, fetched, after_requests. rewrite mbind_run. unfold get_contents.
  rewrite Nat.add_1_r.
  destruct (respond (api_calls w) file_path); reflexivity.
Qed.

Lemma readme_loop_cons (subpath : option text) (filename : text) (rest : list text)
    (w : world) :
  readme_loop respond subpath (filename :: rest) w =
  match fetched respond (api_calls w) (readme_path subpath filename) with
  | Ret t => (Ret (Some t), after_requests 1 w)
  | Raise GithubException => readme_loop respond subpath rest (after_requests 1 w)
  | Raise RateLimitExceededException =>
      readme_loop respond subpath rest (after_requests 1 w)
  | Raise e => (Raise e, after_requests 1 w)
  | Stuck => (Stuck, after_requests 1 w)
  end.
Proof. cbn [readme_loop]. rewrite fetch_text_run. reflexivity. Qed.

(** The loop over the README names: which requests it makes and what it
    returns. *)
Lemma readme_loop_spec (subpath : option text) (names : list text) :
  forall w,
  exists n,
    snd (readme_loop respond subpath names w) = after_requests n w
    /\ n <= length names
    /\ (forall i filename, i < n - 1 -> nth_error names i = Some filename ->
          is_github (fetched respond (api_calls w + i) (readme_path subpath filename)))
    /\ match fst (readme_loop respond subpath names w) with
       | Ret None =>
           n = length names
           /\ (forall i filename, nth_error names i = Some filename ->
                 is_github (fetched respond (api_calls w + i)
                              (readme_path subpath filename)))
       | Ret (Some t) =>
           exists filename,
             nth_error names (n - 1) = Some filename /\ 0 < n
             /\ fetched respond (api_calls w + (n - 1)) (readme_path subpath filename)
                = Ret t
       | Raise e => 0 < n /\ e <> GithubException /\ e <> RateLimitExceededException
       | Stuck => 0 < n
       end.
Proof.
  induction names as [|filename rest IH]; intros w.
  - exists 0. cbn [readme_loop]. rewrite mret_run. cbn [fst snd length].
    split; [symmetry; apply after_requests_0|]. split; [lia|].
    split; [intros i f H; lia|]. split; [reflexivity|].
    intros [|i] f H; discriminate H.
  - rewrite readme_loop_cons.
    destruct (fetched respond (api_calls w) (readme_path subpath filename))
      as [t|e|] eqn:E.
    + exists 1. cbn [fst snd length]. split; [reflexivity|]. split; [lia|].
      split; [intros i f H; lia|].
      exists filename. split; [reflexivity|]. split; [lia|].
      cbn [Nat.sub]. rewrite Nat.add_0_r. exact E.
    + assert (Go : forall n,
                 snd (readme_loop respond subpath rest (after_requests 1 w))
                 = after_requests n (after_requests 1 w) ->
                 n <= length rest ->
                 (forall i f, i < n - 1 -> nth_error rest i = Some f ->
                    is_github (fetched respond (api_calls (after_requests 1 w) + i)
                                 (readme_path subpath f))) ->
                 is_github (fetched respond (api_calls w) (readme_path subpath filename)) ->
                 snd (readme_loop respond subpath rest (after_requests 1 w))
                 = after_requests (S n) w
                 /\ S n <= length (filename :: rest)
                 /\ (forall i f, i < S n - 1 -> nth_error (filename :: rest) i = Some f ->
                       is_github (fetched respond (api_calls w + i)
                                    (readme_path subpath f)))).
      { intros n W L P G. split; [rewrite W; apply after_requests_S|].
        split; [cbn [length]; lia|].
        intros [|i] f Hi Hf.
        - injection Hf as <-. rewrite Nat.add_0_r. exact G.
        - cbn [nth_error] in Hf.
          assert (Hi' : i < n - 1) by lia.
          specialize (P i f Hi' Hf). cbn [after_requests api_calls] in P.
          replace (api_calls w + S i) with (api_calls w + 1 + i) by lia. exact P. }
      assert (Tail : forall r : res (option text),
                 is_github (fetched respond (api_calls w) (readme_path subpath filename)) ->
                 forall n,
                 match r with
                 | Ret None =>
                     n = length rest
                     /\ (forall i f, nth_error rest i = Some f ->
                           is_github (fetched respond (api_calls (after_requests 1 w) + i)
                                        (readme_path subpath f)))
                 | Ret (Some t) =>
                     exists f,
                       nth_error rest (n - 1) = Some f /\ 0 < n
                       /\ fetched respond (api_calls (after_requests 1 w) + (n - 1))
                            (readme_path subpath f) = Ret t
                 | Raise e' => 0 < n /\ e' <> GithubException
                               /\ e' <> RateLimitExceededException
                 | Stuck => 0 < n
                 end ->
                 match r with
                 | Ret None =>
                     S n = length (filename :: rest)
                     /\ (forall i f, nth_error (filename :: rest) i = Some f ->
                           is_github (fetched respond (api_calls w + i)
                                        (readme_path subpath f)))
                 | Ret (Some t) =>
                     exists f,
                       nth_error (filename :: rest) (S n - 1) = Some f /\ 0 < S n
                       /\ fetched respond (api_calls w + (S n - 1))
                            (readme_path subpath f) = Ret t
                 | Raise e' => 0 < S n /\ e' <> GithubException
                               /\ e' <> RateLimitExceededException
                 | Stuck => 0 < S n
                 end).
      { intros r G n. cbn [after_requests api_calls]. destruct r as [[t|]|e'|].
        - intros [f [Hf [Hn Ht]]]. exists f.
          replace (S n - 1) with (S (n - 1)) by lia. cbn [nth_error].
          split; [exact Hf|]. split; [lia|].
          replace (api_calls w + S (n - 1)) with (api_calls w + 1 + (n - 1)) by lia.
          exact Ht.
        - intros [Hn P]. split; [cbn [length]; lia|].
          intros [|i] f Hf.
          + injection Hf as <-. rewrite Nat.add_0_r. exact G.
          + cbn [nth_error] in Hf. specialize (P i f Hf).
            replace (api_calls w + S i) with (api_calls w + 1 + i) by lia. exact P.
        - intros [Hn H]. split; [lia | exact H].
        - intros Hn. lia. }
      destruct e.
      1, 2, 5:
        exists 1; cbn [fst snd length]; split; [reflexivity|]; split; [lia|];
        split; [intros i f H; lia|]; split; [lia|]; split; discriminate.
      * destruct (IH (after_requests 1 w)) as [n [W [L [P R]]]].
        assert (G : is_github (fetched respond (api_calls w)
                                 (readme_path subpath filename)))
          by (rewrite E; right; reflexivity).
        exists (S n). destruct (Go n W L P G) as [W' [L' P']].
        split; [exact W'|]. split; [exact L'|]. split; [exact P'|].
        apply (Tail _ G n). exact R.
      * destruct (IH (after_requests 1 w)) as [n [W [L [P R]]]].
        assert (G : is_github (fetched respond (api_calls w)
                                 (readme_path subpath filename)))
          by (rewrite E; left; reflexivity).
        exists (S n). destruct (Go n W L P G) as [W' [L' P']].
        split; [exact W'|]. split; [exact L'|]. split; [exact P'|].
        apply (Tail _ G n). exact R.
    + exists 1. cbn [fst snd length]. split; [reflexivity|]. split; [lia|].
      split; [intros i f H; lia | lia].
Qed.

End WithWorld.

End ReadmeFacts.

Module FallbackFacts.
Import PyStr PyStrFacts EnhancedToolExtractor ResFacts WorldFacts MonadFacts LoopFacts
       TotalFacts ReadmeFacts.

(** The line the fallback adds to the log. *)
Definition fallback_line (n : nat) : text :=
  raw "Extracted " ++ str_of_nat n ++ raw " tools from README fallback".

(** The server after the fallback found the tools [ts]. *)
Definition fallback_result (server : MCPServer) (ts : list MCPTool) (s' : MCPServer)
    : Prop :=
  name s' = name server /\ github_url s' = github_url server
  /\ server_type s' = server_type server
  /\ tools s' = tools server ++ ts
  /\ prompts s' = prompts server /\ resources s' = resources server
  /\ error_message s' = error_message server
  /\ extraction_log s' = match ts with
                         | [] => extraction_log server
                         | _ => Some (log_or_empty server ++ [fallback_line (length ts)])
                         end.

Lemma fallback_result_none (server : MCPServer) : fallback_result server [] server.
Proof. unfold fallback_result. rewrite app_nil_r. repeat split; reflexivity. Qed.

Section WithWorld.
Variable str_exn : exn -> text.
Variable respond : nat -> text -> response.

Lemma fallback_run (server : MCPServer) (subpath : option text) (w : world) :
  exists n lines r,
    _extract_from_readme_fallback str_exn respond server subpath w
    = (r, mkWorld (api_calls w + n) (sleeps w) (stdout w ++ lines) (extraction_stats w)
                  (files w) (S (fallback_runs w)))
    /\ n <= 5
    /\ (r = Stuck \/ exists s' ts, r = Ret s' /\ fallback_result server ts s').
Proof.
  unfold _extract_from_readme_fallback, _get_readme_content.
  rewrite mbind_run. unfold enter_fallback at 1, modify at 1. cbv beta iota.
  set (w1 := mkWorld _ _ _ _ _ _).
  rewrite try_except_run, mbind_run.
  destruct (readme_loop_spec respond subpath readme_files w1) as [n [W [L _]]].
  change (length readme_files) with 5 in L.
  destruct (readme_loop respond subpath readme_files w1) as [[r|e|] w2];
    cbn [snd] in W; subst w2; exists n.
  - assert (K : forall s', (exists ts, fallback_result server ts s') ->
                exists lines r,
                  mret s' (after_requests n w1)
                  = (r, mkWorld (api_calls w + n) (sleeps w) (stdout w ++ lines)
                                (extraction_stats w) (files w) (S (fallback_runs w)))
                  /\ n <= 5
                  /\ (r = Stuck \/ exists s'' ts, r = Ret s'' /\ fallback_result server ts s'')).
    { intros s' [ts H]. exists [], (Ret s'). rewrite mret_run, app_nil_r.
      split; [reflexivity|]. split; [exact L|]. right. exists s', ts. auto. }
    destruct r as [content|];
      [|apply K; exists []; apply fallback_result_none].
    destruct (nonempty content);
      [|apply K; exists []; apply fallback_result_none].
    rewrite mbind_run, lift_run.
    destruct (markdown_returns content) as [ts E]. rewrite E.
    apply K. exists ts. unfold fallback_result, fallback_line.
    destruct ts as [|t ts]; cbn; rewrite ?app_nil_r; repeat split; reflexivity.
  - exists [raw "Error in README fallback extraction: " ++ str_exn e], (Ret server).
    split; [reflexivity|]. split; [exact L|]. right. exists server, [].
    split; [reflexivity | apply fallback_result_none].
  - exists [], Stuck. rewrite app_nil_r. split; [reflexivity|]. split; [exact L|].
    left. reflexivity.
Qed.

Lemma fallback_spec (server : MCPServer) (subpath : option text) (w : world) :
  let out := _extract_from_readme_fallback str_exn respond server subpath w in
  (forall e, fst out <> Raise e)
  /\ (forall s', fst out = Ret s' -> exists ts, fallback_result server ts s')
  /\ sleeps (snd out) = sleeps w
  /\ extraction_stats (snd out) = extraction_stats w
  /\ files (snd out) = files w
  /\ api_calls w <= api_calls (snd out) <= api_calls w + 5.
Proof.
  cbv zeta. destruct (fallback_run server subpath w) as [n [lines [r [E [L R]]]]].
  rewrite E. cbn [fst snd sleeps extraction_stats files api_calls].
  split.
  - intros e H. destruct R as [R|[s' [ts [R _]]]]; rewrite R in H; discriminate H.
  - split; [|repeat split; lia].
    intros s' H. destruct R as [R|[s'' [ts [R F]]]]; rewrite R in H; [discriminate H|].
    injection H as <-. exists ts. exact F.
Qed.

End WithWorld.

End FallbackFacts.

Module ServerFacts.
Import PyStr PyStrFacts EnhancedToolExtractor ResFacts WorldFacts MonadFacts LoopFacts
       LocalFacts TotalFacts ReadmeFacts FallbackFacts.

(** The server after an extraction: the same server, with collections that
    only grew. *)
Definition grown (s s' : MCPServer) : Prop :=
  name s' = name s /\ github_url s' = github_url s /\ server_type s' = server_type s
  /\ (exists ts, tools s' = tools s ++ ts)
  /\ (exists ps, prompts s' = prompts s ++ ps)
  /\ (exists rs, resources s' = resources s ++ rs).

Lemma grown_refl (s : MCPServer) : grown s s.
Proof.
  unfold grown. repeat split; try reflexivity; exists []; rewrite app_nil_r; reflexivity.
Qed.

Lemma grown_trans (a b c : MCPServer) : grown a b -> grown b c -> grown a c.
Proof.
  intros [N1 [U1 [T1 [[ts1 A1] [[ps1 B1] [rs1 C1]]]]]]
         [N2 [U2 [T2 [[ts2 A2] [[ps2 B2] [rs2 C2]]]]]].
  unfold grown. repeat split; try congruence.
  - exists (ts1 ++ ts2). rewrite A2, A1, app_assoc. reflexivity.
  - exists (ps1 ++ ps2). rewrite B2, B1, app_assoc. reflexivity.
  - exists (rs1 ++ rs2). rewrite C2, C1, app_assoc. reflexivity.
Qed.

Lemma extends_grown (s s' : MCPServer) : extends s s' -> grown s s'.
Proof.
  intros [N [U [T [_ [_ [A [B C]]]]]]]. unfold grown. auto 10.
Qed.

Lemma fallback_grown (s s' : MCPServer) (ts : list MCPTool) :
  fallback_result s ts s' -> grown s s'.
Proof.
  intros [N [U [T [A [B [C _]]]]]]. unfold grown.
  repeat split; try assumption;
    [exists ts; exact A | exists []; rewrite app_nil_r; exact B
    | exists []; rewrite app_nil_r; exact C].
Qed.

Lemma with_log_grown (s : MCPServer) (l : option (list text)) : grown s (with_log s l).
Proof.
  unfold grown, with_log. cbn.
  repeat split; exists []; rewrite app_nil_r; reflexivity.
Qed.

Lemma with_error_grown (s : MCPServer) (m : option text) : grown s (with_error s m).
Proof.
  unfold grown, with_error. cbn.
  repeat split; exists []; rewrite app_nil_r; reflexivity.
Qed.

Section WithWorld.
Variable str_exn : exn -> text.
Variable get_repo : text -> res unit.
Variable respond : nat -> text -> response.
Variable path_exists : text -> res bool.
Variable glob : text -> text -> res (list text).
Variable read_text : text -> res text.

(** What follows the loop over the files. *)
Lemma finish_extraction_spec (a : accum) (subpath : option text) (w : world) :
  (forall e, fst (finish_extraction str_exn respond a subpath w) <> Raise e)
  /\ (forall s', fst (finish_extraction str_exn respond a subpath w) = Ret s' ->
        grown (acc_server a) s' /\ error_message s' = error_message (acc_server a)).
Proof.
  unfold finish_extraction. cbv zeta.
  match goal with
  | |- context [if negb (nonempty_result ?s1) then _ else _] => set (server1 := s1)
  end.
  assert (G : grown (acc_server a) server1
              /\ error_message server1 = error_message (acc_server a)).
  { subst server1. destruct (acc_log a); split; try reflexivity;
      [apply grown_refl|].
    eapply grown_trans; apply with_log_grown. }
  destruct (negb (nonempty_result server1)).
  - destruct (fallback_spec str_exn respond server1 subpath w) as [NR [Sp _]].
    cbv zeta in NR, Sp. split; [exact NR|].
    intros s' H. destruct (Sp s' H) as [ts F]. split.
    + exact (grown_trans _ _ _ (proj1 G) (fallback_grown _ _ _ F)).
    + destruct F as [_ [_ [_ [_ [_ [_ [E _]]]]]]]. rewrite E. exact (proj2 G).
  - rewrite mret_run. cbn [fst]. split; [discriminate|].
    intros s' H. injection H as <-. exact G.
Qed.

(** The outcome of the extraction from a repository. *)
Lemma github_spec (server : MCPServer) (w : world) (s' : MCPServer) :
  fst (_extract_from_github_repo str_exn get_repo respond server w) = Ret s' ->
  grown server s'
  /\ (error_message s' = error_message server
      \/ (truthy (error_message server) = false
          /\ exists e, s' = with_error server
                              (Some (raw "Error extracting from GitHub: " ++ str_exn e)))).
Proof.
  unfold _extract_from_github_repo. rewrite try_except_run.
  destruct (_parse_github_url (github_url server)) as [[[owner repo_name] subpath]|].
  - rewrite mbind_run, lift_run.
    destruct (get_repo (owner ++ raw "/" ++ repo_name)) as [u|e|].
    + rewrite mbind_run.
      destruct (_get_all_files_recursive str_exn respond subpath w) as [[all_files|e|] w1].
      * rewrite mbind_run, lift_run.
        destruct (process_files_advances str_exn all_files (mkAccum server [] 0))
          as [NR Adv].
        destruct (process_files str_exn all_files (mkAccum server [] 0)) as [a|e|].
        -- destruct (finish_extraction_spec a subpath w1) as [NRf Spf].
           destruct (Adv a eq_refl) as [Ext _]. cbn [acc_server] in Ext.
           destruct (finish_extraction str_exn respond a subpath w1) as [[s1|e|] w2].
           ++ cbn [fst]. intros H. injection H as <-.
              destruct (Spf s1 eq_refl) as [G E]. split.
              ** exact (grown_trans _ _ _ (extends_grown _ _ Ext) G).
              ** left. rewrite E. destruct Ext as [_ [_ [_ [Ee _]]]]. exact Ee.
           ++ exfalso. exact (NRf e eq_refl).
           ++ discriminate.
        -- exfalso. exact (NR e eq_refl).
        -- discriminate.
      * rewrite mret_run. cbn [fst]. intros H. injection H as <-.
        destruct (truthy (error_message server)) eqn:T.
        -- split; [apply grown_refl | left; reflexivity].
        -- split; [apply with_error_grown | right; split; [reflexivity | exists e; reflexivity]].
      * discriminate.
    + rewrite mret_run. cbn [fst]. intros H. injection H as <-.
      destruct (truthy (error_message server)) eqn:T.
      * split; [apply grown_refl | left; reflexivity].
      * split; [apply with_error_grown | right; split; [reflexivity | exists e; reflexivity]].
    + discriminate.
  - rewrite mret_run. cbn [fst]. intros H. injection H as <-.
    split; [apply grown_refl | left; reflexivity].
Qed.

(** The outcome of the extraction from the local checkout. *)
Lemma reference_spec (server : MCPServer) (w : world) (s' : MCPServer) :
  fst (_extract_from_reference_server str_exn path_exists glob read_text server w) = Ret s' ->
  s' = with_error server
         (Some (raw "Reference server directory not found: " ++ server_path server))
  \/ extends server s'.
Proof.
  rewrite extract_from_reference_server_eq.
  destruct (path_exists (server_path server)) as [found|e|]; try discriminate.
  destruct found; cbn [negb].
  - destruct (glob (server_path server) (raw "**/*.ts")) as [ts_files|e|]; try discriminate.
    destruct (glob (server_path server) (raw "**/*.js")) as [js_files|e|]; try discriminate.
    intros H. right.
    exact (proj2 (proj2 (parse_reference_files_spec str_exn read_text
                           (ts_files ++ js_files) server w)) s' H).
  - cbn [fst]. intros H. injection H as <-. left. reflexivity.
Qed.

Lemma extract_tools_spec (server : MCPServer) (w : world) (s' : MCPServer) :
  fst (extract_tools_from_server str_exn get_repo respond path_exists glob read_text
         server w) = Ret s' ->
  grown server s'.
Proof.
  unfold extract_tools_from_server. rewrite try_except_run.
  destruct (eqb (value (server_type server)) (raw "reference")).
  - pose proof (reference_spec server w) as R.
    destruct (_extract_from_reference_server str_exn path_exists glob read_text server w)
      as [[s1|e|] w1].
    + cbn [fst]. intros H. injection H as <-.
      destruct (R s1 eq_refl) as [->|E];
        [apply with_error_grown | apply extends_grown; exact E].
    + rewrite mret_run. cbn [fst]. intros H. injection H as <-.
      destruct (truthy (error_message server)); [apply grown_refl | apply with_error_grown].
    + discriminate.
  - pose proof (github_spec server w) as G.
    destruct (_extract_from_github_repo str_exn get_repo respond server w)
      as [[s1|e|] w1].
    + cbn [fst]. intros H. injection H as <-. exact (proj1 (G s1 eq_refl)).
    + rewrite mret_run. cbn [fst]. intros H. injection H as <-.
      destruct (truthy (error_message server)); [apply grown_refl | apply with_error_grown].
    + discriminate.
Qed.

End WithWorld.

End ServerFacts.

Module UrlFacts.
Import PyStr PyStrFacts EnhancedToolExtractor.

(** The characters of the names of owners, repositories, branches and
    directories: word characters, the hyphen and the dot. *)
Definition name_char (c : ascii) : bool :=
  (is_word c || eqb_char c "-" || eqb_char c ".")%bool.

(** A non-empty name of such characters. *)
Definition segment (s : text) : Prop := s <> [] /\ forallb name_char s = true.

Lemma name_char_plain (c : ascii) :
  name_char c = true ->
  Re.one_of "/?#" c = false /\ Re.one_of "?#" c = false /\ mem_char (raw "/") c = false
  /\ eqb_char c "/" = false.
Proof.
  destruct c as [[] [] [] [] [] [] [] []]; vm_compute; intros H;
    try discriminate H; repeat split.
Qed.

Lemma take_until_none (stop : ascii -> bool) (a : text) :
  forallb (fun c => negb (stop c)) a = true -> take_until stop a = (a, []).
Proof.
  induction a as [|c a IH]; cbn [forallb take_until]; [reflexivity|].
  rewrite andb_true_iff, negb_true_iff. intros [-> H]. rewrite (IH H). reflexivity.
Qed.

Lemma take_until_stop (stop : ascii -> bool) (a : text) (c : ascii) (b : text) :
  forallb (fun c => negb (stop c)) a = true -> stop c = true ->
  take_until stop (a ++ c :: b) = (a, c :: b).
Proof.
  intros Ha Hc. induction a as [|x a IH]; cbn [app take_until].
  - rewrite Hc. reflexivity.
  - cbn [forallb] in Ha. apply andb_true_iff in Ha. destruct Ha as [Hx Ha].
    apply negb_true_iff in Hx. rewrite Hx, (IH Ha). reflexivity.
Qed.

Lemma split_slash_segment (seg cur : text) :
  forallb name_char seg = true -> split_slash seg cur = [rev cur ++ seg].
Proof.
  revert cur. induction seg as [|c seg IH]; intros cur H; cbn [split_slash].
  - rewrite app_nil_r. reflexivity.
  - cbn [forallb] in H. apply andb_true_iff in H. destruct H as [Hc H].
    destruct (name_char_plain c Hc) as [_ [_ [_ E]]]. rewrite E, (IH _ H).
    cbn [rev]. rewrite <- app_assoc. reflexivity.
Qed.

Lemma split_slash_cons (seg cur rest : text) :
  forallb name_char seg = true ->
  split_slash (seg ++ raw "/" ++ rest) cur = (rev cur ++ seg) :: split_slash rest [].
Proof.
  revert cur. induction seg as [|c seg IH]; intros cur H.
  - rewrite app_nil_r. reflexivity.
  - cbn [forallb] in H. apply andb_true_iff in H. destruct H as [Hc H].
    destruct (name_char_plain c Hc) as [_ [_ [_ E]]].
    change ((c :: seg) ++ raw "/" ++ rest) with (c :: (seg ++ raw "/" ++ rest)).
    cbn [split_slash]. rewrite E, (IH _ H). cbn [rev]. rewrite <- app_assoc. reflexivity.
Qed.

(** [split] undoes [join]. *)
Lemma split_slash_join (segs : list text) :
  Forall segment segs -> segs <> [] -> split_slash (join (raw "/") segs) [] = segs.
Proof.
  induction segs as [|seg segs IH]; intros H N; [contradiction|].
  inversion H as [|? ? [_ Hs] Hrest]; subst.
  destruct segs as [|seg' segs].
  - cbn [join]. apply (split_slash_segment seg []). exact Hs.
  - change (join (raw "/") (seg :: seg' :: segs))
      with (seg ++ raw "/" ++ join (raw "/") (seg' :: segs)).
    rewrite (split_slash_cons seg []); [|exact Hs]. cbn [rev app].
    rewrite IH; [reflexivity | exact Hrest | discriminate].
Qed.

Lemma forallb_join (segs : list text) :
  Forall segment segs ->
  forallb (fun c => negb (Re.one_of "?#" c)) (join (raw "/") segs) = true.
Proof.
  induction segs as [|seg segs IH]; intros H; [reflexivity|].
  inversion H as [|? ? [_ Hs] Hrest]; subst.
  assert (S : forallb (fun c => negb (Re.one_of "?#" c)) seg = true).
  { apply forallb_forall. intros c Hc. rewrite forallb_forall in Hs.
    destruct (name_char_plain c (Hs c Hc)) as [_ [E _]]. rewrite E. reflexivity. }
  destruct segs as [|seg' segs]; [exact S|].
  change (join (raw "/") (seg :: seg' :: segs))
    with (seg ++ raw "/" ++ join (raw "/") (seg' :: segs)).
  rewrite !forallb_app, S, (IH Hrest). reflexivity.
Qed.

Lemma segment_first (seg : text) :
  segment seg -> exists c s, seg = c :: s /\ name_char c = true.
Proof.
  intros [N H]. destruct seg as [|c s]; [contradiction|].
  exists c, s. split; [reflexivity|]. cbn [forallb] in H.
  apply andb_true_iff in H. exact (proj1 H).
Qed.

Lemma segment_last (seg : text) :
  segment seg -> exists c s, rev seg = c :: s /\ name_char c = true.
Proof.
  intros [N H]. destruct (rev seg) as [|c s] eqn:E.
  - exfalso. apply N. rewrite <- (rev_involutive seg), E. reflexivity.
  - exists c, s. split; [reflexivity|]. rewrite forallb_forall in H. apply H.
    apply in_rev. rewrite E. left. reflexivity.
Qed.

Lemma join_first (segs : list text) :
  Forall segment segs -> segs <> [] ->
  exists c s, join (raw "/") segs = c :: s /\ name_char c = true.
Proof.
  intros H N. destruct segs as [|seg segs]; [contradiction|].
  inversion H as [|? ? Hs Hrest]; subst.
  destruct (segment_first seg Hs) as [c [s [-> Hc]]].
  destruct segs as [|seg' segs]; [exists c, s; auto|].
  exists c, (s ++ raw "/" ++ join (raw "/") (seg' :: segs)). auto.
Qed.

Lemma join_last (segs : list text) :
  Forall segment segs -> segs <> [] ->
  exists c s, rev (join (raw "/") segs) = c :: s /\ name_char c = true.
Proof.
  induction segs as [|seg segs IH]; intros H N; [contradiction|].
  inversion H as [|? ? Hs Hrest]; subst.
  destruct segs as [|seg' segs]; [exact (segment_last seg Hs)|].
  change (join (raw "/") (seg :: seg' :: segs))
    with (seg ++ raw "/" ++ join (raw "/") (seg' :: segs)).
  destruct (IH Hrest ltac:(discriminate)) as [c [s [E Hc]]].
  rewrite !rev_app_distr, E. exists c, (s ++ rev (raw "/") ++ rev seg).
  split; [rewrite <- app_assoc; reflexivity | exact Hc].
Qed.

(** Stripping the slashes from [/a/b/c] gives [a/b/c]. *)
Lemma strip_path (segs : list text) :
  Forall segment segs -> segs <> [] ->
  strip_chars (raw "/") (raw "/" ++ join (raw "/") segs) = join (raw "/") segs.
Proof.
  intros H N. unfold strip_chars, strip_by, rstrip_by.
  destruct (join_first segs H N) as [c [s [E Hc]]].
  destruct (join_last segs H N) as [c' [s' [E' Hc']]].
  destruct (name_char_plain c Hc) as [_ [_ [M _]]].
  destruct (name_char_plain c' Hc') as [_ [_ [M' _]]].
  assert (L : lstrip_by (mem_char (raw "/")) (raw "/" ++ join (raw "/") segs)
              = join (raw "/") segs).
  { change (raw "/" ++ join (raw "/") segs) with ("/"%char :: join (raw "/") segs).
    cbn [lstrip_by]. change (mem_char (raw "/") "/"%char) with true. cbv iota.
    rewrite E. cbn [lstrip_by]. rewrite M. reflexivity. }
  rewrite L, E'. cbn [lstrip_by]. rewrite M', <- E'. apply rev_involutive.
Qed.

Lemma name_char_url (c : ascii) :
  name_char c = true ->
  unsafe_url_byte c = false /\ eqb_char c "#" = false /\ eqb_char c "?" = false
  /\ eqb_char c ";" = false.
Proof.
  destruct c as [[] [] [] [] [] [] [] []]; vm_compute; intros H;
    try discriminate H; repeat split.
Qed.

(** What [urlsplit] makes of a URL that starts with [https://]. *)
Lemma urlsplit_https (t : text) :
  urlsplit (raw "https://" ++ t) =
  let (netloc, rest) :=
    take_until (Re.one_of "/?#") (filter (fun c => negb (unsafe_url_byte c)) t) in
  (raw "https", netloc,
   fst (take_until (fun c => eqb_char c "?")
          (fst (take_until (fun c => eqb_char c "#") rest)))).
Proof. reflexivity. Qed.

Lemma filter_all {A} (f : A -> bool) (l : list A) : forallb f l = true -> filter f l = l.
Proof.
  induction l as [|x l IH]; cbn [forallb filter]; [reflexivity|].
  rewrite andb_true_iff. intros [-> H]. rewrite (IH H). reflexivity.
Qed.

Lemma forallb_name_chars (f : ascii -> bool) (t : text) :
  (forall c, name_char c = true -> f c = true) ->
  forallb name_char t = true -> forallb f t = true.
Proof.
  intros K H. apply forallb_forall. intros c Hc. rewrite forallb_forall in H.
  exact (K c (H c Hc)).
Qed.

(** The characters of a path of segments. *)
Lemma forallb_path (f : ascii -> bool) (segs : list text) :
  (forall c, name_char c = true -> f c = true) -> f "/"%char = true ->
  Forall segment segs -> forallb f (join (raw "/") segs) = true.
Proof.
  intros K S H. induction segs as [|seg segs IH]; [reflexivity|].
  inversion H as [|? ? [_ Hs] Hrest]; subst.
  pose proof (forallb_name_chars f seg K Hs) as F.
  destruct segs as [|seg' segs]; [exact F|].
  change (join (raw "/") (seg :: seg' :: segs))
    with (seg ++ raw "/" ++ join (raw "/") (seg' :: segs)).
  rewrite !forallb_app, F, (IH Hrest). cbn [forallb raw map list_ascii_of_string].
  change (f (if eqb_char "/" "~" then ascii_of_N 34 else "/"%char)) with (f "/"%char).
  rewrite S. reflexivity.
Qed.

Lemma no_params (t : text) :
  forallb (fun c => negb (eqb_char c ";")) t = true ->
  existsb (fun c => eqb_char c ";") t = false.
Proof.
  induction t as [|c t IH]; cbn [forallb existsb]; [reflexivity|].
  rewrite andb_true_iff, negb_true_iff. intros [-> H]. exact (IH H).
Qed.

Lemma urlparse_github (segs : list text) :
  Forall segment segs -> segs <> [] ->
  urlparse (raw "https://github.com/" ++ join (raw "/") segs)
  = (raw "github.com", raw "/" ++ join (raw "/") segs).
Proof.
  intros H N. unfold urlparse.
  change (raw "https://github.com/" ++ join (raw "/") segs)
    with (raw "https://" ++ raw "github.com" ++ "/"%char :: join (raw "/") segs).
  rewrite urlsplit_https.
  assert (P : forall f : ascii -> bool,
             (forall c, name_char c = true -> f c = true) -> f "/"%char = true ->
             forallb f (join (raw "/") segs) = true)
    by (intros f K S; exact (forallb_path f segs K S H)).
  rewrite filter_all.
  2:{ rewrite forallb_app. cbn [forallb]. rewrite P; [reflexivity| |reflexivity].
      intros c Hc. destruct (name_char_url c Hc) as [E _]. rewrite E. reflexivity. }
  rewrite (take_until_stop (Re.one_of "/?#") (raw "github.com") "/"%char);
    [|reflexivity|reflexivity].
  change ("/"%char :: join (raw "/") segs) with (raw "/" ++ join (raw "/") segs).
  rewrite (take_until_none (fun c => eqb_char c "#")).
  2:{ rewrite forallb_app, P; [reflexivity| |reflexivity].
      intros c Hc. destruct (name_char_url c Hc) as [_ [E _]]. rewrite E. reflexivity. }
  cbn [fst]. rewrite (take_until_none (fun c => eqb_char c "?")).
  2:{ rewrite forallb_app, P; [reflexivity| |reflexivity].
      intros c Hc. destruct (name_char_url c Hc) as [_ [_ [E _]]]. rewrite E. reflexivity. }
  cbn [fst]. rewrite no_params; [rewrite andb_false_r; reflexivity|].
  rewrite forallb_app, P; [reflexivity| |reflexivity].
  intros c Hc. destruct (name_char_url c Hc) as [_ [_ [_ E]]]. rewrite E. reflexivity.
Qed.

(** What [_parse_github_url] makes of [https://github.com/a/b/...]. *)
Lemma parse_github_segments (segs : list text) :
  Forall segment segs -> segs <> [] ->
  _parse_github_url (raw "https://github.com/" ++ join (raw "/") segs) =
  if Nat.ltb (length segs) 2 then None
  else Some (nth 0 segs [], nth 1 segs [],
             if (Nat.ltb 4 (length segs) && eqb (nth 2 segs []) (raw "tree"))%bool
             then Some (join (raw "/") (skipn 4 segs)) else None).
Proof.
  intros H N. unfold _parse_github_url.
  rewrite (urlparse_github segs H N). cbv iota beta.
  change (negb (eqb (raw "github.com") (raw "github.com"))) with false. cbv iota.
  rewrite (strip_path segs H N), (split_slash_join segs H N). reflexivity.
Qed.

Lemma parse_other_host (host rest : text) :
  forallb name_char host = true -> host <> raw "github.com" ->
  _parse_github_url (raw "https://" ++ host ++ raw "/" ++ rest) = None.
Proof.
  intros H N. unfold _parse_github_url, urlparse.
  rewrite urlsplit_https, filter_app, filter_all.
  2:{ apply (forallb_name_chars _ host); [|exact H].
      intros c Hc. destruct (name_char_url c Hc) as [E _]. rewrite E. reflexivity. }
  change (filter (fun c => negb (unsafe_url_byte c)) (raw "/" ++ rest))
    with ("/"%char :: filter (fun c => negb (unsafe_url_byte c)) rest).
  rewrite (take_until_stop (Re.one_of "/?#") host "/"%char); [| |reflexivity].
  - cbv beta iota zeta.
    destruct (eqb host (raw "github.com")) eqn:E; [|reflexivity].
    apply eqb_eq in E. contradiction.
  - apply (forallb_name_chars _ host); [|exact H].
    intros c Hc. destruct (name_char_plain c Hc) as [E _]. rewrite E. reflexivity.
Qed.

End UrlFacts.

Module ThresholdFacts.
Import PyStr EnhancedToolExtractor ScoreModel ScoreFacts.
Local Open Scope Q_scope.

(** The bonus for the number of files. *)
Definition files_bonus (f : nat) : Q :=
  if Nat.ltb 1 f then Qmin 0.1 (Qnat f * 0.02) else 0.

Lemma sum_of_files (b : bool) (n d f : nat) :
  sum_of b n d f == tool_part b n d + files_bonus f.
Proof. apply sum_of_split. Qed.

Lemma files_bonus_mono (f1 f2 : nat) : (f1 <= f2)%nat -> files_bonus f1 <= files_bonus f2.
Proof.
  intros H. unfold files_bonus.
  destruct (Nat.ltb_spec 1 f1) as [H1|H1]; destruct (Nat.ltb_spec 1 f2) as [H2|H2];
    try lia.
  - apply Q.min_le_compat_l. apply Qmult_le_compat_r; [|discriminate].
    apply Qnat_le. exact H.
  - apply (files_bonus_bounds f2).
  - apply Qle_refl.
Qed.

Lemma files_bonus_full (f : nat) : (5 <= f)%nat -> files_bonus f == 0.1.
Proof.
  intros H. unfold files_bonus.
  destruct (Nat.ltb_spec 1 f) as [H1|H1]; [|lia].
  apply Q.min_l.
  setoid_replace 0.1 with (Qnat 5 * 0.02) by reflexivity.
  apply Qmult_le_compat_r; [|discriminate]. apply Qnat_le. exact H.
Qed.

Lemma score_of_le (b : bool) (n d f1 f2 : nat) (err : bool) :
  sum_of b n d f1 <= sum_of b n d f2 -> score_of b n d f1 err <= score_of b n d f2 err.
Proof.
  intros S. unfold score_of. apply Q.min_le_compat_l.
  destruct err; [|exact S]. apply Qmult_le_compat_r; [exact S | discriminate].
Qed.

Lemma score_of_files_mono (b : bool) (n d f1 f2 : nat) (err : bool) :
  (f1 <= f2)%nat -> score_of b n d f1 err <= score_of b n d f2 err.
Proof.
  intros H. apply score_of_le. rewrite !sum_of_files.
  apply Qplus_le_compat; [apply Qle_refl | apply files_bonus_mono; exact H].
Qed.

Lemma score_of_files_full (b : bool) (n d f : nat) (err : bool) :
  (5 <= f)%nat -> score_of b n d f err == score_of b n d 5 err.
Proof.
  intros H.
  assert (E : sum_of b n d f == sum_of b n d 5).
  { rewrite !sum_of_files, (files_bonus_full f H), (files_bonus_full 5); [reflexivity|].
    apply Nat.le_refl. }
  apply Qle_antisym; apply score_of_le; rewrite E; apply Qle_refl.
Qed.

(** Without any declaration the sum is the bonus for the files. *)
Lemma sum_of_empty (d f : nat) : sum_of false 0 d f == files_bonus f.
Proof.
  unfold sum_of, files_bonus. simpl (Nat.ltb 0 0). cbv iota.
  destruct (Nat.ltb 1 f); [apply Qplus_0_l | reflexivity].
Qed.

Lemma files_bonus_range (f : nat) : 0 <= files_bonus f /\ files_bonus f <= 0.1.
Proof.
  unfold files_bonus. destruct (Nat.ltb 1 f); [apply files_bonus_bounds|].
  split; discriminate.
Qed.

Lemma score_of_empty (d f : nat) (err : bool) : score_of false 0 d f err <= 0.1.
Proof.
  unfold score_of. pose proof (sum_of_empty d f) as E.
  destruct (files_bonus_range f) as [B0 B1].
  eapply Qle_trans; [apply Q.le_min_r|].
  destruct err; rewrite E; lra.
Qed.

Lemma score_of_idle (d f : nat) (err : bool) :
  (f <= 1)%nat -> score_of false 0 d f err == 0.
Proof.
  intros H. unfold score_of.
  assert (B : sum_of false 0 d f == 0).
  { rewrite sum_of_empty. unfold files_bonus. destruct (Nat.ltb_spec 1 f); [lia | reflexivity]. }
  destruct err; rewrite B; reflexivity.
Qed.

(** With a declaration the sum is at least the base score. *)
Lemma sum_of_nonempty (n d f : nat) : (d <= n)%nat -> 0.5 <= sum_of true n d f.
Proof.
  intros Hd. unfold sum_of.
  pose proof (tool_bonus_bounds n) as [T0 T1].
  pose proof (files_bonus_bounds f) as [F0 F1].
  set (T := Qmin 0.3 (Qnat n * 0.1)) in *.
  set (F := Qmin 0.1 (Qnat f * 0.02)) in *.
  destruct (Nat.ltb_spec 0 n) as [Hn|Hn].
  - destruct (ratio_bounds d n Hn Hd) as [R0 R1].
    set (R := Qnat d / Qnat n) in *.
    assert (R2 : 0 <= R * 0.2) by (apply Qmult_le_0_compat; [exact R0 | discriminate]).
    destruct (Nat.ltb 1 f); repeat rewrite Qplus_0_l; lra.
  - destruct (Nat.ltb 1 f); repeat rewrite Qplus_0_l; lra.
Qed.

Lemma score_of_nonempty (n d f : nat) (err : bool) :
  (d <= n)%nat ->
  0.35 <= score_of true n d f err /\ (err = false -> 0.5 <= score_of true n d f err).
Proof.
  intros Hd. pose proof (sum_of_nonempty n d f Hd) as S. unfold score_of. split.
  - apply Q.min_glb; [discriminate|]. destruct err; lra.
  - intros ->. apply Q.min_glb; [discriminate | exact S].
Qed.

Lemma empty_result_tools (server : MCPServer) :
  nonempty_result server = false -> length (tools server) = 0%nat.
Proof.
  unfold nonempty_result. destruct (tools server); [reflexivity|].
  destruct (prompts server); destruct (resources server); discriminate.
Qed.

End ThresholdFacts.

Module CategoryFacts.
Import PyStr PyStrFacts EnhancedToolExtractor MCPRegistryScraper.

Lemma in_list_of_set (l : list text) (x : text) : In x (list_of_set l) <-> In x l.
Proof. unfold list_of_set. apply nodup_In. Qed.

Lemma NoDup_list_of_set (l : list text) : NoDup (list_of_set l).
Proof. unfold list_of_set. apply NoDup_nodup. Qed.

(** The categories before duplicates are dropped. *)
Lemma in_matching_categories (t : text) (table : list (text * list text)) (c : text) :
  In c (flat_map (fun '(category, keywords) =>
                    if existsb (fun keyword => contains t keyword) keywords
                    then [category] else [])
                 table)
  <-> exists keywords keyword,
        In (c, keywords) table /\ In keyword keywords /\ contains t keyword = true.
Proof.
  rewrite in_flat_map. split.
  - intros [[category keywords] [Hin H]].
    destruct (existsb _ keywords) eqn:E; [|destruct H].
    destruct H as [<-|[]]. apply existsb_exists in E. destruct E as [keyword [Hk Hc]].
    exists keywords, keyword. auto.
  - intros [keywords [keyword [Hin [Hk Hc]]]]. exists (c, keywords).
    split; [exact Hin|].
    assert (E : existsb (fun keyword => contains t keyword) keywords = true).
    { apply existsb_exists. exists keyword. auto. }
    rewrite E. left. reflexivity.
Qed.

Lemma in_categories (server : ServerEntry) (c : text) :
  In c (categories (_categorize_server server))
  <-> exists keywords keyword,
        In (c, keywords) category_keywords /\ In keyword keywords
        /\ contains (category_text server) keyword = true.
Proof.
  unfold _categorize_server. cbn [categories]. rewrite in_list_of_set.
  apply in_matching_categories.
Qed.

Lemma in_tags (server : ServerEntry) (t : text) :
  In t (tags (_categorize_server server))
  <-> exists stats,
        repository_stats server = Some stats
        /\ (In t (topics stats)
            \/ exists l, language stats = Some l /\ l <> [] /\ t = lower l).
Proof.
  unfold _categorize_server. cbn [tags]. rewrite in_list_of_set.
  destruct (repository_stats server) as [stats|].
  - assert (T : match topics stats with [] => [] | _ :: _ => topics stats end
                = topics stats) by (destruct (topics stats); reflexivity).
    rewrite T. destruct (language stats) as [l|] eqn:L; cbn [truthy].
    + destruct l as [|x l]; cbn [nonempty].
      * split.
        -- intros H. exists stats. auto.
        -- intros [st [E [H|[l' [E' [N _]]]]]]; injection E as <-; [exact H|].
           rewrite L in E'. injection E' as <-. contradiction.
      * rewrite in_app_iff. split.
        -- intros [H|[<-|[]]]; exists stats; split; try reflexivity; [left; exact H|].
           right. exists (x :: l). split; [exact L|]. split; [discriminate | reflexivity].
        -- intros [st [E [H|[l' [E' [N ->]]]]]]; injection E as <-; [left; exact H|].
           rewrite L in E'. injection E' as <-. right. left. reflexivity.
    + split.
      * intros H. exists stats. auto.
      * intros [st [E [H|[l' [E' _]]]]]; injection E as <-; [exact H|].
        rewrite L in E'. discriminate E'.
  - split; [intros [] | intros [st [E _]]; discriminate E].
Qed.

(** A keyword inside a word of the text counts as the keyword. *)
Lemma contains_trans (t word keyword : text) :
  contains t word = true -> contains word keyword = true -> contains t keyword = true.
Proof.
  rewrite !contains_spec. intros [a [b ->]] [a' [b' ->]].
  exists (a ++ a'), (b' ++ b). rewrite <- !app_assoc. reflexivity.
Qed.

Lemma lower_app (a b : text) : lower (a ++ b) = lower a ++ lower b.
Proof. unfold lower. apply map_app. Qed.

End CategoryFacts.

Module ScraperFacts.
Import PyStr PyStrFacts EnhancedToolExtractor MCPRegistryScraper WorldFacts MonadFacts
       LocalFacts.

(** [server.is_accessible and not server.error_message] *)
Definition scraped_ok (s : ServerEntry) : bool :=
  (is_accessible s && negb (truthy (error_message (core s))))%bool.

(** The line of [errors] for a server, if it has an error message. *)
Definition error_lines (s : ServerEntry) : list text :=
  match error_message (core s) with
  | Some m => if nonempty m then [name (core s) ++ raw ": " ++ m] else []
  | None => []
  end.

(** [servers[:max_servers]] under [if max_servers]. *)
Definition selected (registry : list ServerEntry) (max_servers : option Z)
    : list ServerEntry :=
  match max_servers with
  | Some n => if (n =? 0)%Z then registry else slice_to registry n
  | None => registry
  end.

(** The loop state after the server [s] was handled. *)
Definition counted (s : ServerEntry) (p : progress) : progress :=
  mkProgress (successful p + (if scraped_ok s then 1 else 0))
             (failed p + (if scraped_ok s then 0 else 1))
             (errs p ++ error_lines s) (handled p ++ [s]).

Lemma print_run (line : text) (w : world) :
  print line w = (Ret tt, mkWorld (api_calls w) (sleeps w) (stdout w ++ [line])
                                  (extraction_stats w) (files w) (fallback_runs w)).
Proof. reflexivity. Qed.

Lemma is_type_other (s : ServerEntry) :
  is_type (raw "third_party") s = negb (is_type (raw "reference") s).
Proof. unfold is_type. destruct (server_type (core s)); reflexivity. Qed.

Lemma type_partition (l : list ServerEntry) :
  length (filter (is_type (raw "reference")) l)
  + length (filter (is_type (raw "third_party")) l) = length l.
Proof.
  induction l as [|s l IH]; [reflexivity|]. cbn [filter]. rewrite is_type_other.
  destruct (is_type (raw "reference") s); cbn [negb length]; lia.
Qed.

Lemma ok_partition (l : list ServerEntry) :
  length (filter scraped_ok l) + length (filter (fun s => negb (scraped_ok s)) l)
  = length l.
Proof.
  induction l as [|s l IH]; [reflexivity|]. cbn [filter].
  destruct (scraped_ok s); cbn [negb length]; lia.
Qed.

Section WithScraper.
Variable str_exn : exn -> text.
Variable get_repo : text -> res unit.
Variable respond : nat -> text -> response.
Variable path_exists : text -> res bool.
Variable glob : text -> text -> res (list text).
Variable read_text : text -> res text.
Variable parse_registry : res (list ServerEntry).
Variable enhance_server : nat -> ServerEntry -> ServerEntry.

Local Abbreviation extract := (extract str_exn get_repo respond path_exists glob read_text).
Local Abbreviation scrape_one :=
  (scrape_one str_exn get_repo respond path_exists glob read_text enhance_server).
Local Abbreviation scrape_loop :=
  (scrape_loop str_exn get_repo respond path_exists glob read_text enhance_server).
Local Abbreviation scrape_all :=
  (scrape_all str_exn get_repo respond path_exists glob read_text parse_registry
     enhance_server).

Lemma extract_no_raise (server : ServerEntry) (w : world) (e : exn) :
  fst (extract server w) <> Raise e.
Proof.
  unfold MCPRegistryScraper.extract. rewrite mbind_run.
  pose proof (extract_tools_no_raise str_exn get_repo respond path_exists glob read_text
                (core server) w) as NR.
  destruct (extract_tools_from_server _ _ _ _ _ _ _ w) as [[c|e'|] w'].
  - rewrite mret_run. discriminate.
  - exfalso. exact (NR e' eq_refl).
  - discriminate.
Qed.

Lemma counted_eq (s : ServerEntry) (p : progress) :
  (if (is_accessible s && negb (truthy (error_message (core s))))%bool
   then mkProgress (S (successful p)) (failed p) (errs p) (handled p ++ [s])
   else mkProgress (successful p) (S (failed p))
          (if truthy (error_message (core s))
           then errs p ++ [name (core s) ++ raw ": "
                           ++ match error_message (core s) with
                              | Some m => m
                              | None => raw "None"
                              end]
           else errs p)
          (handled p ++ [s]))
  = counted s p.
Proof.
  unfold counted, scraped_ok, error_lines.
  destruct (is_accessible s); destruct (error_message (core s)) as [m|]; cbn [truthy];
    try destruct (nonempty m); cbn [andb negb]; cbv iota; rewrite ?app_nil_r;
    f_equal; lia.
Qed.

Lemma counted_run (s : ServerEntry) (p : progress) (w : world) :
  (if (is_accessible s && negb (truthy (error_message (core s))))%bool
   then mret (mkProgress (S (successful p)) (failed p) (errs p) (handled p ++ [s]))
   else mret (mkProgress (successful p) (S (failed p))
                (if truthy (error_message (core s))
                 then errs p ++ [name (core s) ++ raw ": "
                                 ++ match error_message (core s) with
                                    | Some m => m
                                    | None => raw "None"
                                    end]
                 else errs p)
                (handled p ++ [s]))) w
  = (Ret (counted s p), w).
Proof.
  rewrite <- counted_eq.
  destruct (is_accessible s && negb (truthy (error_message (core s))))%bool; reflexivity.
Qed.

(** One pass of the loop over the servers. *)
Lemma scrape_one_spec (enhance_metadata extract_tools : bool) (i : nat)
    (server : ServerEntry) (p : progress) (w : world) :
  (forall e, fst (scrape_one enhance_metadata extract_tools i server p w) <> Raise e)
  /\ (forall p', fst (scrape_one enhance_metadata extract_tools i server p w) = Ret p' ->
        exists s, p' = counted s p).
Proof.
  unfold MCPRegistryScraper.scrape_one.
  set (server0 := if enhance_metadata then enhance_server i server else server).
  rewrite try_except_run, mbind_run.
  assert (NR : forall e, fst ((if extract_tools then extract server0 else mret server0) w)
                         <> Raise e).
  { intros e. destruct extract_tools; [apply extract_no_raise | discriminate]. }
  destruct ((if extract_tools then extract server0 else mret server0) w)
    as [[s1|e|] w'].
  - cbv zeta. rewrite counted_run. cbn [fst]. split; [discriminate|].
    intros p' H. injection H as <-. exists (_categorize_server s1). reflexivity.
  - exfalso. exact (NR e eq_refl).
  - cbn [fst]. split; discriminate.
Qed.

Lemma counted_handled (s : ServerEntry) (p : progress) (hs : list ServerEntry) :
  handled (counted s p) = handled p ++ [s].
Proof. reflexivity. Qed.

(** The loop over the servers: it handles every exception, and what it
    counts is read off the servers as it leaves them. *)
Lemma scrape_loop_spec (enhance_metadata extract_tools : bool) (servers : list ServerEntry) :
  forall i p w,
    (forall e, fst (scrape_loop enhance_metadata extract_tools i servers p w) <> Raise e)
    /\ (forall p', fst (scrape_loop enhance_metadata extract_tools i servers p w) = Ret p' ->
          exists hs,
            handled p' = handled p ++ hs
            /\ length hs = length servers
            /\ successful p' = successful p + length (filter scraped_ok hs)
            /\ failed p' = failed p + length (filter (fun s => negb (scraped_ok s)) hs)
            /\ errs p' = errs p ++ flat_map error_lines hs).
Proof.
  induction servers as [|server rest IH]; intros i p w; cbn [MCPRegistryScraper.scrape_loop].
  - rewrite mret_run. cbn [fst]. split; [discriminate|].
    intros p' H. injection H as <-. exists []. cbn. rewrite !app_nil_r.
    repeat split; lia.
  - rewrite mbind_run.
    destruct (scrape_one_spec enhance_metadata extract_tools i server p w) as [NR Sp].
    destruct (scrape_one enhance_metadata extract_tools i server p w) as [[p1|e|] w'].
    + destruct (Sp p1 eq_refl) as [s ->].
      destruct (IH (S i) (counted s p) w') as [NR' Sp']. split; [exact NR'|].
      intros p' H. destruct (Sp' p' H) as [hs [Hh [Hl [Hs [Hf He]]]]].
      exists (s :: hs). unfold counted in Hh, Hs, Hf, He.
      cbn [handled successful failed errs] in Hh, Hs, Hf, He.
      rewrite Hh, Hs, Hf, He, <- !app_assoc. cbn [filter flat_map length app].
      destruct (scraped_ok s); cbn [negb length]; repeat split; lia.
    + exfalso. exact (NR e eq_refl).
    + cbn [fst]. split; discriminate.
Qed.

(** The result record that [scrape_all] builds from the final loop state. *)
Definition results_of (p : progress) : ScrapingResults :=
  mkResults (length (handled p)) (successful p) (failed p)
            (length (filter (is_type (raw "reference")) (handled p)))
            (length (filter (is_type (raw "third_party")) (handled p)))
            (handled p) (errs p).

Lemma scrape_all_run (enhance_metadata extract_tools : bool) (max_servers : option Z)
    (w : world) :
  match parse_registry with
  | Ret registry =>
      exists w1,
        fst (scrape_all enhance_metadata extract_tools max_servers w)
        = match fst (scrape_loop enhance_metadata extract_tools 0
                       (selected registry max_servers) (mkProgress 0 0 [] []) w1) with
          | Ret p => Ret (results_of p)
          | Raise e => Raise e
          | Stuck => Stuck
          end
  | Raise e => fst (scrape_all enhance_metadata extract_tools max_servers w) = Raise e
  | Stuck => fst (scrape_all enhance_metadata extract_tools max_servers w) = Stuck
  end.
Proof.
  unfold MCPRegistryScraper.scrape_all.
  rewrite mbind_run, print_run. cbv beta iota. rewrite mbind_run, lift_run.
  destruct parse_registry as [registry|e|]; [|reflexivity|reflexivity].
  fold (selected registry max_servers).
  rewrite mbind_run, print_run. cbv beta iota. rewrite mbind_run.
  match goal with
  | |- context [scrape_loop _ _ _ _ _ ?w1] =>
      exists w1;
      destruct (scrape_loop enhance_metadata extract_tools 0
                  (selected registry max_servers) (mkProgress 0 0 [] []) w1)
        as [[p|e|] w']; reflexivity
  end.
Qed.

End WithScraper.

End ScraperFacts.

(** * Further theorems *)

(** Inputs for the runs below. *)
Module MoreSamples.
Import PyStr EnhancedToolExtractor MCPRegistryScraper ScoreModel Samples.

(** A React component: a relevant file name for which the loop has no
    parser. *)
Definition tsx_file : file_info :=
  mkFile (raw "App.tsx") (raw "src/App.tsx") (raw "server.tool('render')") 21.

(** A server on GitHub that already carries an error message. *)
Definition failed_server : MCPServer :=
  mkServer (raw "demo") (raw "https://github.com/acme/demo") THIRD_PARTY
           [] [] [] (Some (raw "earlier failure")) None.

(** The server of the demo after the README of [respond_readme] was mined. *)
Definition readme_server : MCPServer :=
  mkServer (raw "demo") (raw "https://github.com/acme/demo") THIRD_PARTY
           [mkTool (raw "fetch_page") (Some (raw "gets a page")) []] [] [] None
           (Some [raw "Extracted 1 tools from README fallback"]).

(** The file of the demo repository as the traversal records it. *)
Definition main_py : file_info :=
  mkFile (raw "main.py") (raw "main.py") (raw "x = 1") 5.

(** A local checkout without the directory of the server. *)
Definition path_exists_never (path : text) : res bool := Ret false.
Definition glob_nothing (path pattern : text) : res (list text) := Ret [].
Definition read_text_fails (path : text) : res text := Raise OtherException.

(** A repository whose only README is [README.md]. *)
Definition readme_text : text := raw
"## Tools
- fetch_page: gets a page
".

Definition respond_readme (n : nat) (path : text) : response :=
  if PyStr.eqb path (raw "README.md")
  then Single (mkContent (raw "README.md") (raw "README.md") (raw "file")
                 (Ret readme_text) 34)
  else Fails GithubException.

(** A registry of three servers. *)
Definition mail_entry : ServerEntry :=
  mkEntry (mkServer (raw "postbox") (raw "https://gitlab.com/acme/postbox") THIRD_PARTY
             [] [] [] None None)
          (Some (raw "Send Email from a chat")) true
          (Some (mkRepoStats (Some (raw "TypeScript")) [raw "mcp"; raw "mail"])) [] [].

Definition broken_entry : ServerEntry :=
  mkEntry failed_server None true None [] [].

Definition offline_entry : ServerEntry :=
  mkEntry gitlab_server None false None [] [].

Definition registry_demo : res (list ServerEntry) :=
  Ret [mail_entry; broken_entry; offline_entry].

Definition enhance_nothing (i : nat) (server : ServerEntry) : ServerEntry := server.

(** A TypeScript file whose resource count has 4301 digits. *)
Definition ts_long_count : text :=
  raw "const ALL_RESOURCES = Array.from({ length: " ++ repeat "7"%char 4301.

End MoreSamples.

(** ** Parsers that cannot fail *)

Section ParserTotality.
Import PyStr EnhancedToolExtractor TotalFacts TypeScriptFacts.

(** X1.  The Python, C# and Java parsers and the markdown miner return a
    result for every text: their patterns are fixed, so no call of [re]
    raises, whatever the file holds. *)
Theorem static_parsers_never_raise :
  forall content : text,
    (exists p, _parse_python_content content = Ret p)
    /\ (exists p, _parse_csharp_content content = Ret p)
    /\ (exists p, _parse_java_content content = Ret p)
    /\ (exists ts, _extract_tools_from_markdown content = Ret ts).
Proof.
  intros content.
  split; [apply python_returns|].
  split; [apply csharp_returns|].
  split; [apply java_returns | apply markdown_returns].
Qed.

(** X2.  The Rust and Go parsers return a result for every text.  Both
    build patterns from names found in the file (the Rust parser from a
    struct name made of word characters, the Go parser from a constant name
    passed through [re.escape]), and every pattern so built compiles. *)
Theorem rust_and_go_parsers_never_raise :
  forall content : text,
    (exists p, _parse_rust_content content = Ret p)
    /\ (exists p, _parse_go_content content = Ret p).
Proof.
  intros content. split; [apply rust_returns | apply go_returns].
Qed.

(** X3.  The three extractors of parameters return a result for every
    text and every name expression, since they escape the name before they
    put it into a pattern; [_extract_tool_parameters] yields no parameter
    or the single generic parameter [input]. *)
Theorem parameter_extractors_never_raise :
  forall content name_expr : text,
    (exists ps, _extract_tool_parameters content name_expr = Ret ps
                /\ (ps = []
                    \/ ps = [mkParam (raw "input") (raw "object")
                               (Some (raw "Tool input parameters")) true]))
    /\ (exists ps, _extract_input_schema_parameters content name_expr = Ret ps)
    /\ (exists ps, _extract_prompt_arguments content name_expr = Ret ps).
Proof.
  intros content name_expr.
  split; [exact (tool_parameters_returns content name_expr)|].
  split; [apply input_schema_parameters_returns | apply prompt_arguments_returns].
Qed.

End ParserTotality.

(** ** The name resolver and the TypeScript parser *)

Section ResolverTotality.
Import PyStr EnhancedToolExtractor NameModel Samples ResolverFacts TypeScriptTotal.

(** X4.  For a reference [Enum.MEMBER] whose two parts are identifiers,
    [_extract_name_value] returns a name and never [None] or an exception:
    the lowercased member name, or a text between quotes taken from the
    file (which holds no quote). *)
Theorem enum_reference_resolves :
  forall content enum_name value_name : text,
    identifier enum_name -> identifier value_name ->
    exists v,
      _extract_name_value content (enum_name ++ raw "." ++ value_name) = Ret (Some v)
      /\ (v = lower value_name \/ literal_text v).
Proof.
  intros content enum_name value_name HE HV.
  exact (reference_resolves content enum_name value_name HE HV).
Qed.

(** A run of X4 on an enum with two members. *)
Lemma enum_reference_resolves_witness :
  exists v,
    _extract_name_value ts_overlapping_enum (raw "ToolName" ++ raw "." ++ raw "ECHO")
    = Ret (Some v)
    /\ (v = lower (raw "ECHO") \/ literal_text v).
Proof.
  apply enum_reference_resolves; (split; [discriminate | reflexivity]).
Defined.

(** X5.  The TypeScript parser fails only where one of its three
    extractors fails.  The tool extractor returns whenever its first
    pattern, the one that resolves names, returns, and an exception it
    raises is one of that pattern.  The resource extractor raises the
    [ValueError] of [int] on a resource count of more than 4300 digits;
    nothing is stated about the counts on which it returns.  The parser
    returns the three results whenever the three extractors return, and an
    exception it raises is one raised by one of them. *)
Theorem typescript_parser_failure_sites :
  forall content : text,
    (forall ts, tools_pattern1 content = Ret ts ->
                exists ts', _extract_mcp_tools content = Ret ts')
    /\ (forall e, _extract_mcp_tools content = Raise e -> tools_pattern1 content = Raise e)
    /\ (forall rm digits,
          re_search Re.no_flags resources_pattern content = Ret (Some rm) ->
          group_text rm 1 = Ret digits ->
          int_max_str_digits < length digits ->
          _extract_mcp_resources content = Raise OtherException)
    /\ (forall ts ps rs,
          _extract_mcp_tools content = Ret ts -> _extract_mcp_prompts content = Ret ps ->
          _extract_mcp_resources content = Ret rs ->
          _parse_typescript_content content = Ret (ts, ps, rs))
    /\ (forall e,
          _parse_typescript_content content = Raise e ->
          _extract_mcp_tools content = Raise e \/ _extract_mcp_prompts content = Raise e
          \/ _extract_mcp_resources content = Raise e).
Proof.
  intros content.
  pose proof (tools_outcome content) as T.
  pose proof (typescript_outcome content) as O.
  split; [|split; [|split; [|split]]].
  - intros ts H. rewrite H in T. exact T.
  - intros e H. destruct (tools_pattern1 content) as [ts|e'|].
    + destruct T as [ts' T]. rewrite T in H. discriminate H.
    + rewrite T in H. exact H.
    + rewrite T in H. discriminate H.
  - intros rm digits E G L. exact (resources_raise content rm digits E G L).
  - intros ts ps rs Ht Hp Hr. rewrite Ht, Hp, Hr in O. exact O.
  - intros e H.
    destruct (_extract_mcp_tools content) as [ts|e1|].
    + destruct (_extract_mcp_prompts content) as [ps|e2|].
      * destruct (_extract_mcp_resources content) as [rs|e3|];
          rewrite O in H; try discriminate H.
        injection H as ->. right. right. reflexivity.
      * rewrite O in H. injection H as ->. right. left. reflexivity.
      * rewrite O in H. discriminate H.
    + rewrite O in H. injection H as ->. left. reflexivity.
    + rewrite O in H. discriminate H.
Qed.

(** A run of X5 on a file without handlers. *)
Lemma typescript_parser_failure_sites_witness :
  _parse_typescript_content (raw "const limit = 10;") = Ret ([], [], []).
Proof.
  apply (proj1 (proj2 (proj2 (proj2 (typescript_parser_failure_sites
                                       (raw "const limit = 10;"))))));
    vm_compute; reflexivity.
Defined.

(** A count of 4301 digits: [int] refuses it, and so the parser fails. *)
Example resources_count_too_long :
  _extract_mcp_resources MoreSamples.ts_long_count = Raise OtherException
  /\ _parse_typescript_content MoreSamples.ts_long_count = Raise OtherException.
Proof. split; vm_compute; reflexivity. Qed.

End ResolverTotality.

(** ** The loop over the files *)

Section FileLoopTheorems.
Import PyStr EnhancedToolExtractor Samples ScoreModel MoreSamples LoopFacts.

(** X6.  The loop over the files of a repository never raises, whatever
    the parsers do: it only appends to the three collections of the server
    (name, URL, type, error message and log of the server stay as they
    are), it appends at most one log line per relevant file, and the count
    of processed files grows by at most the number of relevant files. *)
Theorem file_loop_never_aborts :
  forall (str_exn : exn -> text) (all_files : list file_info) (a : accum),
    (forall e, process_files str_exn all_files a <> Raise e)
    /\ (forall a',
          process_files str_exn all_files a = Ret a' ->
          extends (acc_server a) (acc_server a')
          /\ (exists lines,
                 acc_log a' = acc_log a ++ lines
                 /\ length lines <= length (filter relevant all_files))
          /\ acc_files_processed a <= acc_files_processed a'
          /\ acc_files_processed a'
             <= acc_files_processed a + length (filter relevant all_files)).
Proof.
  intros str_exn all_files a.
  destruct (process_files_advances str_exn all_files a) as [NR Adv].
  split; [exact NR|]. intros a' H. exact (Adv a' H).
Qed.

(** A run of X6 on a Python file and a React component. *)
Lemma file_loop_never_aborts_witness :
  extends empty_server empty_server
  /\ (exists lines, @nil text = [] ++ lines /\ length lines <= 2)
  /\ 0 <= 2 /\ 2 <= 0 + 2.
Proof.
  exact (proj2 (file_loop_never_aborts str_exn_demo [plain_python_file; tsx_file]
                  (mkAccum empty_server [] 0))
               (mkAccum empty_server [] 2) eq_refl).
Defined.

(** X7.  A relevant file whose extension, as written, is none of the eight
    the loop has a parser for ([.tsx], [.jsx], [.mjs], [.cjs], or an
    extension in upper case) is counted as processed and yields nothing:
    the server and the log stay as they are, whatever the file holds. *)
Theorem unparsed_extension_is_counted :
  forall (str_exn : exn -> text) (file : file_info) (a : accum),
    _is_relevant_file (fi_name file) = true ->
    ~ In (suffix (fi_name file)) parsed_extensions ->
    process_file str_exn file a
    = Ret (mkAccum (acc_server a) (acc_log a) (S (acc_files_processed a))).
Proof.
  intros str_exn file a Hrel Hext. unfold process_file.
  rewrite Hrel, (parse_by_extension_other _ _ Hext).
  cbn [found_any]. rewrite extend_nothing. reflexivity.
Qed.

(** A run of X7 on [App.tsx], which declares a tool. *)
Lemma unparsed_extension_is_counted_witness :
  process_file str_exn_demo tsx_file (mkAccum empty_server [] 0)
  = Ret (mkAccum empty_server [] 1).
Proof.
  apply (unparsed_extension_is_counted str_exn_demo tsx_file (mkAccum empty_server [] 0)).
  - reflexivity.
  - intros H. repeat (destruct H as [H|H]; [discriminate H|]). exact H.
Defined.

End FileLoopTheorems.

(** ** Extraction from one server *)

Section ServerTheorems.
Import PyStr EnhancedToolExtractor Samples ScoreModel MoreSamples LoopFacts LocalFacts
       CounterFacts ServerFacts.

(** X8.  The extraction from the local checkout touches nothing outside
    the server: no request, no pause, no output, no counter.  What it
    returns is the server with the message that its directory
    ([mcp_servers_repo/src] joined with the name) was not found, or the
    server with collections that only grew and every other field as it
    was. *)
Theorem reference_extraction_is_local :
  forall (str_exn : exn -> text) (path_exists : text -> res bool)
         (glob : text -> text -> res (list text)) (read_text : text -> res text)
         (server : MCPServer) (w : world),
    let out := _extract_from_reference_server str_exn path_exists glob read_text server w in
    snd out = w
    /\ (forall s',
          fst out = Ret s' ->
          s' = with_error server
                 (Some (raw "Reference server directory not found: "
                        ++ path_div (raw "mcp_servers_repo/src") (name server)))
          \/ extends server s').
Proof.
  intros str_exn path_exists glob read_text server w. cbv zeta.
  split; [apply reference_world|].
  intros s' H. exact (reference_spec str_exn path_exists glob read_text server w s' H).
Qed.

(** A run of X8 without the directory of the server. *)
Lemma reference_extraction_is_local_witness :
  with_error empty_server
    (Some (raw "Reference server directory not found: mcp_servers_repo/src/demo"))
  = with_error empty_server
      (Some (raw "Reference server directory not found: "
             ++ path_div (raw "mcp_servers_repo/src") (name empty_server)))
  \/ extends empty_server
       (with_error empty_server
          (Some (raw "Reference server directory not found: mcp_servers_repo/src/demo"))).
Proof.
  exact (proj2 (reference_extraction_is_local str_exn_demo path_exists_never glob_nothing
                  read_text_fails empty_server world0) _ eq_refl).
Defined.

(** X9.  [extract_tools_from_server] never raises.  The server it returns
    has the name, URL and type it had and collections that only grew; the
    counter [successful_extractions] is never changed, and the other
    counters and the number of requests never decrease. *)
Theorem extract_tools_never_raises :
  forall (str_exn : exn -> text) (get_repo : text -> res unit)
         (respond : nat -> text -> response) (path_exists : text -> res bool)
         (glob : text -> text -> res (list text)) (read_text : text -> res text)
         (server : MCPServer) (w : world),
    let out := extract_tools_from_server str_exn get_repo respond path_exists glob
                 read_text server w in
    (forall e, fst out <> Raise e)
    /\ (forall s', fst out = Ret s' -> grown server s')
    /\ successful_extractions (extraction_stats (snd out))
       = successful_extractions (extraction_stats w)
    /\ total_files_processed (extraction_stats w)
       <= total_files_processed (extraction_stats (snd out))
    /\ failed_extractions (extraction_stats w)
       <= failed_extractions (extraction_stats (snd out))
    /\ rate_limit_hits (extraction_stats w) <= rate_limit_hits (extraction_stats (snd out))
    /\ api_calls w <= api_calls (snd out).
Proof.
  intros str_exn get_repo respond path_exists glob read_text server w. cbv zeta.
  split; [intros e; apply extract_tools_no_raise|].
  split; [intros s' H;
          exact (extract_tools_spec str_exn get_repo respond path_exists glob read_text
                   server w s' H)|].
  exact (steady_extract_tools str_exn get_repo respond path_exists glob read_text server w).
Qed.

(** A run of X9 on a repository that holds a README and nothing else. *)
Lemma extract_tools_never_raises_witness : grown empty_server readme_server.
Proof.
  exact (proj1 (proj2 (extract_tools_never_raises str_exn_demo get_repo_ok respond_readme
                         path_exists_never glob_nothing read_text_fails empty_server
                         world0))
               readme_server ltac:(vm_compute; reflexivity)).
Defined.

(** X10.  The extraction from a repository keeps the server's identity and
    only lets its collections grow; an error message the server already
    carries is never replaced, and a new one is the message of the outer
    handler, set on the server as it was passed in. *)
Theorem existing_error_message_is_kept :
  forall (str_exn : exn -> text) (get_repo : text -> res unit)
         (respond : nat -> text -> response) (server : MCPServer) (w : world)
         (s' : MCPServer),
    fst (_extract_from_github_repo str_exn get_repo respond server w) = Ret s' ->
    grown server s'
    /\ (truthy (error_message server) = true ->
        error_message s' = error_message server)
    /\ (error_message s' <> error_message server ->
        exists e,
          s' = with_error server
                 (Some (raw "Error extracting from GitHub: " ++ str_exn e))).
Proof.
  intros str_exn get_repo respond server w s' H.
  destruct (github_spec str_exn get_repo respond server w s' H) as [G [E|[T [e E]]]].
  - split; [exact G|]. split; [intros _; exact E | intros N; contradiction].
  - split; [exact G|]. split; [intros T'; rewrite T in T'; discriminate T'|].
    intros _. exists e. exact E.
Qed.

(** A run of X10: the repository lookup fails for a server that carries a
    message. *)
Lemma existing_error_message_is_kept_witness :
  error_message failed_server = Some (raw "earlier failure").
Proof.
  exact (proj1 (proj2 (existing_error_message_is_kept str_exn_demo get_repo_missing
                         respond_demo failed_server world0 failed_server
                         ltac:(vm_compute; reflexivity)))
               eq_refl).
Defined.

End ServerTheorems.

(** ** The traversal and the README *)

Section TraversalTheorems.
Import PyStr EnhancedToolExtractor Samples ScoreModel MoreSamples TraversalFacts
       ReadmeFacts FallbackFacts.

(** X11.  [_get_all_files_recursive] returns the list it has collected;
    every file in it is a relevant file, and the counter
    [total_files_processed] grows by exactly the number of files
    collected. *)
Theorem traversal_collects_relevant_files :
  forall (str_exn : exn -> text) (respond : nat -> text -> response)
         (base_path : option text) (w : world),
    let out := _get_all_files_recursive str_exn respond base_path w in
    (forall fs, fst out = Ret fs -> fs = files (snd out))
    /\ Forall (fun f => _is_relevant_file (fi_name f) = true) (files (snd out))
    /\ total_files_processed (extraction_stats (snd out))
       = total_files_processed (extraction_stats w) + length (files (snd out)).
Proof.
  intros str_exn respond base_path w. cbv zeta.
  destruct (get_all_files_spec str_exn respond base_path w) as [R [F [T _]]].
  split; [exact R|]. split; [exact F | exact T].
Qed.

(** A run of X11 on the demo repository. *)
Lemma traversal_collects_relevant_files_witness :
  [main_py] = files (snd (_get_all_files_recursive str_exn_demo respond_demo None world0)).
Proof.
  exact (proj1 (traversal_collects_relevant_files str_exn_demo respond_demo None world0)
               [main_py] ltac:(vm_compute; reflexivity)).
Defined.

(** X12.  The lookup of the README makes between one and five requests and
    nothing else: no pause, no output, no counter.  It asks for the five
    names in order, goes on after an exception of GitHub only, returns the
    text of the first file it can read, and returns [None] only after all
    five requests failed. *)
Theorem readme_lookup_requests :
  forall (respond : nat -> text -> response) (subpath : option text) (w : world),
    let out := _get_readme_content respond subpath w in
    exists n,
      snd out = after_requests n w
      /\ 1 <= n <= 5
      /\ (forall i filename,
            i < n - 1 -> nth_error readme_files i = Some filename ->
            is_github (fetched respond (api_calls w + i) (readme_path subpath filename)))
      /\ match fst out with
         | Ret None =>
             n = 5
             /\ forall i filename,
                  nth_error readme_files i = Some filename ->
                  is_github (fetched respond (api_calls w + i)
                               (readme_path subpath filename))
         | Ret (Some t) =>
             exists filename,
               nth_error readme_files (n - 1) = Some filename
               /\ fetched respond (api_calls w + (n - 1)) (readme_path subpath filename)
                  = Ret t
         | Raise e => e <> GithubException /\ e <> RateLimitExceededException
         | Stuck => True
         end.
Proof.
  intros respond subpath w. cbv zeta. unfold _get_readme_content.
  destruct (readme_loop_spec respond subpath readme_files w) as [n [W [L [P R]]]].
  change (length readme_files) with 5 in L, R.
  exists n. split; [exact W|].
  destruct (fst (readme_loop respond subpath readme_files w)) as [[t|]|e|].
  - destruct R as [filename [Hf [Hn Ht]]].
    split; [lia|]. split; [exact P|]. exists filename. auto.
  - destruct R as [Hn A]. split; [lia|]. split; [exact P | exact (conj Hn A)].
  - destruct R as [Hn R]. split; [lia|]. split; [exact P | exact R].
  - split; [lia|]. split; [exact P | exact I].
Qed.

(** X13.  The README fallback never raises.  It only appends tools: name,
    URL, type, prompts, resources and error message of the server stay as
    they are, and a log line is added exactly when tools were found.  It
    makes at most five requests, without any pause, and leaves the counters
    alone. *)
Theorem readme_fallback_only_adds_tools :
  forall (str_exn : exn -> text) (respond : nat -> text -> response)
         (server : MCPServer) (subpath : option text) (w : world),
    let out := _extract_from_readme_fallback str_exn respond server subpath w in
    (forall e, fst out <> Raise e)
    /\ (forall s',
          fst out = Ret s' ->
          exists ts,
            name s' = name server /\ github_url s' = github_url server
            /\ server_type s' = server_type server
            /\ tools s' = tools server ++ ts
            /\ prompts s' = prompts server /\ resources s' = resources server
            /\ error_message s' = error_message server
            /\ extraction_log s'
               = match ts with
                 | [] => extraction_log server
                 | _ => Some (log_or_empty server
                              ++ [raw "Extracted " ++ str_of_nat (length ts)
                                  ++ raw " tools from README fallback"])
                 end)
    /\ sleeps (snd out) = sleeps w
    /\ extraction_stats (snd out) = extraction_stats w
    /\ files (snd out) = files w
    /\ api_calls w <= api_calls (snd out) <= api_calls w + 5.
Proof.
  intros str_exn respond server subpath w.
  exact (fallback_spec str_exn respond server subpath w).
Qed.

(** A run of X13 on a repository whose README lists one tool. *)
Lemma readme_fallback_only_adds_tools_witness :
  exists ts,
    name readme_server = name empty_server
    /\ github_url readme_server = github_url empty_server
    /\ server_type readme_server = server_type empty_server
    /\ tools readme_server = tools empty_server ++ ts
    /\ prompts readme_server = prompts empty_server
    /\ resources readme_server = resources empty_server
    /\ error_message readme_server = error_message empty_server
    /\ extraction_log readme_server
       = match ts with
         | [] => extraction_log empty_server
         | _ => Some (log_or_empty empty_server
                      ++ [raw "Extracted " ++ str_of_nat (length ts)
                          ++ raw " tools from README fallback"])
         end.
Proof.
  exact (proj1 (proj2 (readme_fallback_only_adds_tools str_exn_demo respond_readme
                         empty_server None world0))
               readme_server ltac:(vm_compute; reflexivity)).
Defined.

End TraversalTheorems.

(** ** The pauses of the traversal *)

Section PacingTheorems.
Import PyStr EnhancedToolExtractor MoreSamples PacingFacts.

(** X24.  The pauses of [_get_all_files_recursive].  Every call of
    [repo.get_contents] comes after a pause of [rate_limit_delay] of its
    own: the calls made are no more than the pauses of at least that
    length.  The content of a file, [content.decoded_content], is read
    after a pause of half the delay only, although for an entry of a
    listing that read is a further request to GitHub: the reads attempted,
    which [total_files_processed] and [failed_extractions] count between
    them, are no more than the pauses of exactly [rate_limit_delay / 2]. *)
Theorem traversal_pacing :
  forall (str_exn : exn -> text) (respond : nat -> text -> response)
         (base_path : option text) (w : world),
    let w' := snd (_get_all_files_recursive str_exn respond base_path w) in
    api_calls w' - api_calls w
    <= length (filter (Qle_bool rate_limit_delay) (sleeps w'))
       - length (filter (Qle_bool rate_limit_delay) (sleeps w))
    /\ (total_files_processed (extraction_stats w')
        + failed_extractions (extraction_stats w'))
       - (total_files_processed (extraction_stats w)
          + failed_extractions (extraction_stats w))
       <= length (filter (fun d => Qeq_bool d (rate_limit_delay / 2)) (sleeps w'))
          - length (filter (fun d => Qeq_bool d (rate_limit_delay / 2)) (sleeps w)).
Proof.
  intros str_exn respond base_path w. cbv zeta.
  destruct (paced_get_all_files str_exn respond base_path w) as [_ [L [C [_ [H R]]]]].
  split; [exact (paced_difference _ _ _ _ L C) | exact (paced_difference _ _ _ _ H R)].
Qed.

End PacingTheorems.

(** ** Repository URLs *)

Section UrlTheorems.
Import PyStr EnhancedToolExtractor UrlFacts.

(** X14.  [_parse_github_url] reads back what a GitHub URL was built from.
    For an owner, a repository, a branch and directories that are
    non-empty names of word characters, hyphens and dots: the plain URL
    gives owner and repository without a subpath, so does the URL of a
    branch ([/tree/<branch>]), and the URL of a directory on a branch gives
    the directories joined by slashes as the subpath. *)
Theorem github_url_round_trip :
  forall owner repo_name : text,
    segment owner -> segment repo_name ->
    _parse_github_url (raw "https://github.com/" ++ owner ++ raw "/" ++ repo_name)
    = Some (owner, repo_name, None)
    /\ (forall branch,
          segment branch ->
          _parse_github_url (raw "https://github.com/" ++ owner ++ raw "/" ++ repo_name
                             ++ raw "/tree/" ++ branch)
          = Some (owner, repo_name, None))
    /\ (forall branch dirs,
          segment branch -> Forall segment dirs -> dirs <> [] ->
          _parse_github_url (raw "https://github.com/" ++ owner ++ raw "/" ++ repo_name
                             ++ raw "/tree/" ++ branch ++ raw "/" ++ join (raw "/") dirs)
          = Some (owner, repo_name, Some (join (raw "/") dirs))).
Proof.
  intros owner repo_name HO HR.
  assert (HT : segment (raw "tree")) by (split; [discriminate | reflexivity]).
  split; [|split].
  - exact (parse_github_segments [owner; repo_name]
             (Forall_cons _ HO (Forall_cons _ HR (Forall_nil _))) ltac:(discriminate)).
  - intros branch HB.
    exact (parse_github_segments [owner; repo_name; raw "tree"; branch]
             (Forall_cons _ HO (Forall_cons _ HR (Forall_cons _ HT
                (Forall_cons _ HB (Forall_nil _))))) ltac:(discriminate)).
  - intros branch dirs HB HD N. destruct dirs as [|d dirs]; [contradiction|].
    exact (parse_github_segments (owner :: repo_name :: raw "tree" :: branch :: d :: dirs)
             (Forall_cons _ HO (Forall_cons _ HR (Forall_cons _ HT
                (Forall_cons _ HB HD)))) ltac:(discriminate)).
Qed.

(** A run of X14 on the URL of a directory of the reference servers. *)
Lemma github_url_round_trip_witness :
  _parse_github_url
    (raw "https://github.com/" ++ raw "modelcontextprotocol" ++ raw "/" ++ raw "servers"
     ++ raw "/tree/" ++ raw "main" ++ raw "/" ++ join (raw "/") [raw "src"; raw "fetch"])
  = Some (raw "modelcontextprotocol", raw "servers", Some (join (raw "/") [raw "src"; raw "fetch"])).
Proof.
  assert (H1 : segment (raw "modelcontextprotocol")) by (split; [discriminate | reflexivity]).
  assert (H2 : segment (raw "servers")) by (split; [discriminate | reflexivity]).
  assert (H3 : segment (raw "main")) by (split; [discriminate | reflexivity]).
  assert (H4 : segment (raw "src")) by (split; [discriminate | reflexivity]).
  assert (H5 : segment (raw "fetch")) by (split; [discriminate | reflexivity]).
  apply (proj2 (proj2 (github_url_round_trip (raw "modelcontextprotocol") (raw "servers")
                         H1 H2))
               (raw "main") [raw "src"; raw "fetch"] H3).
  - exact (Forall_cons _ H4 (Forall_cons _ H5 (Forall_nil _))).
  - discriminate.
Defined.

(** X15.  A URL on any other host is rejected: for a host name of word
    characters, hyphens and dots other than [github.com] (such as
    [www.github.com] or [GitHub.com]) the result is [None], whatever
    follows the host. *)
Theorem foreign_host_is_rejected :
  forall host rest : text,
    forallb name_char host = true -> host <> raw "github.com" ->
    _parse_github_url (raw "https://" ++ host ++ raw "/" ++ rest) = None.
Proof.
  intros host rest H N. exact (parse_other_host host rest H N).
Qed.

(** A run of X15 on the host [www.github.com]. *)
Lemma foreign_host_is_rejected_witness :
  _parse_github_url (raw "https://" ++ raw "www.github.com" ++ raw "/"
                     ++ raw "acme/demo") = None.
Proof.
  apply foreign_host_is_rejected; [reflexivity | discriminate].
Defined.

End UrlTheorems.

(** ** Thresholds of the confidence score *)

Section ThresholdTheorems.
Import PyStr EnhancedToolExtractor ScoreModel ScoreFacts ThresholdFacts Samples.
Local Open Scope Q_scope.

(** X16.  The score tells an empty result from a non-empty one: without any
    tool, prompt or resource it is at most 0.1 (and 0 with at most one
    file), and with a declaration it is at least 0.35, and at least 0.5
    when no error was recorded. *)
Theorem confidence_separates_empty_results :
  forall (server : MCPServer) (files_processed : nat),
    (nonempty_result server = false ->
     _calculate_extraction_confidence server files_processed <= 0.1
     /\ ((files_processed <= 1)%nat ->
         _calculate_extraction_confidence server files_processed == 0))
    /\ (nonempty_result server = true ->
        0.35 <= _calculate_extraction_confidence server files_processed
        /\ (truthy (error_message server) = false ->
            0.5 <= _calculate_extraction_confidence server files_processed)).
Proof.
  intros server f. rewrite confidence_eq. split.
  - intros E. rewrite E, (empty_result_tools server E).
    split; [apply score_of_empty | apply score_of_idle].
  - intros E. rewrite E.
    apply score_of_nonempty. apply described_le.
Qed.

(** Runs of X16: no declaration and four files, and three described tools
    with an error. *)
Lemma confidence_separates_empty_results_witness :
  _calculate_extraction_confidence empty_server 4 <= 0.1
  /\ 0.35 <= _calculate_extraction_confidence
               (server_with three_tools (Some (raw "boom"))) 0.
Proof.
  split.
  - exact (proj1 (proj1 (confidence_separates_empty_results empty_server 4) eq_refl)).
  - exact (proj1 (proj2 (confidence_separates_empty_results
                           (server_with three_tools (Some (raw "boom"))) 0) eq_refl)).
Defined.

(** X17.  The score never decreases when more files were processed, and
    from five files on it no longer depends on their number. *)
Theorem confidence_grows_with_files :
  forall (server : MCPServer) (f1 f2 : nat),
    (f1 <= f2)%nat ->
    _calculate_extraction_confidence server f1
    <= _calculate_extraction_confidence server f2
    /\ ((5 <= f1)%nat ->
        _calculate_extraction_confidence server f1
        == _calculate_extraction_confidence server f2).
Proof.
  intros server f1 f2 H. rewrite !confidence_eq. split.
  - apply score_of_files_mono. exact H.
  - intros H5. rewrite (score_of_files_full _ _ _ f1 _ H5).
    rewrite (score_of_files_full _ _ _ f2); [reflexivity | lia].
Qed.

(** A run of X17: five files and nine files. *)
Lemma confidence_grows_with_files_witness :
  _calculate_extraction_confidence (server_with three_tools None) 5
  == _calculate_extraction_confidence (server_with three_tools None) 9.
Proof.
  apply (proj2 (confidence_grows_with_files (server_with three_tools None) 5 9
                  ltac:(repeat constructor)));
    repeat constructor.
Defined.

End ThresholdTheorems.

(** ** Categories and tags *)

Section CategoryTheorems.
Import PyStr PyStrFacts EnhancedToolExtractor MCPRegistryScraper CategoryFacts MoreSamples.

(** X18.  [_categorize_server] replaces the categories and the tags and
    nothing else.  A category is assigned exactly when one of its keywords
    occurs in the lowercased name and description; a tag is a topic of the
    repository or its lowercased language; neither list repeats an
    entry. *)
Theorem categorize_server_characterised :
  forall server : ServerEntry,
    let result := _categorize_server server in
    core result = core server /\ description result = description server
    /\ is_accessible result = is_accessible server
    /\ repository_stats result = repository_stats server
    /\ NoDup (categories result) /\ NoDup (tags result)
    /\ (forall category,
          In category (categories result)
          <-> exists keywords keyword,
                In (category, keywords) category_keywords /\ In keyword keywords
                /\ exists before after,
                     lower (name (core server) ++ raw " "
                            ++ match description server with Some d => d | None => [] end)
                     = before ++ keyword ++ after)
    /\ (forall tag,
          In tag (tags result)
          <-> exists stats,
                repository_stats server = Some stats
                /\ (In tag (topics stats)
                    \/ exists l, language stats = Some l /\ l <> [] /\ tag = lower l)).
Proof.
  intros server. cbv zeta.
  split; [reflexivity|]. split; [reflexivity|]. split; [reflexivity|].
  split; [reflexivity|].
  split; [apply NoDup_list_of_set|]. split; [apply NoDup_list_of_set|].
  split.
  - intros category. rewrite in_categories. unfold category_text.
    split; intros [keywords [keyword [H1 [H2 H3]]]]; exists keywords, keyword;
      (split; [exact H1|]); (split; [exact H2|]); apply contains_spec; exact H3.
  - intros tag. apply in_tags.
Qed.

(** X19.  Keywords are matched inside words: whenever the name of a server
    holds a word in which a keyword of a category occurs, the server gets
    that category.  So a name that holds [email] makes a server an [ai]
    server. *)
Theorem keyword_inside_word_categorises :
  forall (server : ServerEntry) (category : text) (keywords : list text)
         (keyword word : text),
    In (category, keywords) category_keywords -> In keyword keywords ->
    contains word keyword = true ->
    contains (lower (name (core server))) word = true ->
    In category (categories (_categorize_server server)).
Proof.
  intros server category keywords keyword word H1 H2 Hk Hw.
  apply in_categories. exists keywords, keyword.
  split; [exact H1|]. split; [exact H2|].
  apply (contains_trans _ word); [|exact Hk].
  unfold category_text. rewrite lower_app.
  apply contains_spec in Hw. destruct Hw as [a [b Hw]].
  apply contains_spec. exists a, (b ++ lower (raw " " ++ match description server with
                                                         | Some d => d
                                                         | None => []
                                                         end)).
  rewrite Hw, <- !app_assoc. reflexivity.
Qed.

(** A run of X19: a server named [email-sender] is an [ai] server. *)
Lemma keyword_inside_word_categorises_witness :
  In (raw "ai")
     (categories (_categorize_server
                    (mkEntry (mkServer (raw "Email-Sender") (raw "https://github.com/a/b")
                                THIRD_PARTY [] [] [] None None)
                             None true None [] []))).
Proof.
  apply (keyword_inside_word_categorises _ (raw "ai")
           [raw "ai"; raw "llm"; raw "openai"; raw "anthropic"; raw "model"; raw "chat"]
           (raw "ai") (raw "email")).
  - do 4 right. left. reflexivity.
  - left. reflexivity.
  - reflexivity.
  - reflexivity.
Defined.

End CategoryTheorems.

(** ** The loop over the registry *)

Module ScraperRuns.
Import PyStr EnhancedToolExtractor MCPRegistryScraper Samples MoreSamples.

(** [scrape_all(extract_tools=True)] on the demo registry, without a limit
    and with the limit 0, and [scrape_all(max_servers=-1)]. *)
Definition scrape_demo (max_servers : option Z) : res ScrapingResults * world :=
  scrape_all str_exn_demo get_repo_missing respond_demo path_exists_never glob_nothing
    read_text_fails registry_demo enhance_nothing false true max_servers world0.

Definition results_of_run (run : res ScrapingResults * world) : ScrapingResults :=
  match fst run with
  | Ret results => results
  | _ => mkResults 0 0 0 0 0 [] []
  end.

Definition results_demo : ScrapingResults :=
  Eval vm_compute in results_of_run (scrape_demo None).

Definition results_limit_0 : ScrapingResults :=
  Eval vm_compute in results_of_run (scrape_demo (Some 0%Z)).

Definition results_limit_minus_1 : ScrapingResults :=
  Eval vm_compute in results_of_run (scrape_demo (Some (-1)%Z)).

End ScraperRuns.

Section ScraperTheorems.
Import PyStr EnhancedToolExtractor MCPRegistryScraper Samples MoreSamples ScraperFacts
       ScraperRuns.

(** What [scrape_all] returns, read off the loop. *)
Lemma scrape_all_outcome (str_exn : exn -> text) (get_repo : text -> res unit)
    (respond : nat -> text -> response) (path_exists : text -> res bool)
    (glob : text -> text -> res (list text)) (read_text : text -> res text)
    (parse_registry : res (list ServerEntry))
    (enhance_server : nat -> ServerEntry -> ServerEntry)
    (enhance_metadata extract_tools : bool) (max_servers : option Z) (w : world) :
  match parse_registry with
  | Ret registry =>
      (forall e, fst (scrape_all str_exn get_repo respond path_exists glob read_text
                        parse_registry enhance_server enhance_metadata extract_tools
                        max_servers w) <> Raise e)
      /\ (forall results,
            fst (scrape_all str_exn get_repo respond path_exists glob read_text
                   parse_registry enhance_server enhance_metadata extract_tools
                   max_servers w) = Ret results ->
            exists p hs,
              results = results_of p /\ handled p = hs
              /\ length hs = length (selected registry max_servers)
              /\ successful p = length (filter scraped_ok hs)
              /\ failed p = length (filter (fun s => negb (scraped_ok s)) hs)
              /\ errs p = flat_map error_lines hs)
  | Raise e =>
      fst (scrape_all str_exn get_repo respond path_exists glob read_text
             parse_registry enhance_server enhance_metadata extract_tools
             max_servers w) = Raise e
  | Stuck =>
      fst (scrape_all str_exn get_repo respond path_exists glob read_text
             parse_registry enhance_server enhance_metadata extract_tools
             max_servers w) = Stuck
  end.
Proof.
  pose proof (scrape_all_run str_exn get_repo respond path_exists glob read_text
                parse_registry enhance_server enhance_metadata extract_tools
                max_servers w) as R.
  destruct parse_registry as [registry|e|]; [|exact R|exact R].
  destruct R as [w1 R]. rewrite R.
  destruct (scrape_loop_spec str_exn get_repo respond path_exists glob read_text
              enhance_server enhance_metadata extract_tools
              (selected registry max_servers) 0 (mkProgress 0 0 [] []) w1) as [NR Sp].
  destruct (fst (MCPRegistryScraper.scrape_loop str_exn get_repo respond path_exists glob
                   read_text enhance_server enhance_metadata extract_tools 0
                   (selected registry max_servers) (mkProgress 0 0 [] []) w1))
    as [p|e|].
  - split; [discriminate|]. intros results H. injection H as <-.
    destruct (Sp p eq_refl) as [hs [Hh [Hl [Hs [Hf He]]]]].
    exists p, hs. cbn [handled successful failed errs app] in Hh, Hs, Hf, He.
    repeat split; assumption.
  - exfalso. exact (NR e eq_refl).
  - split; discriminate.
Qed.

Lemma selected_length (registry : list ServerEntry) (max_servers : option Z) :
  length (selected registry max_servers) =
  match max_servers with
  | None => length registry
  | Some n =>
      if (n =? 0)%Z then length registry
      else if (n <? 0)%Z then length registry - Z.to_nat (- n)
      else Nat.min (Z.to_nat n) (length registry)
  end.
Proof.
  unfold selected, slice_to. destruct max_servers as [n|]; [|reflexivity].
  destruct (n =? 0)%Z; [reflexivity|].
  destruct (n <? 0)%Z; rewrite length_firstn; lia.
Qed.

(** X20.  When the registry is read, [scrape_all] handles every exception
    of the servers, and what it reports is read off the servers it returns:
    a server counts as successful exactly when it is accessible and carries
    no error message, [errors] holds one line, name and message, for every
    server that carries a message, successful and failed servers add up to
    the total, and so do reference and third-party servers. *)
Theorem scrape_all_counts :
  forall (str_exn : exn -> text) (get_repo : text -> res unit)
         (respond : nat -> text -> response) (path_exists : text -> res bool)
         (glob : text -> text -> res (list text)) (read_text : text -> res text)
         (parse_registry : res (list ServerEntry))
         (enhance_server : nat -> ServerEntry -> ServerEntry)
         (enhance_metadata extract_tools : bool) (max_servers : option Z) (w : world)
         (registry : list ServerEntry) (results : ScrapingResults),
    parse_registry = Ret registry ->
    fst (scrape_all str_exn get_repo respond path_exists glob read_text parse_registry
           enhance_server enhance_metadata extract_tools max_servers w) = Ret results ->
    total_servers results = length (servers results)
    /\ successful_scrapes results
       = length (filter (fun s => is_accessible s
                                  && negb (truthy (error_message (core s))))%bool
                        (servers results))
    /\ failed_scrapes results
       = length (filter (fun s => negb (is_accessible s
                                        && negb (truthy (error_message (core s)))))%bool
                        (servers results))
    /\ successful_scrapes results + failed_scrapes results = total_servers results
    /\ reference_servers results + third_party_servers results = total_servers results
    /\ errors results
       = flat_map (fun s => match error_message (core s) with
                            | Some m =>
                                if nonempty m then [name (core s) ++ raw ": " ++ m] else []
                            | None => []
                            end)
                  (servers results).
Proof.
  intros str_exn get_repo respond path_exists glob read_text parse_registry
         enhance_server enhance_metadata extract_tools max_servers w registry results
         HR H.
  subst parse_registry.
  destruct (scrape_all_outcome str_exn get_repo respond path_exists glob read_text
              (Ret registry) enhance_server enhance_metadata extract_tools
              max_servers w) as [_ O].
  destruct (O results H) as [p [hs [-> [Hh [Hl [Hs [Hf He]]]]]]].
  unfold results_of. cbn [total_servers servers successful_scrapes failed_scrapes
                            reference_servers third_party_servers errors].
  rewrite Hs, Hf, He, Hh.
  split; [reflexivity|]. split; [reflexivity|]. split; [reflexivity|].
  split; [apply ok_partition|]. split; [apply type_partition | reflexivity].
Qed.

(** A run of X20 on the demo registry: one of three servers succeeds. *)
Lemma scrape_all_counts_witness :
  successful_scrapes results_demo = 1 /\ failed_scrapes results_demo = 2
  /\ successful_scrapes results_demo + failed_scrapes results_demo
     = total_servers results_demo
  /\ errors results_demo = [raw "demo: earlier failure"].
Proof.
  pose proof (scrape_all_counts str_exn_demo get_repo_missing respond_demo
                path_exists_never glob_nothing read_text_fails registry_demo
                enhance_nothing false true None world0
                [mail_entry; broken_entry; offline_entry] results_demo eq_refl
                ltac:(vm_compute; reflexivity)) as [_ [S [F [T [_ E]]]]].
  split; [exact S|]. split; [exact F|]. split; [exact T | exact E].
Defined.

(** X21.  The limit [max_servers] is a slice bound under a truth test: 0
    means no limit, as [None] does; a positive limit keeps that many
    servers from the front of the registry; a negative limit drops that
    many from its end. *)
Theorem max_servers_zero_means_no_limit :
  forall (str_exn : exn -> text) (get_repo : text -> res unit)
         (respond : nat -> text -> response) (path_exists : text -> res bool)
         (glob : text -> text -> res (list text)) (read_text : text -> res text)
         (parse_registry : res (list ServerEntry))
         (enhance_server : nat -> ServerEntry -> ServerEntry)
         (enhance_metadata extract_tools : bool) (max_servers : option Z) (w : world)
         (registry : list ServerEntry) (results : ScrapingResults),
    parse_registry = Ret registry ->
    fst (scrape_all str_exn get_repo respond path_exists glob read_text parse_registry
           enhance_server enhance_metadata extract_tools max_servers w) = Ret results ->
    total_servers results =
    match max_servers with
    | None => length registry
    | Some n =>
        if (n =? 0)%Z then length registry
        else if (n <? 0)%Z then length registry - Z.to_nat (- n)
        else Nat.min (Z.to_nat n) (length registry)
    end.
Proof.
  intros str_exn get_repo respond path_exists glob read_text parse_registry
         enhance_server enhance_metadata extract_tools max_servers w registry results
         HR H.
  subst parse_registry.
  destruct (scrape_all_outcome str_exn get_repo respond path_exists glob read_text
              (Ret registry) enhance_server enhance_metadata extract_tools
              max_servers w) as [_ O].
  destruct (O results H) as [p [hs [-> [Hh [Hl _]]]]].
  unfold results_of. cbn [total_servers]. rewrite Hh, Hl. apply selected_length.
Qed.

(** Runs of X21 on the demo registry of three servers: the limits 0 and
    -1. *)
Lemma max_servers_zero_means_no_limit_witness :
  total_servers results_limit_0 = 3 /\ total_servers results_limit_minus_1 = 2.
Proof.
  split.
  - exact (max_servers_zero_means_no_limit str_exn_demo get_repo_missing respond_demo
             path_exists_never glob_nothing read_text_fails registry_demo
             enhance_nothing false true (Some 0%Z) world0
             [mail_entry; broken_entry; offline_entry] results_limit_0 eq_refl
             ltac:(vm_compute; reflexivity)).
  - exact (max_servers_zero_means_no_limit str_exn_demo get_repo_missing respond_demo
             path_exists_never glob_nothing read_text_fails registry_demo
             enhance_nothing false true (Some (-1)%Z) world0
             [mail_entry; broken_entry; offline_entry] results_limit_minus_1 eq_refl
             ltac:(vm_compute; reflexivity)).
Defined.

(** X22.  [scrape_all] raises exactly the exceptions of the registry
    parser: nothing that happens while a server is handled reaches the
    caller. *)
Theorem scrape_all_raises_only_with_parser :
  forall (str_exn : exn -> text) (get_repo : text -> res unit)
         (respond : nat -> text -> response) (path_exists : text -> res bool)
         (glob : text -> text -> res (list text)) (read_text : text -> res text)
         (parse_registry : res (list ServerEntry))
         (enhance_server : nat -> ServerEntry -> ServerEntry)
         (enhance_metadata extract_tools : bool) (max_servers : option Z) (w : world)
         (e : exn),
    fst (scrape_all str_exn get_repo respond path_exists glob read_text parse_registry
           enhance_server enhance_metadata extract_tools max_servers w) = Raise e
    <-> parse_registry = Raise e.
Proof.
  intros str_exn get_repo respond path_exists glob read_text parse_registry
         enhance_server enhance_metadata extract_tools max_servers w e.
  pose proof (scrape_all_outcome str_exn get_repo respond path_exists glob read_text
                parse_registry enhance_server enhance_metadata extract_tools
                max_servers w) as O.
  destruct parse_registry as [registry|e'|].
  - destruct O as [NR _]. split; [intros H; exfalso; exact (NR e H) | discriminate].
  - rewrite O. split; intros H; injection H as ->; reflexivity.
  - rewrite O. split; discriminate.
Qed.

End ScraperTheorems.

(** ** The directory of a reference server *)

Section PathTheorems.
Import PyStr PyStrFacts EnhancedToolExtractor UrlFacts.

(** X23.  The directory in which a reference server is looked up is
    [mcp_servers_repo/src/<name>] for a name that is one plain path
    component; a name that starts with a slash is taken as an absolute
    path, so the lookup leaves the checkout. *)
Theorem reference_directory_of_name :
  forall server_name : text,
    (segment server_name -> server_name <> raw "." ->
     path_div (raw "mcp_servers_repo/src") server_name
     = raw "mcp_servers_repo/src/" ++ server_name)
    /\ (startswith server_name (raw "/") = true ->
        startswith (path_div (raw "mcp_servers_repo/src") server_name) (raw "/") = true).
Proof.
  intros server_name. split.
  - intros [N H] D. unfold path_div.
    destruct (segment_first server_name (conj N H)) as [c [s [E Hc]]].
    destruct (name_char_plain c Hc) as [_ [_ [_ Hs]]].
    assert (S : startswith server_name (raw "/") = false).
    { rewrite E. change (startswith (c :: s) (raw "/"))
        with (eqb_char c "/" && true)%bool. rewrite Hs. reflexivity. }
    rewrite S. unfold path_parts at 2.
    rewrite (split_slash_segment server_name [] H). cbn [rev app filter].
    assert (K : (nonempty server_name && negb (eqb server_name (raw ".")))%bool = true).
    { rewrite E. cbn [nonempty andb]. rewrite <- E.
      destruct (eqb server_name (raw ".")) eqn:Q; [|reflexivity].
      apply eqb_eq in Q. contradiction. }
    rewrite K. reflexivity.
  - intros S. unfold path_div. rewrite S. unfold path_root, str_path.
    destruct (startswith server_name (raw "///")); [reflexivity|].
    destruct (startswith server_name (raw "//")); [reflexivity|].
    rewrite S. reflexivity.
Qed.

(** Runs of X23 on the names [fetch] and [/etc]. *)
Lemma reference_directory_of_name_witness :
  path_div (raw "mcp_servers_repo/src") (raw "fetch")
  = raw "mcp_servers_repo/src/" ++ raw "fetch"
  /\ startswith (path_div (raw "mcp_servers_repo/src") (raw "/etc")) (raw "/") = true.
Proof.
  split.
  - apply (proj1 (reference_directory_of_name (raw "fetch")));
      [split; [discriminate | reflexivity] | discriminate].
  - apply (proj2 (reference_directory_of_name (raw "/etc"))). reflexivity.
Defined.

End PathTheorems.
